(** * SecureBox: the cryptographic data model of [src/models.py]

    A shallow embedding of the classes [SymmetricKey], [Container] and
    [Vault], and the properties of the encrypt / load life cycle.

    Conventions of the embedding.
    - A Python [bytes] value is a [list ascii] (one [ascii] per byte).
    - A Python [str] is a [string] holding its UTF-8 encoding, so
      [str.encode('utf-8')] is a change of type and [bytes.decode('utf-8')]
      is a validity check. Strings with lone surrogates have no UTF-8
      encoding and are outside the model.
    - A Python [int] is a [Z].
    - A [dict] is an association list in insertion order.
    - Exceptions are values of [exn]; a computation returns [Ok] or [Raise].
    - Module state ([Container.next_id], the random source) is threaded
      through a state-and-exception monad [M].
    - What the code calls and does not define (PBKDF2, HMAC-SHA256, the AES
      block permutation, base64, the [json] codec, and the built-in [int] on
      a [str]) are the fields of a record [Primitives]; what is assumed of
      them is stated in [PrimitivesOk].
    - An attribute holds what the code stores in it: [Container.name] is
      whatever object [set_name] was given, which after [from_data] is any
      value that [json.loads] returns. Parameters that the code annotates as
      [str] or [int] are strings and integers. *)

From Stdlib Require Import ZArith List String Ascii Bool Lia Arith.
From Stdlib Require Import DecimalString DecimalZ.
From Stdlib Require Import Sorting.Sorted Sorting.Permutation.
Import ListNotations.

Set Implicit Arguments.
Set Warnings "-register-all".

Local Open Scope string_scope.
Local Open Scope list_scope.

(** ** Python values *)

Definition byte := ascii.
Definition bytes := list byte.

(** [str.encode('utf-8')] on a string held as UTF-8. *)
Definition encode_utf8 (s : string) : bytes := list_ascii_of_string s.

Definition code (b : byte) : nat := nat_of_ascii b.

Definition in_range (lo hi : nat) (b : byte) : bool :=
  (lo <=? code b)%nat && (code b <=? hi)%nat.

Definition is_cont : byte -> bool := in_range 128 191.

(** Well-formed UTF-8 (RFC 3629), as the strict decoder of CPython accepts
    it: no overlong forms, no surrogates, nothing above U+10FFFF. *)
Fixpoint utf8_valid (l : bytes) : bool :=
  match l with
  | [] => true
  | b0 :: t0 =>
    if in_range 0 127 b0 then utf8_valid t0
    else match t0 with
    | [] => false
    | b1 :: t1 =>
      if in_range 194 223 b0 then is_cont b1 && utf8_valid t1
      else match t1 with
      | [] => false
      | b2 :: t2 =>
        if in_range 224 224 b0 then in_range 160 191 b1 && is_cont b2 && utf8_valid t2
        else if in_range 225 236 b0 then is_cont b1 && is_cont b2 && utf8_valid t2
        else if in_range 237 237 b0 then in_range 128 159 b1 && is_cont b2 && utf8_valid t2
        else if in_range 238 239 b0 then is_cont b1 && is_cont b2 && utf8_valid t2
        else match t2 with
        | [] => false
        | b3 :: t3 =>
          if in_range 240 240 b0 then
            in_range 144 191 b1 && is_cont b2 && is_cont b3 && utf8_valid t3
          else if in_range 241 243 b0 then
            is_cont b1 && is_cont b2 && is_cont b3 && utf8_valid t3
          else if in_range 244 244 b0 then
            in_range 128 143 b1 && is_cont b2 && is_cont b3 && utf8_valid t3
          else false
        end
      end
    end
  end.

(** The strings that stand for a Python [str]: those that are UTF-8. *)
Definition is_str (s : string) : bool := utf8_valid (encode_utf8 s).

(** [str.isascii()]: what [hmac.compare_digest] demands of [str] arguments. *)
Definition is_ascii (s : string) : bool :=
  forallb (in_range 0 127) (list_ascii_of_string s).

(** Exceptions raised by the modelled code and by the libraries it calls.
    All are subclasses of [Exception]. *)
Inductive exn : Type :=
| ValueError (msg : string)
| TypeError (msg : string)
| KeyError (msg : string)
| AttributeError (msg : string)
| UnicodeDecodeError
| JSONDecodeError
| BinasciiError
| FileNotFoundError
| PermissionError
| IsADirectoryError
| OSError (msg : string)
| RecursionError
| LoadContainerError (msg : string)
| LoadVaultError (msg : string).

Inductive result (A : Type) : Type :=
| Ok (a : A)
| Raise (e : exn).
Arguments Ok {A} a.
Arguments Raise {A} e.

(** [bytes.decode('utf-8')]. *)
Definition decode_utf8 (b : bytes) : result string :=
  if utf8_valid b then Ok (string_of_list_ascii b) else Raise UnicodeDecodeError.

(** What [json.load] / [json.loads] return (numbers restricted to ints). *)
Inductive json : Type :=
| JNull
| JBool (b : bool)
| JNum (z : Z)
| JStr (s : string)
| JList (l : list json)
| JDict (d : list (string * json)).

(** ** Dictionaries in insertion order *)

Section Dict.
Variables (K V : Type) (keq : K -> K -> bool).

Fixpoint dict_get (d : list (K * V)) (k : K) : option V :=
  match d with
  | [] => None
  | (k', v) :: t => if keq k' k then Some v else dict_get t k
  end.

(** [d[k] = v]: an existing key keeps its place. *)
Fixpoint dict_set (d : list (K * V)) (k : K) (v : V) : list (K * V) :=
  match d with
  | [] => [(k, v)]
  | (k', v') :: t => if keq k' k then (k', v) :: t else (k', v') :: dict_set t k v
  end.

(** [d.pop(k)] without the [KeyError]: the callers test membership. *)
Fixpoint dict_remove (d : list (K * V)) (k : K) : list (K * V) :=
  match d with
  | [] => []
  | (k', v') :: t => if keq k' k then t else (k', v') :: dict_remove t k
  end.

(** [{k: v for k, v in items}]. *)
Definition dict_of_items (items : list (K * V)) : list (K * V) :=
  fold_left (fun d kv => dict_set d (fst kv) (snd kv)) items [].

(** [d1 | d2]. *)
Definition dict_union (d1 d2 : list (K * V)) : list (K * V) :=
  fold_left (fun d kv => dict_set d (fst kv) (snd kv)) d2 d1.

Definition dict_keys (d : list (K * V)) : list K := map fst d.
Definition dict_values (d : list (K * V)) : list V := map snd d.
End Dict.

(** [j[k]] for a string key [k]. *)
Definition getitem (j : json) (k : string) : result json :=
  match j with
  | JDict d =>
    match dict_get String.eqb d k with
    | Some v => Ok v
    | None => Raise (KeyError k)
    end
  | JList _ => Raise (TypeError "list indices must be integers or slices, not str")
  | JStr _ => Raise (TypeError "string indices must be integers, not 'str'")
  | _ => Raise (TypeError "object is not subscriptable")
  end.

(** [type(j).__name__] *)
Definition py_type_name (j : json) : string :=
  match j with
  | JNull => "NoneType"
  | JBool _ => "bool"
  | JNum _ => "int"
  | JStr _ => "str"
  | JList _ => "list"
  | JDict _ => "dict"
  end.

(** The [AttributeError] of [j.attr] on a value without that attribute. *)
Definition no_attribute (j : json) (attr : string) : exn :=
  AttributeError ("'" ++ py_type_name j ++ "' object has no attribute '" ++ attr ++ "'").

(** [j.items()]. *)
Definition items (j : json) : result (list (string * json)) :=
  match j with
  | JDict d => Ok d
  | _ => Raise (no_attribute j "items")
  end.

(** [a == b] on values that [json.loads] returns. [bool] is a subclass of
    [int], so [True == 1]; lists are equal when they have the same length and
    equal elements; dicts are equal when they have the same number of items
    and every key of the one is a key of the other with an equal value,
    whatever the order of the items. *)
Fixpoint py_eq (a b : json) : bool :=
  match a, b with
  | JNull, JNull => true
  | JBool x, JBool y => Bool.eqb x y
  | JBool x, JNum z => Z.eqb z (if x then 1 else 0)
  | JNum z, JBool x => Z.eqb z (if x then 1 else 0)
  | JNum x, JNum y => Z.eqb x y
  | JStr x, JStr y => String.eqb x y
  | JList l, JList m =>
    (fix all2 (l m : list json) : bool :=
       match l, m with
       | [], [] => true
       | x :: l', y :: m' => py_eq x y && all2 l' m'
       | _, _ => false
       end) l m
  | JDict d, JDict d' =>
    (List.length d =? List.length d')%nat
    && (fix all_in (d : list (string * json)) : bool :=
          match d with
          | [] => true
          | (k, v) :: t =>
            match dict_get String.eqb d' k with
            | Some v' => py_eq v v' && all_in t
            | None => false
            end
          end) d
  | _, _ => false
  end.

(** [sorted(d.items())] for a dict with [str] keys: tuples compare by their
    first component, and the keys of a dict are distinct, so the values are
    never compared. Strings compare by code point, which on UTF-8 is the
    byte-wise lexicographic order. *)
Fixpoint insert_sorted (V : Type) (kv : string * V) (l : list (string * V))
  : list (string * V) :=
  match l with
  | [] => [kv]
  | kv' :: t =>
    if String.leb (fst kv) (fst kv') then kv :: l else kv' :: insert_sorted kv t
  end.

Definition sorted (V : Type) (l : list (string * V)) : list (string * V) :=
  fold_right (@insert_sorted V) [] l.

(** ** [str(int)] *)

(** [str(z)], also [f"{z}"]. *)
Definition py_str (z : Z) : string := NilZero.string_of_int (Z.to_int z).

(** ** A decimal parser

    The stand-in for the built-in [int] among the reference primitives
    below: it reads ASCII decimal literals as [int] does, that is the
    whitespace of C ([\t\n\v\f\r] and the space) around an optional sign
    and digits with single underscores between them. The built-in also
    accepts the decimal digits and the spaces of Unicode, which this parser
    refuses; the model calls [int] through [Primitives]. *)

Definition is_space (c : ascii) : bool :=
  in_range 9 13 c || in_range 32 32 c.

Definition is_digit (c : ascii) : bool := in_range 48 57 c.

Fixpoint lstrip (s : string) : string :=
  match s with
  | String c t => if is_space c then lstrip t else s
  | EmptyString => s
  end.

Fixpoint rstrip (s : string) : string :=
  match s with
  | EmptyString => EmptyString
  | String c t =>
    match rstrip t with
    | EmptyString => if is_space c then EmptyString else String c EmptyString
    | t' => String c t'
    end
  end.

Definition strip (s : string) : string := rstrip (lstrip s).

(** Digits with single underscores between them; the underscores dropped. *)
Fixpoint digits_of (prev_digit : bool) (s : string) : option string :=
  match s with
  | EmptyString => if prev_digit then Some EmptyString else None
  | String c t =>
    if is_digit c then option_map (String c) (digits_of true t)
    else if (Ascii.eqb c "_" && prev_digit)%bool then
      match t with
      | String c' _ => if is_digit c' then digits_of false t else None
      | EmptyString => None
      end
    else None
  end.

Definition ref_int (s : string) : result Z :=
  let bad :=
    Raise (ValueError ("invalid literal for int() with base 10: '" ++ s ++ "'")%string) in
  match strip s with
  | EmptyString => bad
  | String c t =>
    let '(neg, body) :=
      if Ascii.eqb c "-" then (true, t)
      else if Ascii.eqb c "+" then (false, t)
      else (false, String c t) in
    match digits_of false body with
    | Some ds =>
      match NilZero.uint_of_string ds with
      | Some u => Ok (if neg then Z.opp (Z.of_uint u) else Z.of_uint u)
      | None => bad
      end
    | None => bad
    end
  end.

(** ** [Crypto.Util.Padding] (PKCS#7) *)

Definition bchr (n : nat) : byte := ascii_of_nat n.

Fixpoint bytes_eqb (x y : bytes) : bool :=
  match x, y with
  | [], [] => true
  | a :: x', b :: y' => Ascii.eqb a b && bytes_eqb x' y'
  | _, _ => false
  end.

(** [pad(data, block_size)]. *)
Definition pad (data : bytes) (block_size : nat) : bytes :=
  let padding_len := (block_size - List.length data mod block_size)%nat in
  data ++ repeat (bchr padding_len) padding_len.

(** [unpad(padded, block_size)]. *)
Definition unpad (padded : bytes) (block_size : nat) : result bytes :=
  let pdata_len := List.length padded in
  if (pdata_len =? 0)%nat then
    Raise (ValueError "Zero-length input cannot be unpadded")
  else if negb (pdata_len mod block_size =? 0)%nat then
    Raise (ValueError "Input data is not padded")
  else
    let padding_len := code (last padded zero) in
    if ((padding_len <? 1) || (Nat.min block_size pdata_len <? padding_len))%nat then
      Raise (ValueError "Padding is incorrect.")
    else if negb (bytes_eqb (skipn (pdata_len - padding_len) padded)
                            (repeat (bchr padding_len) padding_len)) then
      Raise (ValueError "PKCS#7 padding is incorrect.")
    else Ok (firstn (pdata_len - padding_len) padded).

(** ** The third-party primitives *)

Record Primitives : Type := {
  (** [hashlib.pbkdf2_hmac("sha256", password, salt, 500000, 32)] *)
  pbkdf2_hmac : bytes -> bytes -> bytes;
  (** [hmac.new(key, msg, hashlib.sha256).hexdigest()] *)
  hmac_hexdigest : bytes -> bytes -> string;
  (** the AES block permutation under a key, and its inverse *)
  aes_encrypt_block : bytes -> bytes -> bytes;
  aes_decrypt_block : bytes -> bytes -> bytes;
  (** [base64.b64encode(b).decode('utf-8')] and [base64.b64decode(s)] *)
  b64encode : bytes -> string;
  b64decode : string -> option bytes;
  (** [json.dumps(v)] and [json.loads(s)] *)
  json_dumps : json -> string;
  json_loads : string -> option json;
  (** the built-in [int(s)] on a [str] *)
  py_int : string -> result Z
}.

Definition KEY_SIZE : nat := 32.
Definition SALT_SIZE : nat := 32.
Definition BLOCK_SIZE : nat := 16.

(** The record that [Container.encrypt] serialises. *)
Definition record_json (name : json) (data : string) : json :=
  JDict [("name", name); ("data", JStr data)].

(** The message of the [ValueError] of [int(s)] begins with these words. *)
Definition invalid_literal : string := "invalid literal for int() with base 10: ".

(** What the development assumes of the primitives: the documented
    contracts of the libraries, none of them a security assumption. *)
Record PrimitivesOk (P : Primitives) : Prop := {
  pbkdf2_length : forall pw salt, List.length (pbkdf2_hmac P pw salt) = KEY_SIZE;
  hexdigest_ascii : forall k m, is_ascii (hmac_hexdigest P k m) = true;
  hexdigest_length : forall k m, String.length (hmac_hexdigest P k m) = 64%nat;
  aes_block_length : forall k b,
    List.length b = BLOCK_SIZE -> List.length (aes_encrypt_block P k b) = BLOCK_SIZE;
  aes_block_inverse : forall k b,
    List.length b = BLOCK_SIZE -> aes_decrypt_block P k (aes_encrypt_block P k b) = b;
  b64_inverse : forall b, b64decode P (b64encode P b) = Some b;
  (* ensure_ascii is the default of json.dumps *)
  json_ascii : forall name data,
    is_ascii (json_dumps P (record_json (JStr name) data)) = true;
  json_inverse : forall name data,
    is_str name = true -> is_str data = true ->
    json_loads P (json_dumps P (record_json (JStr name) data))
    = Some (record_json (JStr name) data);
  (* the strings of a decoded document are str objects *)
  json_loads_str : forall s j k v,
    json_loads P s = Some j -> getitem j k = Ok (JStr v) -> is_str v = true;
  (* int(str(z)) == z *)
  int_of_str : forall z, py_int P (py_str z) = Ok z;
  (* int(s) raises nothing but its ValueError *)
  int_error : forall s e,
    py_int P s = Raise e -> exists m, e = ValueError (invalid_literal ++ m)
}.

(** ** AES in CBC mode over the block permutation *)

Definition xor_byte (a b : byte) : byte :=
  match a, b with
  | Ascii a0 a1 a2 a3 a4 a5 a6 a7, Ascii b0 b1 b2 b3 b4 b5 b6 b7 =>
    Ascii (xorb a0 b0) (xorb a1 b1) (xorb a2 b2) (xorb a3 b3)
          (xorb a4 b4) (xorb a5 b5) (xorb a6 b6) (xorb a7 b7)
  end.

Fixpoint xor_bytes (x y : bytes) : bytes :=
  match x, y with
  | a :: x', b :: y' => xor_byte a b :: xor_bytes x' y'
  | _, _ => []
  end.

Section CBC.
Variable P : Primitives.

(** [n] blocks of [data], chained from [prev]. *)
Fixpoint cbc_encrypt (key : bytes) (n : nat) (prev data : bytes) : bytes :=
  match n with
  | O => []
  | S n' =>
    let c := aes_encrypt_block P key (xor_bytes (firstn BLOCK_SIZE data) prev) in
    c ++ cbc_encrypt key n' c (skipn BLOCK_SIZE data)
  end.

Fixpoint cbc_decrypt (key : bytes) (n : nat) (prev data : bytes) : bytes :=
  match n with
  | O => []
  | S n' =>
    let c := firstn BLOCK_SIZE data in
    xor_bytes (aes_decrypt_block P key c) prev
      ++ cbc_decrypt key n' c (skipn BLOCK_SIZE data)
  end.

(** [AES.new(key, AES.MODE_CBC, iv)]: the cipher object, or the
    [ValueError] of a key or IV of the wrong length. *)
Definition AES_new (key iv : bytes) : result (bytes * bytes) :=
  if negb ((List.length key =? 16) || (List.length key =? 24) || (List.length key =? 32))%nat then
    Raise (ValueError "Incorrect AES key length")
  else if negb (List.length iv =? BLOCK_SIZE)%nat then
    Raise (ValueError "Incorrect IV length (it must be 16 bytes long)")
  else Ok (key, iv).

Definition not_aligned : exn :=
  ValueError "Data must be padded to 16 byte boundary in CBC mode".

(** [cipher.encrypt(plaintext)] *)
Definition cipher_encrypt (cipher : bytes * bytes) (plaintext : bytes) : result bytes :=
  if negb (List.length plaintext mod BLOCK_SIZE =? 0)%nat then Raise not_aligned
  else Ok (cbc_encrypt (fst cipher) (List.length plaintext / BLOCK_SIZE)
             (snd cipher) plaintext).

(** [cipher.decrypt(ciphertext)] *)
Definition cipher_decrypt (cipher : bytes * bytes) (ciphertext : bytes) : result bytes :=
  if negb (List.length ciphertext mod BLOCK_SIZE =? 0)%nat then Raise not_aligned
  else Ok (cbc_decrypt (fst cipher) (List.length ciphertext / BLOCK_SIZE)
             (snd cipher) ciphertext).
End CBC.

(** ** Process state and the monad of the modelled code *)

(** Library calls and the construction of containers are recorded, most
    recent first, so that the order of the cryptographic steps and the
    history of the ids can be stated. *)
Inductive event : Type :=
| EvNewContainer (id : Z)
| EvRandom (n : nat)
| EvPbkdf2
| EvHmac
| EvCompareDigest
| EvAesEncrypt
| EvAesDecrypt
| EvUnpad
| EvJsonLoads.

(** The ways in which [open(path, "r")] and the reading of the text fail
    on a path that exists. *)
Inductive read_error : Type :=
| NoPermission                (* PermissionError *)
| IsDirectory                 (* IsADirectoryError *)
| NotText                     (* UnicodeDecodeError: not text in the encoding *)
| TooDeep                     (* RecursionError of the decoder *)
| OtherOSError (msg : string).

Definition read_exn (r : read_error) : exn :=
  match r with
  | NoPermission => PermissionError
  | IsDirectory => IsADirectoryError
  | NotText => UnicodeDecodeError
  | TooDeep => RecursionError
  | OtherOSError msg => OSError msg
  end.

(** What [open(path)] followed by [json.load] finds at a path that exists:
    a document, text that is not JSON, or a failure to open or to read. *)
Inductive file : Type :=
| NotJson
| JsonFile (j : json)
| Unreadable (r : read_error).

Record world : Type := {
  next_id : Z;                      (* the class attribute Container.next_id *)
  entropy : nat -> byte;            (* the source behind Random.new().read *)
  drawn : nat;                      (* bytes already read from it *)
  files : string -> option file;    (* the file system, by path *)
  events : list event
}.

Definition M (A : Type) : Type := world -> result A * world.

Definition ret (A : Type) (a : A) : M A := fun w => (Ok a, w).
Definition raise (A : Type) (e : exn) : M A := fun w => (Raise e, w).
Arguments raise {A} e.

Definition bind (A B : Type) (m : M A) (k : A -> M B) : M B :=
  fun w =>
    match m w with
    | (Ok a, w') => k a w'
    | (Raise e, w') => (Raise e, w')
    end.

(** [try: m except Exception as e: h e]; a handler re-raises what it does
    not catch. *)
Definition try_except (A : Type) (m : M A) (h : exn -> M A) : M A :=
  fun w =>
    match m w with
    | (Ok a, w') => (Ok a, w')
    | (Raise e, w') => h e w'
    end.

Definition lift (A : Type) (r : result A) : M A := fun w => (r, w).

Declare Scope monad_scope.
Delimit Scope monad_scope with monad.
Notation "x <- m ;; k" := (bind m (fun x => k))
  (at level 61, m at next level, right associativity) : monad_scope.
Notation "' pat <- m ;; k" := (bind m (fun x => match x with pat => k end))
  (at level 61, pat pattern, m at next level, right associativity) : monad_scope.
Notation "m1 ;; m2" := (bind m1 (fun _ => m2))
  (at level 61, right associativity) : monad_scope.
Local Open Scope monad_scope.

Definition log (e : event) : M unit :=
  fun w => (Ok tt, {| next_id := next_id w; entropy := entropy w; drawn := drawn w;
                      files := files w; events := e :: events w |}).

(** [Random.new().read(n)] *)
Definition random_read (n : nat) : M bytes :=
  fun w => (Ok (map (entropy w) (seq (drawn w) n)),
            {| next_id := next_id w; entropy := entropy w; drawn := (drawn w + n)%nat;
               files := files w; events := EvRandom n :: events w |}).

Definition get_next_id : M Z := fun w => (Ok (next_id w), w).

Definition set_next_id (z : Z) : M unit :=
  fun w => (Ok tt, {| next_id := z; entropy := entropy w; drawn := drawn w;
                      files := files w; events := events w |}).

(** [with open(path, "r") as f: data = json.load(f)] *)
Definition open_json (path : string) : M json :=
  fun w =>
    match files w path with
    | None => (Raise FileNotFoundError, w)
    | Some NotJson => (Raise JSONDecodeError, w)
    | Some (JsonFile j) => (Ok j, w)
    | Some (Unreadable r) => (Raise (read_exn r), w)
    end.

(** [with open(path, "w") as f: f.write(json.dumps(data, indent=4))]: the
    file then holds a document that [json.load] reads back as [data]. *)
Definition write_json (path : string) (data : json) : M unit :=
  fun w => (Ok tt, {| next_id := next_id w; entropy := entropy w; drawn := drawn w;
                      files := fun p => if String.eqb p path then Some (JsonFile data)
                                        else files w p;
                      events := events w |}).

(** [for x in l: f x], threading an accumulator. *)
Fixpoint mapM (A B : Type) (f : A -> M B) (l : list A) : M (list B) :=
  match l with
  | [] => ret []
  | a :: t => b <- f a ;; bs <- mapM f t ;; ret (b :: bs)
  end.

Definition nl : string := String "010"%char EmptyString.

(** ** [class SymmetricKey] *)

Module SymmetricKey.

Record t : Type := mk {
  salt : bytes;
  iv : bytes;
  aeskey : option bytes;
  prev_password : option string
}.

Section Methods.
Variable P : Primitives.

(** [__init__(salt=None, iv=None)]: an argument that is [None] or empty
    is replaced by fresh random bytes. *)
Definition init (salt0 iv0 : option bytes) : M t :=
  s <- match salt0 with
       | Some (b :: l) => ret (b :: l)
       | _ => random_read SALT_SIZE
       end ;;
  i <- match iv0 with
       | Some (b :: l) => ret (b :: l)
       | _ => random_read BLOCK_SIZE
       end ;;
  ret {| salt := s; iv := i; aeskey := None; prev_password := None |}.

(** [generate_aes_key(password)]: returns the key and the object with
    its cache updated. *)
Definition generate_aes_key (self : t) (password : string) : M (bytes * t) :=
  let derive :=
    log EvPbkdf2 ;;
    let k := pbkdf2_hmac P (encode_utf8 password) (salt self) in
    ret (k, {| salt := salt self; iv := iv self;
               aeskey := Some k; prev_password := Some password |}) in
  match aeskey self, prev_password self with
  | Some k, Some p => if String.eqb p password then ret (k, self) else derive
  | _, _ => derive
  end.

Definition get_key_json (self : t) : json :=
  JDict [("salt", JStr (b64encode P (salt self)));
         ("iv", JStr (b64encode P (iv self)))].
End Methods.

End SymmetricKey.

(** [hmac.new(key, msg, hashlib.sha256).hexdigest()] *)
Definition hmac_new (P : Primitives) (key msg : bytes) : M string :=
  log EvHmac ;; ret (hmac_hexdigest P key msg).

(** [hmac.compare_digest(a, b)] with [a] a [str]: both arguments must be
    ASCII-only [str], or it raises [TypeError]. *)
Definition compare_digest (a : string) (b : json) : M bool :=
  log EvCompareDigest ;;
  match b with
  | JStr s =>
    if is_ascii a && is_ascii s then ret (String.eqb a s)
    else raise (TypeError "comparing strings with non-ASCII characters is not supported")
  | _ => raise (TypeError "unsupported operand types(s) or combination of types")
  end.

(** [json.loads(s)] *)
Definition loads (P : Primitives) (s : string) : M json :=
  log EvJsonLoads ;;
  match json_loads P s with
  | Some j => ret j
  | None => raise JSONDecodeError
  end.

(** [base64.b64decode(j)] *)
Definition b64decode_json (P : Primitives) (j : json) : result bytes :=
  match j with
  | JStr s =>
    match b64decode P s with
    | Some b => Ok b
    | None => Raise BinasciiError
    end
  | _ => Raise (TypeError "argument should be a bytes-like object or ASCII string")
  end.

(** ** [class Container] *)

Module Container.

Record t : Type := mk {
  id : Z;
  name : json;                 (* a str, or whatever set_name was given *)
  key : SymmetricKey.t;
  data : bytes
}.

Definition set_key (self : t) (k : SymmetricKey.t) : t :=
  {| id := id self; name := name self; key := k; data := data self |}.

Definition get_id (self : t) : Z := id self.
Definition get_name (self : t) : json := name self.
Definition get_data (self : t) : result string := decode_utf8 (data self).

(** [set_name(name)] stores its argument as it is. *)
Definition set_name (self : t) (n : json) : t :=
  {| id := id self; name := n; key := key self; data := data self |}.

Definition set_data (self : t) (d : string) : t :=
  {| id := id self; name := name self; key := key self; data := encode_utf8 d |}.

(** [__eq__] *)
Definition eqb (self other : t) : bool :=
  Z.eqb (id self) (id other) && py_eq (name self) (name other)
  && bytes_eqb (data self) (data other).

Definition integrity_msg (id : string) : string :=
  ("Integrity Error: Invalid container MAC for container " ++ id ++ "." ++ nl
     ++ "The container may have been tampered with.")%string.

Section Methods.
Variable P : Primitives.

(** [__init__(id=None)] *)
Definition init (id0 : option Z) : M t :=
  n <- get_next_id ;;
  let i := match id0 with Some i => i | None => n end in
  set_next_id (Z.max n (i + 1)) ;;
  log (EvNewContainer i) ;;
  k <- SymmetricKey.init None None ;;
  ret {| id := i; name := JStr ""; key := k; data := [] |}.

(** [from_data(password, id, ciphertext, mac, salt, iv)]. [mac] comes
    unchecked from the document, so it is a [json] value here. The decoded
    ["name"] is stored as it is; a decoded ["data"] that is not a [str] has
    no [encode]. *)
Definition from_data (password id : string) (ciphertext : bytes) (mac : json)
           (salt iv : bytes) : M t :=
  if (negb (List.length salt =? SALT_SIZE) || negb (List.length iv =? BLOCK_SIZE))%nat
  then raise (ValueError "Invalid data")
  else
    n <- lift (py_int P id) ;;
    container <- init (Some n) ;;
    loaded_key <- SymmetricKey.init (Some salt) (Some iv) ;;
    '(aes_key, loaded_key) <- SymmetricKey.generate_aes_key P loaded_key password ;;
    computed_mac <- hmac_new P aes_key (encode_utf8 id ++ ciphertext) ;;
    same <- compare_digest computed_mac mac ;;
    if negb same then raise (LoadContainerError (integrity_msg id))
    else
      cipher <- lift (AES_new aes_key iv) ;;
      log EvAesDecrypt ;;
      plaintext <- lift (cipher_decrypt P cipher ciphertext) ;;
      log EvUnpad ;;
      plaintext <- lift (unpad plaintext BLOCK_SIZE) ;;
      text <- lift (decode_utf8 plaintext) ;;
      jsonPlaintext <- loads P text ;;
      n <- lift (getitem jsonPlaintext "name") ;;
      let container := set_name container n in
      d <- lift (getitem jsonPlaintext "data") ;;
      container <- match d with
                   | JStr s => ret (set_data container s)
                   | _ => raise (no_attribute d "encode")
                   end ;;
      ret (set_key container loaded_key).

(** [encrypt(password)]: the entry for the document, and the object
    with the cache of its key updated. *)
Definition encrypt (self : t) (password : string) : M (json * t) :=
  text <- lift (decode_utf8 (data self)) ;;
  let plaintext := encode_utf8 (json_dumps P (record_json (name self) text)) in
  let plaintext := pad plaintext BLOCK_SIZE in
  '(aes_key, k) <- SymmetricKey.generate_aes_key P (key self) password ;;
  cipher <- lift (AES_new aes_key (SymmetricKey.iv k)) ;;
  log EvAesEncrypt ;;
  ciphertext <- lift (cipher_encrypt P cipher plaintext) ;;
  let mac_message := encode_utf8 (py_str (id self)) ++ ciphertext in
  computed_mac <- hmac_new P aes_key mac_message ;;
  ret (JDict [("ciphertext", JStr (b64encode P ciphertext));
              ("mac", JStr computed_mac);
              ("key", SymmetricKey.get_key_json P k)],
       set_key self k).
End Methods.

(** [get_container_info()]: only [get_data] can raise. *)
Definition get_container_info (self : t) : result json :=
  match get_data self with
  | Ok d => Ok (JDict [("id", JNum (get_id self));
                       ("name", get_name self);
                       ("data", JStr d)])
  | Raise e => Raise e
  end.

End Container.

(** [GDrive]: only the attribute that [Vault.set_master_password] writes. *)
Record GDrive : Type := { password : option string }.

(** [c[k1][k2]] then [base64.b64decode]. *)
Definition b64field (P : Primitives) (c : json) (k1 k2 : string) : result bytes :=
  match getitem c k1 with
  | Ok k =>
    match getitem k k2 with
    | Ok v => b64decode_json P v
    | Raise e => Raise e
    end
  | Raise e => Raise e
  end.

(** [[c["mac"] for c_id, c in its]] *)
Fixpoint macs_of (its : list (string * json)) : result (list json) :=
  match its with
  | [] => Ok []
  | (_, c) :: t =>
    match getitem c "mac" with
    | Ok m => match macs_of t with
              | Ok ms => Ok (m :: ms)
              | Raise e => Raise e
              end
    | Raise e => Raise e
    end
  end.

(** ["".join(l)] *)
Fixpoint str_join (l : list json) : result string :=
  match l with
  | [] => Ok ""
  | JStr s :: t =>
    match str_join t with
    | Ok r => Ok (s ++ r)%string
    | Raise e => Raise e
    end
  | _ :: _ => Raise (TypeError "sequence item: expected str instance")
  end.

(** ** [class Vault] *)

Module Vault.

Record t : Type := mk {
  key : SymmetricKey.t;
  containers : list (Z * Container.t);
  master_password : string;
  cloud : option GDrive;
  hidden_containers : list (Z * Container.t)
}.

Definition invalid_json_msg : string :=
  "Could not load vault: Invalid JSON (file may be corrupted/empty)".
Definition invalid_salt_msg : string := "Could not load vault: Invalid salt or iv".
Definition vault_mac_msg : string :=
  ("Integrity Error: Invalid vault MAC." ++ nl
     ++ "The vault may have been tampered with.")%string.
Definition load_failed_msg : string :=
  "Could not load vault: Password may be incorrect or the file may have been tampered with.".
Definition fetch_failed_msg (id : string) : string :=
  ("There was an error fetching the container with ID " ++ id)%string.

(** The object under [id] in [self.containers | self.hidden_containers]
    is the one of [hidden_containers] when both hold the key. *)
Definition store (self : t) (id : Z) (c : Container.t) : t :=
  match dict_get Z.eqb (hidden_containers self) id with
  | Some _ =>
    {| key := key self; containers := containers self;
       master_password := master_password self; cloud := cloud self;
       hidden_containers := dict_set Z.eqb (hidden_containers self) id c |}
  | None =>
    {| key := key self; containers := dict_set Z.eqb (containers self) id c;
       master_password := master_password self; cloud := cloud self;
       hidden_containers := hidden_containers self |}
  end.

Definition set_key (self : t) (k : SymmetricKey.t) : t :=
  {| key := k; containers := containers self;
     master_password := master_password self; cloud := cloud self;
     hidden_containers := hidden_containers self |}.

Definition all_containers (self : t) : list (Z * Container.t) :=
  dict_union Z.eqb (containers self) (hidden_containers self).

Section Methods.
Variable P : Primitives.

(** [add_container(name, data)] *)
Definition add_container (self : t) (name data : string) : M (Container.t * t) :=
  container <- Container.init None ;;
  let name := if String.eqb name "" then
                ("Container " ++ py_str (Container.get_id container))%string
              else name in
  let container := Container.set_data (Container.set_name container (JStr name)) data in
  ret (container,
       {| key := key self;
          containers := dict_set Z.eqb (containers self)
                          (Container.get_id container) container;
          master_password := master_password self; cloud := cloud self;
          hidden_containers := hidden_containers self |}).

(** [remove_container(id)] *)
Definition remove_container (self : t) (id : Z) : M t :=
  match dict_get Z.eqb (containers self) id with
  | Some _ =>
    ret {| key := key self; containers := dict_remove Z.eqb (containers self) id;
           master_password := master_password self; cloud := cloud self;
           hidden_containers := hidden_containers self |}
  | None =>
    raise (KeyError ("Could not delete: Container with ID " ++ py_str id
                       ++ " not found")%string)
  end.

(** [update_container(id, name=None, data=None)] *)
Definition update_container (self : t) (id : Z) (name data : option string) : M t :=
  match dict_get Z.eqb (all_containers self) id with
  | Some container =>
    let container := match name with
                     | Some n => Container.set_name container (JStr n)
                     | None => container
                     end in
    let container := match data with
                     | Some d => Container.set_data container d
                     | None => container
                     end in
    ret (store self id container)
  | None =>
    raise (KeyError ("Could not update: Container with ID " ++ py_str id
                       ++ " not found")%string)
  end.

(** [get_container(id)] *)
Definition get_container (self : t) (id : Z) : M Container.t :=
  match dict_get Z.eqb (containers self) id with
  | Some c => ret c
  | None => raise (KeyError ("Container with ID " ++ py_str id ++ " not found")%string)
  end.

Definition get_containers (self : t) : list (Z * Container.t) := containers self.

(** The comprehension of [encrypt]: every container of [its] is
    encrypted in turn, which updates the cache of its key. *)
Fixpoint encrypt_each (self : t) (its : list (Z * Container.t))
  : M (list (string * json) * t) :=
  match its with
  | [] => ret ([], self)
  | (c_id, c) :: rest =>
    '(entry, c') <- Container.encrypt P c (master_password self) ;;
    '(entries, self') <- encrypt_each (store self c_id c') rest ;;
    ret ((py_str c_id, entry) :: entries, self')
  end.

(** [encrypt()]: the document, and the vault with the caches updated. *)
Definition encrypt (self : t) : M (json * t) :=
  '(entries, self) <- encrypt_each self (all_containers self) ;;
  let enc_containers := dict_of_items String.eqb entries in
  container_macs <- lift (macs_of (sorted enc_containers)) ;;
  '(vault_key, k) <- SymmetricKey.generate_aes_key P (key self) (master_password self) ;;
  joined <- lift (str_join container_macs) ;;
  mac <- hmac_new P vault_key (encode_utf8 joined) ;;
  ret (JDict [("containers", JDict enc_containers);
              ("key", SymmetricKey.get_key_json P k);
              ("mac", JStr mac)],
       set_key self k).

(** The call of [Container.from_data] on one entry of the document. *)
Definition load_entry (password id : string) (c : json) : M Container.t :=
  ciphertext <- lift (match getitem c "ciphertext" with
                      | Ok v => b64decode_json P v
                      | Raise e => Raise e
                      end) ;;
  mac <- lift (getitem c "mac") ;;
  salt <- lift (b64field P c "key" "salt") ;;
  iv <- lift (b64field P c "key" "iv") ;;
  Container.from_data P password id ciphertext mac salt iv.

(** [fetch_container(id, password, path)] *)
Definition fetch_container (id password path : string) : M Container.t :=
  data <- try_except (open_json path)
            (fun e => match e with
                      | JSONDecodeError => raise (LoadVaultError invalid_json_msg)
                      | _ => raise e
                      end) ;;
  try_except
    (cs <- lift (getitem data "containers") ;;
     c <- lift (getitem cs id) ;;
     load_entry password id c)
    (fun _ => raise (LoadVaultError (fetch_failed_msg id))).

(** [load_from_file(path)] *)
Definition load_from_file (self : t) (path : string) : M t :=
  data <- try_except (open_json path)
            (fun e => match e with
                      | JSONDecodeError => raise (LoadVaultError invalid_json_msg)
                      | _ => raise e
                      end) ;;
  try_except
    (cs <- lift (getitem data "containers") ;;
     its <- lift (items cs) ;;
     loaded <- mapM (fun kv => load_entry (master_password self) (fst kv) (snd kv)) its ;;
     mac <- lift (getitem data "mac") ;;
     salt <- lift (b64field P data "key" "salt") ;;
     iv <- lift (b64field P data "key" "iv") ;;
     if (negb (List.length salt =? SALT_SIZE)
         || negb (List.length iv =? BLOCK_SIZE))%nat
     then raise (LoadVaultError invalid_salt_msg)
     else
       k <- SymmetricKey.init (Some salt) (Some iv) ;;
       container_macs <- lift (macs_of (sorted its)) ;;
       '(vault_key, k) <- SymmetricKey.generate_aes_key P k (master_password self) ;;
       joined <- lift (str_join container_macs) ;;
       computed_mac <- hmac_new P vault_key (encode_utf8 joined) ;;
       same <- compare_digest computed_mac mac ;;
       if negb same then raise (LoadVaultError vault_mac_msg)
       else
         let containers_map :=
           dict_of_items Z.eqb (map (fun c => (Container.get_id c, c)) loaded) in
         ret {| key := k;
                containers := filter (fun kv => (0 <=? fst kv)%Z) containers_map;
                master_password := master_password self; cloud := cloud self;
                hidden_containers :=
                  filter (fun kv => (fst kv <? 0)%Z) containers_map |})
    (fun e => match e with
              | LoadVaultError _ => raise e
              | _ => raise (LoadVaultError load_failed_msg)
              end).

(** [__init__(master_password, path=None)] *)
Definition init (master_password : string) (path : option string) : M t :=
  k <- SymmetricKey.init None None ;;
  c1 <- Container.init (Some (-1)%Z) ;;
  c2 <- Container.init (Some (-2)%Z) ;;
  let self := {| key := k; containers := []; master_password := master_password;
                 cloud := None;
                 hidden_containers :=
                   [((-1)%Z, Container.set_name c1 (JStr "Credential"));
                    ((-2)%Z, Container.set_name c2 (JStr "Token"))] |} in
  match path with
  | Some p => load_from_file self p
  | None => ret self
  end.

(** [save_to_file(path)] *)
Definition save_to_file (self : t) (path : string) : M t :=
  '(data, self) <- encrypt self ;;
  write_json path data ;;
  ret self.

(** The two loops of [regenerate_keys]. *)
Fixpoint rekey (d : list (Z * Container.t)) : M (list (Z * Container.t)) :=
  match d with
  | [] => ret []
  | (i, c) :: rest =>
    k <- SymmetricKey.init None None ;;
    rest' <- rekey rest ;;
    ret ((i, Container.set_key c k) :: rest')
  end.

(** [regenerate_keys()] *)
Definition regenerate_keys (self : t) : M t :=
  k <- SymmetricKey.init None None ;;
  cs <- rekey (containers self) ;;
  hs <- rekey (hidden_containers self) ;;
  ret {| key := k; containers := cs; master_password := master_password self;
         cloud := cloud self; hidden_containers := hs |}.

(** [set_master_password(password)] *)
Definition set_master_password (self : t) (pw : string) : M t :=
  regenerate_keys
    {| key := key self; containers := containers self; master_password := pw;
       cloud := match cloud self with
                | Some _ => Some {| password := Some pw |}
                | None => None
                end;
       hidden_containers := hidden_containers self |}.
End Methods.

(** [self.hidden_containers[id].set_data(d)]: the object is updated in
    place; a missing key raises [KeyError(id)]. The vault comes back in both
    cases, as the caller finds it. *)
Definition set_hidden_data (self : t) (id : Z) (d : string) : result unit * t :=
  match dict_get Z.eqb (hidden_containers self) id with
  | Some c =>
    (Ok tt,
     {| key := key self; containers := containers self;
        master_password := master_password self; cloud := cloud self;
        hidden_containers :=
          dict_set Z.eqb (hidden_containers self) id (Container.set_data c d) |})
  | None => (Raise (KeyError (py_str id)), self)
  end.

(** [set_cloud_credentials(creds=None, token=None)]: when the second
    assignment raises, the first one has been made. *)
Definition set_cloud_credentials (self : t) (creds token : option string)
  : result unit * t :=
  let '(r, self) := match creds with
                    | Some c => set_hidden_data self (-1) c
                    | None => (Ok tt, self)
                    end in
  match r with
  | Raise e => (Raise e, self)
  | Ok _ =>
    match token with
    | Some t => set_hidden_data self (-2) t
    | None => (Ok tt, self)
    end
  end.

End Vault.

(** ** Reference primitives

    Small executable stand-ins for the third-party libraries, used to run
    the model on concrete inputs. They satisfy [PrimitivesOk]; they are not
    the real algorithms. On printable ASCII text [ref_dumps] writes what
    [json.dumps] writes. *)

Definition dq : ascii := "034"%char.
Definition bslash : ascii := "092"%char.

Definition hexdigit (n : nat) : ascii :=
  nth n (list_ascii_of_string "0123456789abcdef") zero.

Definition hex_of_byte (b : byte) : string :=
  String (hexdigit (code b / 16)) (String (hexdigit (code b mod 16)) EmptyString).

Fixpoint hex_of_bytes (l : bytes) : string :=
  match l with
  | [] => EmptyString
  | b :: t => (hex_of_byte b ++ hex_of_bytes t)%string
  end.

Definition unhex_digit (c : ascii) : option nat :=
  if in_range 48 57 c then Some (code c - 48)%nat
  else if in_range 97 102 c then Some (code c - 87)%nat
  else None.

Definition unhex_byte (h l : ascii) : option byte :=
  match unhex_digit h, unhex_digit l with
  | Some a, Some b => Some (ascii_of_nat (16 * a + b))
  | _, _ => None
  end.

Fixpoint unhex (s : string) : option bytes :=
  match s with
  | EmptyString => Some []
  | String h (String l t) =>
    match unhex_byte h l, unhex t with
    | Some b, Some r => Some (b :: r)
    | _, _ => None
    end
  | String _ EmptyString => None
  end.

Definition fit (n : nat) (l : bytes) : bytes := firstn n (l ++ repeat zero n).

Definition ref_pbkdf2 (pw salt : bytes) : bytes := fit KEY_SIZE (pw ++ salt).

Definition absorb (st : bytes) (b : byte) : bytes :=
  match st with
  | [] => []
  | h :: t => t ++ [xor_byte h b]
  end.

Definition ref_hmac (k m : bytes) : string :=
  hex_of_bytes (fold_left absorb (k ++ m) (repeat zero 32)).

Definition ref_encrypt_block (k b : bytes) : bytes :=
  rev (xor_bytes b (fit BLOCK_SIZE k)).

Definition ref_decrypt_block (k c : bytes) : bytes :=
  xor_bytes (rev c) (fit BLOCK_SIZE k).

Definition escape_char (c : ascii) : string :=
  if Ascii.eqb c dq then String bslash (String dq EmptyString)
  else if Ascii.eqb c bslash then String bslash (String bslash EmptyString)
  else if Ascii.eqb c "008"%char then String bslash "b"
  else if Ascii.eqb c "012"%char then String bslash "f"
  else if Ascii.eqb c "010"%char then String bslash "n"
  else if Ascii.eqb c "013"%char then String bslash "r"
  else if Ascii.eqb c "009"%char then String bslash "t"
  else if in_range 32 126 c then String c EmptyString
  else String bslash ("u00" ++ hex_of_byte c)%string.

Fixpoint escape (s : string) : string :=
  match s with
  | EmptyString => EmptyString
  | String c t => (escape_char c ++ escape t)%string
  end.

Definition quote (s : string) : string :=
  String dq (escape s ++ String dq EmptyString)%string.

Fixpoint join_with (sep : string) (l : list string) : string :=
  match l with
  | [] => EmptyString
  | [x] => x
  | x :: t => (x ++ sep ++ join_with sep t)%string
  end.

Fixpoint ref_dumps (j : json) : string :=
  match j with
  | JNull => "null"
  | JBool true => "true"
  | JBool false => "false"
  | JNum z => py_str z
  | JStr s => quote s
  | JList l => ("[" ++ join_with ", " (map ref_dumps l) ++ "]")%string
  | JDict d =>
    ("{" ++ join_with ", "
              (map (fun kv => (quote (fst kv) ++ ": " ++ ref_dumps (snd kv))%string) d)
         ++ "}")%string
  end.

(** Reads an escaped string up to its closing quote. *)
Fixpoint read_string (s : string) : option (string * string) :=
  let cons c r := option_map (fun p => (String c (fst p), snd p)) r in
  match s with
  | EmptyString => None
  | String c t =>
    if Ascii.eqb c dq then Some (EmptyString, t)
    else if Ascii.eqb c bslash then
      match t with
      | String e t' =>
        if Ascii.eqb e dq then cons dq (read_string t')
        else if Ascii.eqb e bslash then cons bslash (read_string t')
        else if Ascii.eqb e "b" then cons "008"%char (read_string t')
        else if Ascii.eqb e "f" then cons "012"%char (read_string t')
        else if Ascii.eqb e "n" then cons "010"%char (read_string t')
        else if Ascii.eqb e "r" then cons "013"%char (read_string t')
        else if Ascii.eqb e "t" then cons "009"%char (read_string t')
        else if Ascii.eqb e "u" then
          match t' with
          | String z1 (String z2 (String h (String l t''))) =>
            if Ascii.eqb z1 "0" && Ascii.eqb z2 "0" then
              match unhex_byte h l with
              | Some b => cons b (read_string t'')
              | None => None
              end
            else None
          | _ => None
          end
        else None
      | EmptyString => None
      end
    else cons c (read_string t)
  end.

Fixpoint expect (p s : string) : option string :=
  match p, s with
  | EmptyString, _ => Some s
  | String a p', String b s' => if Ascii.eqb a b then expect p' s' else None
  | String _ _, EmptyString => None
  end.

Definition name_prefix : string := String "{" (String dq ("name" ++ String dq (": " ++ String dq ""))).
Definition data_prefix : string := (", " ++ String dq ("data" ++ String dq (": " ++ String dq "")))%string.

(** Parses the record that [Container.encrypt] writes, and nothing else. *)
Definition ref_loads (s : string) : option json :=
  match expect name_prefix s with
  | Some s1 =>
    match read_string s1 with
    | Some (n, s2) =>
      match expect data_prefix s2 with
      | Some s3 =>
        match read_string s3 with
        | Some (d, "}") =>
          if is_str n && is_str d then Some (record_json (JStr n) d) else None
        | _ => None
        end
      | None => None
      end
    | None => None
    end
  | None => None
  end.

Definition RefPrimitives : Primitives := {|
  pbkdf2_hmac := ref_pbkdf2;
  hmac_hexdigest := ref_hmac;
  aes_encrypt_block := ref_encrypt_block;
  aes_decrypt_block := ref_decrypt_block;
  b64encode := hex_of_bytes;
  b64decode := unhex;
  json_dumps := ref_dumps;
  json_loads := ref_loads;
  py_int := ref_int
|}.

(** A process that has just started, with an arbitrary fixed random source
    and an empty file system. *)
Definition world0 : world := {|
  next_id := 0;
  entropy := fun i => ascii_of_nat ((7 * i + 3) mod 256);
  drawn := 0;
  files := fun _ => None;
  events := []
|}.

(** * Specification-level definitions *)

(** The invariants of the objects, the values that the methods compute
    written in closed form, the predicates of the statements below, and the
    objects of the test suite. *)

Unset Implicit Arguments.

Definition all_digits (s : string) : bool := forallb is_digit (list_ascii_of_string s).

(** The events of [w'] extend those of [w] by [evs] (most recent first);
    nothing else of the log is touched. *)
Definition extends (w w' : world) (evs : list event) : Prop :=
  events w' = evs ++ events w.

(** The cached key, when there is one, was derived from the cached
    password and the salt of the object. *)
Definition cache_ok (P : Primitives) (k : SymmetricKey.t) : Prop :=
  match SymmetricKey.aeskey k, SymmetricKey.prev_password k with
  | Some kk, Some p => kk = pbkdf2_hmac P (encode_utf8 p) (SymmetricKey.salt k)
  | _, _ => True
  end.

(** What [SymmetricKey()] and the checks of [from_data] establish, and
    [generate_aes_key] keeps. *)
Definition key_ok (P : Primitives) (k : SymmetricKey.t) : Prop :=
  List.length (SymmetricKey.salt k) = SALT_SIZE
  /\ List.length (SymmetricKey.iv k) = BLOCK_SIZE
  /\ cache_ok P k.

(** A value that is a [str]. *)
Definition is_text (j : json) : bool :=
  match j with
  | JStr s => is_str s
  | _ => false
  end.

(** What the constructor and the setters, called as annotated, establish:
    the key is well formed, [name] is a [str], and [data] was written by
    [set_data], which encodes a [str]. *)
Definition container_ok (P : Primitives) (c : Container.t) : Prop :=
  key_ok P (Container.key c)
  /\ is_text (Container.name c) = true
  /\ utf8_valid (Container.data c) = true.

(** What holds of every container that the code builds, [from_data]
    included: the key is well formed and [data] is the encoding of a [str].
    The name that [from_data] stores is whatever the record held. *)
Definition container_sound (P : Primitives) (c : Container.t) : Prop :=
  key_ok P (Container.key c) /\ utf8_valid (Container.data c) = true.

(** The key object after [generate_aes_key(pw)]. *)
Definition cached (P : Primitives) (k : SymmetricKey.t) (pw : string) : SymmetricKey.t :=
  {| SymmetricKey.salt := SymmetricKey.salt k;
     SymmetricKey.iv := SymmetricKey.iv k;
     SymmetricKey.aeskey :=
       Some (pbkdf2_hmac P (encode_utf8 pw) (SymmetricKey.salt k));
     SymmetricKey.prev_password := Some pw |}.

(** The pieces of what [Container.encrypt] returns, as functions of the
    container and the password. *)
Definition aes_key_of (P : Primitives) (c : Container.t) (pw : string) : bytes :=
  pbkdf2_hmac P (encode_utf8 pw) (SymmetricKey.salt (Container.key c)).

Definition plaintext_of (P : Primitives) (c : Container.t) : bytes :=
  pad (encode_utf8 (json_dumps P (record_json (Container.name c)
                                    (string_of_list_ascii (Container.data c)))))
      BLOCK_SIZE.

Definition ciphertext_of (P : Primitives) (c : Container.t) (pw : string) : bytes :=
  cbc_encrypt P (aes_key_of P c pw) (List.length (plaintext_of P c) / BLOCK_SIZE)
    (SymmetricKey.iv (Container.key c)) (plaintext_of P c).

Definition mac_of (P : Primitives) (c : Container.t) (pw : string) : string :=
  hmac_hexdigest P (aes_key_of P c pw)
    (encode_utf8 (py_str (Container.id c)) ++ ciphertext_of P c pw).

Definition entry_of (P : Primitives) (c : Container.t) (pw : string) : json :=
  JDict [("ciphertext", JStr (b64encode P (ciphertext_of P c pw)));
         ("mac", JStr (mac_of P c pw));
         ("key", SymmetricKey.get_key_json P (Container.key c))].

(** The key that [SymmetricKey()] builds from the random source [e] read
    from position [d]. *)
Definition fresh_key (e : nat -> byte) (d : nat) : SymmetricKey.t :=
  {| SymmetricKey.salt := map e (seq d SALT_SIZE);
     SymmetricKey.iv := map e (seq (d + SALT_SIZE) BLOCK_SIZE);
     SymmetricKey.aeskey := None;
     SymmetricKey.prev_password := None |}.

(** The errors that [unpad] raises. *)
Definition from_unpad (e : exn) : bool :=
  match e with
  | ValueError m =>
    String.eqb m "Zero-length input cannot be unpadded"
    || String.eqb m "Input data is not padded"
    || String.eqb m "Padding is incorrect."
    || String.eqb m "PKCS#7 padding is incorrect."
  | _ => false
  end.

(** What [from_data] raises at the comparison of a tag that differs from
    the recomputed one: the integrity error for an ASCII [str], the
    exception of [compare_digest] for anything else. *)
Definition mismatch_error (id : string) (mac : json) : exn :=
  match mac with
  | JStr s =>
    if is_ascii s then LoadContainerError (Container.integrity_msg id)
    else TypeError "comparing strings with non-ASCII characters is not supported"
  | _ => TypeError "unsupported operand types(s) or combination of types"
  end.

(** The tag that [from_data] recomputes. *)
Definition recomputed_mac (P : Primitives) (pw id : string) (ct salt : bytes) : string :=
  hmac_hexdigest P (pbkdf2_hmac P (encode_utf8 pw) salt) (encode_utf8 id ++ ct).

(** The key object that [from_data] stores in the container. *)
Definition loaded_key (P : Primitives) (pw : string) (salt iv : bytes) : SymmetricKey.t :=
  {| SymmetricKey.salt := salt; SymmetricKey.iv := iv;
     SymmetricKey.aeskey := Some (pbkdf2_hmac P (encode_utf8 pw) salt);
     SymmetricKey.prev_password := Some pw |}.

(** The state in which [from_data] compares the tags. *)
Definition at_compare (w : world) (n : Z) : world :=
  {| next_id := Z.max (next_id w) (n + 1); entropy := entropy w;
     drawn := (drawn w + SALT_SIZE + BLOCK_SIZE)%nat; files := files w;
     events := EvCompareDigest :: EvHmac :: EvPbkdf2 :: EvRandom BLOCK_SIZE
                 :: EvRandom SALT_SIZE :: EvNewContainer n :: events w |}.

(** What [from_data] does once the tags have compared equal; [fresh] is
    the key that the constructor gave the new container. *)
Definition after_compare (P : Primitives) (pw : string) (n : Z) (ct salt iv : bytes)
           (fresh : SymmetricKey.t) : M Container.t :=
  (cipher <- lift (AES_new (pbkdf2_hmac P (encode_utf8 pw) salt) iv) ;;
   log EvAesDecrypt ;;
   plaintext <- lift (cipher_decrypt P cipher ct) ;;
   log EvUnpad ;;
   plaintext <- lift (unpad plaintext BLOCK_SIZE) ;;
   text <- lift (decode_utf8 plaintext) ;;
   jsonPlaintext <- loads P text ;;
   nm <- lift (getitem jsonPlaintext "name") ;;
   let container :=
     Container.set_name {| Container.id := n; Container.name := JStr "";
                           Container.key := fresh; Container.data := [] |} nm in
   d <- lift (getitem jsonPlaintext "data") ;;
   container <- match d with
                | JStr s => ret (Container.set_data container s)
                | _ => raise (no_attribute d "encode")
                end ;;
   ret (Container.set_key container (loaded_key P pw salt iv)))%monad.

(** The exceptions of the steps that follow the comparison. *)
Definition decode_error (e : exn) : bool :=
  match e with
  | ValueError m => negb (String.eqb m "Invalid data")
  | TypeError _ | KeyError _ | AttributeError _ => true
  | UnicodeDecodeError | JSONDecodeError => true
  | _ => false
  end.

(** The container of the test suite: ("Test Container", "Test Data"). *)
Definition test_container : Container.t :=
  {| Container.id := 0;
     Container.name := JStr "Test Container";
     Container.key := fresh_key (entropy world0) 0;
     Container.data := encode_utf8 "Test Data" |}.

Definition test_salt : bytes := SymmetricKey.salt (Container.key test_container).
Definition test_iv : bytes := SymmetricKey.iv (Container.key test_container).

(** Bit [k] of byte [i] of [l] flipped. *)
Definition flip_bit (k : nat) (b : byte) : byte := xor_byte b (ascii_of_nat (2 ^ k)).

Definition flip_at (i k : nat) (l : bytes) : bytes :=
  firstn i l ++ match skipn i l with
                | [] => []
                | b :: t => flip_bit k b :: t
                end.

(** An exception of the integrity check or of the validation of salt and
    iv: the two classes that the specification expects of a tampered
    container. *)
Definition integrity_or_malformed (e : exn) : bool :=
  match e with
  | LoadContainerError _ => true
  | ValueError m => String.eqb m "Invalid data"
  | _ => false
  end.

(** [l] with every value replaced by its image under [h]. *)
Definition vmap (A B : Type) (h : A -> B) (l : list (string * A)) : list (string * B) :=
  map (fun kv => (fst kv, h (snd kv))) l.
Arguments vmap {A B} h l.

Definition key_le (V : Type) (a b : string * V) : Prop :=
  String.leb (fst a) (fst b) = true.
Arguments key_le {V} a b.

(** A dict of containers: distinct keys, each the id of its container,
    every container well formed. *)
Definition dict_wf (P : Primitives) (d : list (Z * Container.t)) : Prop :=
  NoDup (map fst d)
  /\ Forall (fun kv => Container.id (snd kv) = fst kv /\ container_ok P (snd kv)) d.

(** What [Vault.__init__] establishes and the methods keep: the visible
    containers have ids [>= 0], the reserved ones ids [< 0]. *)
Definition vault_ok (P : Primitives) (v : Vault.t) : Prop :=
  key_ok P (Vault.key v)
  /\ dict_wf P (Vault.containers v) /\ dict_wf P (Vault.hidden_containers v)
  /\ Forall (fun kv => (0 <= fst kv)%Z) (Vault.containers v)
  /\ Forall (fun kv => (fst kv < 0)%Z) (Vault.hidden_containers v).

(** The same of a vault that has been loaded from a file, where the names
    are whatever the records of the file held. *)
Definition dict_sound (P : Primitives) (d : list (Z * Container.t)) : Prop :=
  NoDup (map fst d)
  /\ Forall (fun kv => Container.id (snd kv) = fst kv /\ container_sound P (snd kv)) d.

Definition vault_sound (P : Primitives) (v : Vault.t) : Prop :=
  key_ok P (Vault.key v)
  /\ dict_sound P (Vault.containers v) /\ dict_sound P (Vault.hidden_containers v)
  /\ Forall (fun kv => (0 <= fst kv)%Z) (Vault.containers v)
  /\ Forall (fun kv => (fst kv < 0)%Z) (Vault.hidden_containers v).

(** The items of a dict with their keys written as [str]. *)
Definition str_keys (V : Type) (d : list (Z * V)) : list (string * V) :=
  map (fun kv => (py_str (fst kv), snd kv)) d.
Arguments str_keys {V} d.

Definition concat_strings (l : list string) : string :=
  fold_right String.append EmptyString l.

(** The concatenation of the tags in the order of their keys as strings. *)
Definition joined_tags (tags : list (string * string)) : string :=
  concat_strings (map snd (sorted tags)).

(** The vault tag as the specification words it: HMAC-SHA256 under the
    vault key of the per-container tags, concatenated in the order of the
    container ids sorted as strings. *)
Definition spec_vault_mac (P : Primitives) (vault_key : bytes)
           (tags : list (Z * string)) : string :=
  hmac_hexdigest P vault_key (encode_utf8 (joined_tags (str_keys tags))).

Definition vault_key_of (P : Primitives) (v : Vault.t) : bytes :=
  pbkdf2_hmac P (encode_utf8 (Vault.master_password v)) (SymmetricKey.salt (Vault.key v)).

(** The tag of every container of the vault, by id. *)
Definition container_tags (P : Primitives) (v : Vault.t) : list (Z * string) :=
  map (fun kv => (fst kv, mac_of P (snd kv) (Vault.master_password v)))
      (Vault.all_containers v).

Definition doc_entries (P : Primitives) (v : Vault.t) : list (string * json) :=
  map (fun kv => (py_str (fst kv), entry_of P (snd kv) (Vault.master_password v)))
      (Vault.all_containers v).

(** The document that [Vault.encrypt] returns. *)
Definition doc_of (P : Primitives) (v : Vault.t) : json :=
  JDict [("containers", JDict (doc_entries P v));
         ("key", SymmetricKey.get_key_json P (Vault.key v));
         ("mac", JStr (spec_vault_mac P (vault_key_of P v) (container_tags P v)))].

(** The tags stored in a document, concatenated as [load_from_file] does. *)
Definition stored_tags (its : list (string * json)) : result string :=
  match macs_of (sorted its) with
  | Ok ms => str_join ms
  | Raise e => Raise e
  end.

Definition is_vault_error (e : exn) : bool :=
  match e with
  | LoadVaultError _ => true
  | _ => false
  end.

(** The vault that [load_from_file] builds from the document of [v]. *)
Definition reloaded (P : Primitives) (v : Vault.t) (cloud : option GDrive) : Vault.t :=
  let recache := map (fun kv : Z * Container.t =>
                        (fst kv, Container.set_key (snd kv)
                                   (cached P (Container.key (snd kv))
                                      (Vault.master_password v)))) in
  {| Vault.key := cached P (Vault.key v) (Vault.master_password v);
     Vault.containers := recache (Vault.containers v);
     Vault.master_password := Vault.master_password v;
     Vault.cloud := cloud;
     Vault.hidden_containers := recache (Vault.hidden_containers v) |}.

Definition recache (P : Primitives) (pw : string) (kv : Z * Container.t) : Z * Container.t :=
  (fst kv, Container.set_key (snd kv) (cached P (Container.key (snd kv)) pw)).

(** [l'] is [l] with one element added or removed. *)
Definition one_apart (A : Type) (l l' : list A) : Prop :=
  exists x l1 l2,
    (l = l1 ++ l2 /\ l' = l1 ++ x :: l2) \/ (l' = l1 ++ l2 /\ l = l1 ++ x :: l2).
Arguments one_apart {A} l l'.

(** The document of [v] with the map of its containers replaced. *)
Definition with_entries (P : Primitives) (v : Vault.t) (its : list (string * json)) : json :=
  JDict [("containers", JDict its);
         ("key", SymmetricKey.get_key_json P (Vault.key v));
         ("mac", JStr (spec_vault_mac P (vault_key_of P v) (container_tags P v)))].

(** The HMAC under [key] tells [m] and [m'] apart. *)
Definition no_collision (P : Primitives) (key : bytes) (m m' : string) : Prop :=
  m <> m' ->
  hmac_hexdigest P key (encode_utf8 m) <> hmac_hexdigest P key (encode_utf8 m').

(** Every entry carries a tag of 64 characters. *)
Definition tagged (its : list (string * json)) : Prop :=
  Forall (fun kv => exists m, getitem (snd kv) "mac" = Ok (JStr m)
                              /\ String.length m = 64%nat) its.

(** The tag stored in the entry [c] under key [id] does not verify under
    the password [pw]. *)
Definition tag_fails (P : Primitives) (pw id : string) (c : json) : Prop :=
  exists cj ct mac salt iv,
    getitem c "ciphertext" = Ok cj /\ b64decode_json P cj = Ok ct
    /\ getitem c "mac" = Ok mac
    /\ b64field P c "key" "salt" = Ok salt /\ b64field P c "key" "iv" = Ok iv
    /\ List.length salt = SALT_SIZE /\ List.length iv = BLOCK_SIZE
    /\ mac <> JStr (recomputed_mac P pw id ct salt).

(** The salt or the iv stored in the entry [c] has the wrong length. *)
Definition bad_lengths (P : Primitives) (c : json) : Prop :=
  exists cj ct mac salt iv,
    getitem c "ciphertext" = Ok cj /\ b64decode_json P cj = Ok ct
    /\ getitem c "mac" = Ok mac
    /\ b64field P c "key" "salt" = Ok salt /\ b64field P c "key" "iv" = Ok iv
    /\ (List.length salt <> SALT_SIZE \/ List.length iv <> BLOCK_SIZE).

(** The ids of all containers constructed so far, most recent first. *)
Fixpoint constructed_ids (evs : list event) : list Z :=
  match evs with
  | [] => []
  | EvNewContainer i :: t => i :: constructed_ids t
  | _ :: t => constructed_ids t
  end.

Definition constructed (w : world) : list Z := constructed_ids (events w).

(** Every id constructed so far lies below [Container.next_id]. *)
Definition watermark_ok (w : world) : Prop :=
  Forall (fun i => (i < next_id w)%Z) (constructed w).

(** A session on one vault: calls of [add_container] and
    [remove_container]. *)
Inductive op : Type :=
| Add (name data : string)
| Remove (id : Z).

(** Runs the calls in turn and returns the ids that [add_container]
    returned; a [KeyError] of [remove_container] is caught by the caller and
    the session goes on. *)
Fixpoint session (ops : list op) (v : Vault.t) : M (list Z) :=
  match ops with
  | [] => ret []
  | Add n d :: rest =>
    cv <- Vault.add_container v n d ;;
    ids <- session rest (snd cv) ;;
    ret (Container.get_id (fst cv) :: ids)
  | Remove i :: rest =>
    v' <- try_except (Vault.remove_container v i) (fun _ => ret v) ;;
    session rest v'
  end.

Definition KEY_BYTES : nat := (SALT_SIZE + BLOCK_SIZE)%nat.

(** The dict [l] with every key object replaced by a fresh one, read from
    the random source [e] from position [d] on. *)
Fixpoint rekeyed (e : nat -> byte) (d : nat) (l : list (Z * Container.t))
  : list (Z * Container.t) :=
  match l with
  | [] => []
  | (i, c) :: rest =>
    (i, Container.set_key c (fresh_key e d)) :: rekeyed e (d + KEY_BYTES) rest
  end.

(** The vault after [set_master_password(pw)], the random source [e]
    having been read up to position [d]. *)
Definition rotated (v : Vault.t) (pw : string) (e : nat -> byte) (d : nat) : Vault.t :=
  {| Vault.key := fresh_key e d;
     Vault.containers := rekeyed e (d + KEY_BYTES) (Vault.containers v);
     Vault.master_password := pw;
     Vault.cloud := match Vault.cloud v with
                    | Some _ => Some {| password := Some pw |}
                    | None => None
                    end;
     Vault.hidden_containers :=
       rekeyed e (d + KEY_BYTES + KEY_BYTES * List.length (Vault.containers v))
         (Vault.hidden_containers v) |}.

(** The same ids, names and data, key by key. *)
Definition same_contents (l l' : list (Z * Container.t)) : Prop :=
  Forall2 (fun kv kv' => fst kv = fst kv' /\ Container.eqb (snd kv') (snd kv) = true) l l'.

(** The vault that [Vault.__init__] builds before it loads a file. *)
Definition initial_vault (pw : string) (e : nat -> byte) (d : nat) : Vault.t :=
  {| Vault.key := fresh_key e d;
     Vault.containers := [];
     Vault.master_password := pw;
     Vault.cloud := None;
     Vault.hidden_containers :=
       [((-1)%Z, {| Container.id := -1; Container.name := JStr "Credential";
                    Container.key := fresh_key e (d + SALT_SIZE + BLOCK_SIZE);
                    Container.data := [] |});
        ((-2)%Z, {| Container.id := -2; Container.name := JStr "Token";
                    Container.key :=
                      fresh_key e (d + SALT_SIZE + BLOCK_SIZE + SALT_SIZE + BLOCK_SIZE);
                    Container.data := [] |})] |}.

Definition after_init (w : world) : world :=
  {| next_id := Z.max (Z.max (next_id w) 0) (-1);
     entropy := entropy w;
     drawn := (drawn w + SALT_SIZE + BLOCK_SIZE + SALT_SIZE + BLOCK_SIZE
               + SALT_SIZE + BLOCK_SIZE)%nat;
     files := files w;
     events := EvRandom BLOCK_SIZE :: EvRandom SALT_SIZE :: EvNewContainer (-2)
               :: EvRandom BLOCK_SIZE :: EvRandom SALT_SIZE :: EvNewContainer (-1)
               :: EvRandom BLOCK_SIZE :: EvRandom SALT_SIZE :: events w |}.

(** A vault whose visible ids lie below the watermark, which is not
    negative: what holds of a vault and the process it lives in. *)
Definition vault_in_world (v : Vault.t) (w : world) : Prop :=
  Forall (fun kv => (fst kv < next_id w)%Z) (Vault.containers v)
  /\ (0 <= next_id w)%Z.

(** The container that [test_vault] holds. *)
Definition vault_container : Container.t :=
  {| Container.id := 0; Container.name := JStr "Test Container";
     Container.key := fresh_key (entropy world0) 144;
     Container.data := encode_utf8 "Test Data" |}.

(** The vault of the test suite: one container ("Test Container",
    "Test Data") under the password "master_password". *)
Definition test_vault : Vault.t :=
  {| Vault.key := fresh_key (entropy world0) 0;
     Vault.containers := [(0%Z, vault_container)];
     Vault.master_password := "master_password";
     Vault.cloud := None;
     Vault.hidden_containers :=
       Vault.hidden_containers (initial_vault "master_password" (entropy world0) 0) |}.

(** A vault object as [Vault.__init__] has it when it starts to load. *)
Definition test_self : Vault.t := initial_vault "master_password" (entropy world0) 0.

(** The process in which [path] holds the document [doc]. *)
Definition world_with (path : string) (doc : json) : world :=
  snd (write_json path doc world0).

(** A second container, encrypted under the master password. *)
Definition other_container : Container.t :=
  {| Container.id := 1; Container.name := JStr "Other";
     Container.key := fresh_key (entropy world0) 192;
     Container.data := encode_utf8 "More Data" |}.

(** The entries of the saved document with the entry of container 0
    removed, and with an entry for [other_container] added. *)
Definition entries_removed : list (string * json) :=
  tl (doc_entries RefPrimitives test_vault).

Definition entries_added : list (string * json) :=
  doc_entries RefPrimitives test_vault
  ++ [("1", entry_of RefPrimitives other_container "master_password")].

(** The stored tag of [vault_container] with its first character replaced. *)
Definition bad_tag : string :=
  match mac_of RefPrimitives vault_container "master_password" with
  | String c s => String (if Ascii.eqb c "0" then "1" else "0")%char s
  | EmptyString => "0"
  end.

(** The entry of [vault_container] in the saved document, with the tag
    replaced by [bad_tag]. *)
Definition tampered_entry : json :=
  JDict [("ciphertext",
          JStr (b64encode RefPrimitives
                  (ciphertext_of RefPrimitives vault_container "master_password")));
         ("mac", JStr bad_tag);
         ("key", SymmetricKey.get_key_json RefPrimitives (Container.key vault_container))].

Definition tampered_doc : json :=
  with_entries RefPrimitives test_vault
    (("0", tampered_entry) :: tl (doc_entries RefPrimitives test_vault)).

(** The entry of [vault_container] in the saved document, with bit 0 of
    byte 10 of the stored IV flipped. *)
Definition flipped_entry : json :=
  JDict [("ciphertext",
          JStr (b64encode RefPrimitives
                  (ciphertext_of RefPrimitives vault_container "master_password")));
         ("mac", JStr (mac_of RefPrimitives vault_container "master_password"));
         ("key",
          JDict [("salt", JStr (b64encode RefPrimitives
                                  (SymmetricKey.salt (Container.key vault_container))));
                 ("iv", JStr (b64encode RefPrimitives
                                (flip_at 10 0
                                   (SymmetricKey.iv (Container.key vault_container)))))])].

Definition flipped_doc : json :=
  with_entries RefPrimitives test_vault
    (("0", flipped_entry) :: tl (doc_entries RefPrimitives test_vault)).

(** The calls of a session on a vault. *)
Definition test_session : list op :=
  [Add "a" "x"; Remove 0; Add "b" "y"; Remove 5; Add "" ""].

(** ** Definitions for the further properties *)

(** What a computation that only calls libraries leaves as it was: the id
    counter, the random source and how far it has been read, the files, and
    the containers constructed so far. *)
Definition frame (w w' : world) : Prop :=
  next_id w' = next_id w /\ entropy w' = entropy w /\ drawn w' = drawn w
  /\ files w' = files w /\ constructed w' = constructed w.

Definition logs_only (A : Type) (m : M A) : Prop := forall w, frame w (snd (m w)).
Arguments logs_only {A} m.

(** The container after the assignments of [update_container]. *)
Definition updated (c : Container.t) (name data : option string) : Container.t :=
  let c := match name with Some s => Container.set_name c (JStr s) | None => c end in
  match data with Some s => Container.set_data c s | None => c end.

(** A name or a text that is given is a [str]. *)
Definition opt_str (o : option string) : Prop :=
  match o with Some s => is_str s = true | None => True end.

(** What every method of the model leaves as it was or moves forward only:
    the files and the random source stay, the id counter does not decrease,
    and the random source is not rewound. *)
Definition advances (w w' : world) : Prop :=
  files w' = files w /\ entropy w' = entropy w
  /\ (next_id w <= next_id w')%Z /\ (drawn w <= drawn w')%nat.

Definition reads_only (A : Type) (m : M A) : Prop := forall w, advances w (snd (m w)).
Arguments reads_only {A} m.

(** The dict [l'] holds the containers of [l], each as it was or with the
    key derived from [pw] cached in its key object. *)
Definition recached (P : Primitives) (pw : string) (l l' : list (Z * Container.t)) : Prop :=
  Forall2 (fun kv kv' =>
             fst kv' = fst kv
             /\ (snd kv' = snd kv
                 \/ snd kv' = Container.set_key (snd kv)
                                (cached P (Container.key (snd kv)) pw))) l l'.

(** The vault [v'] is [v] up to the caches of the key objects. *)
Definition same_vault (P : Primitives) (v v' : Vault.t) : Prop :=
  Vault.master_password v' = Vault.master_password v
  /\ Vault.cloud v' = Vault.cloud v
  /\ (Vault.key v' = Vault.key v
      \/ Vault.key v' = cached P (Vault.key v) (Vault.master_password v))
  /\ recached P (Vault.master_password v) (Vault.containers v) (Vault.containers v')
  /\ recached P (Vault.master_password v) (Vault.hidden_containers v)
       (Vault.hidden_containers v').

(** The process in which [test_vault] has been built: a vault constructed
    and one container added. *)
Definition test_world : world :=
  snd (bind (Vault.init RefPrimitives "master_password" None)
            (fun v => Vault.add_container v "Test Container" "Test Data") world0).

(** The saved document of [test_vault] with the vault tag replaced. *)
Definition bad_mac_doc : json :=
  JDict [("containers", JDict (doc_entries RefPrimitives test_vault));
         ("key", SymmetricKey.get_key_json RefPrimitives (Vault.key test_vault));
         ("mac", JStr "invalid")].

(** The vault after [regenerate_keys()], the random source [e] having been
    read up to position [d]. *)
Definition regenerated (v : Vault.t) (e : nat -> byte) (d : nat) : Vault.t :=
  {| Vault.key := fresh_key e d;
     Vault.containers := rekeyed e (d + KEY_BYTES) (Vault.containers v);
     Vault.master_password := Vault.master_password v;
     Vault.cloud := Vault.cloud v;
     Vault.hidden_containers :=
       rekeyed e (d + KEY_BYTES + KEY_BYTES * List.length (Vault.containers v))
         (Vault.hidden_containers v) |}.

(** * Properties *)

#[local] Arguments Nat.modulo : simpl never.
#[local] Arguments Nat.div : simpl never.
#[local] Arguments firstn : simpl never.
#[local] Arguments skipn : simpl never.

(** ** Bytes *)

Lemma bytes_eqb_refl (x : bytes) : bytes_eqb x x = true.
Proof.
  induction x as [|a x IH]; simpl; [reflexivity|].
  now rewrite Ascii.eqb_refl, IH.
Qed.

Lemma bytes_eqb_eq (x y : bytes) : bytes_eqb x y = true <-> x = y.
Proof.
  split; [|intros ->; apply bytes_eqb_refl].
  revert y; induction x as [|a x IH]; intros [|b y]; simpl; try easy.
  rewrite andb_true_iff, Ascii.eqb_eq. intros [-> H]. f_equal. now apply IH.
Qed.

Lemma xor_byte_cancel (a b : byte) : xor_byte (xor_byte a b) b = a.
Proof.
  destruct a, b; simpl.
  now rewrite !xorb_assoc, !xorb_nilpotent, !xorb_false_r.
Qed.

Lemma xor_bytes_length (x y : bytes) :
  List.length (xor_bytes x y) = Nat.min (List.length x) (List.length y).
Proof.
  revert y; induction x as [|a x IH]; intros [|b y]; simpl; auto.
Qed.

Lemma xor_bytes_cancel (x y : bytes) :
  List.length x = List.length y -> xor_bytes (xor_bytes x y) y = x.
Proof.
  revert y; induction x as [|a x IH]; intros [|b y]; simpl; try easy.
  intros [= H]. now rewrite xor_byte_cancel, IH.
Qed.

Lemma firstn_exact (A : Type) (n : nat) (c r : list A) :
  List.length c = n -> firstn n (c ++ r) = c.
Proof.
  intros <-. rewrite firstn_app, Nat.sub_diag, firstn_all. simpl. apply app_nil_r.
Qed.

Lemma skipn_exact (A : Type) (n : nat) (c r : list A) :
  List.length c = n -> skipn n (c ++ r) = r.
Proof.
  intros <-. rewrite skipn_app, Nat.sub_diag, skipn_all. reflexivity.
Qed.

Lemma code_bchr (n : nat) : (n < 256)%nat -> code (bchr n) = n.
Proof. intros H. unfold code, bchr. now apply nat_ascii_embedding. Qed.

(** ** Padding *)

Lemma pad_length_mod (data : bytes) :
  (List.length (pad data BLOCK_SIZE) mod BLOCK_SIZE = 0)%nat.
Proof.
  unfold pad, BLOCK_SIZE. rewrite length_app, repeat_length.
  pose proof (Nat.div_mod_eq (List.length data) 16) as E.
  pose proof (Nat.mod_upper_bound (List.length data) 16 ltac:(lia)) as B.
  replace (List.length data + (16 - List.length data mod 16))%nat
    with ((1 + List.length data / 16) * 16)%nat by lia.
  apply Nat.Div0.mod_mul.
Qed.

Lemma last_app_repeat (A : Type) (x : list A) (a d : A) (n : nat) :
  (0 < n)%nat -> last (x ++ repeat a n) d = a.
Proof.
  intros H. destruct n as [|n]; [lia|].
  replace (repeat a (S n)) with (repeat a n ++ [a]).
  - now rewrite app_assoc, last_last.
  - now rewrite <- repeat_cons.
Qed.

Lemma unpad_pad (data : bytes) : unpad (pad data BLOCK_SIZE) BLOCK_SIZE = Ok data.
Proof.
  pose proof (pad_length_mod data) as Hm.
  unfold unpad. rewrite Hm. unfold pad in *. unfold BLOCK_SIZE in *.
  pose proof (Nat.mod_upper_bound (List.length data) 16 ltac:(lia)) as B.
  set (p := (16 - List.length data mod 16)%nat) in *.
  assert (Hp : (1 <= p <= 16)%nat) by (subst p; lia).
  rewrite length_app, repeat_length in *.
  rewrite last_app_repeat by lia.
  rewrite code_bchr by lia.
  destruct (Nat.eqb_spec (List.length data + p) 0); [lia|]. simpl negb at 1.
  cbv iota.
  destruct (Nat.ltb_spec p 1); [lia|].
  destruct (Nat.ltb_spec (Nat.min 16 (List.length data + p)) p); [lia|].
  cbn [orb negb].
  replace (List.length data + p - p)%nat with (List.length data) by lia.
  rewrite skipn_app, skipn_all, Nat.sub_diag, firstn_app, firstn_all, Nat.sub_diag.
  simpl. rewrite bytes_eqb_refl. simpl. now rewrite app_nil_r.
Qed.

(** ** CBC *)

Section CBCProps.
Variable P : Primitives.
Hypothesis HP : PrimitivesOk P.

Lemma firstn_block_length (n : nat) (data : bytes) :
  List.length data = (S n * BLOCK_SIZE)%nat ->
  List.length (firstn BLOCK_SIZE data) = BLOCK_SIZE
  /\ List.length (skipn BLOCK_SIZE data) = (n * BLOCK_SIZE)%nat.
Proof.
  intros H. rewrite length_firstn, length_skipn. unfold BLOCK_SIZE in *. lia.
Qed.

Lemma cbc_encrypt_length key n prev data :
  List.length data = (n * BLOCK_SIZE)%nat -> List.length prev = BLOCK_SIZE ->
  List.length (cbc_encrypt P key n prev data) = (n * BLOCK_SIZE)%nat.
Proof.
  revert prev data; induction n as [|n IH]; intros prev data Hd Hp; [reflexivity|].
  destruct (firstn_block_length n data Hd) as [Hf Hs].
  assert (Hx : List.length (xor_bytes (firstn BLOCK_SIZE data) prev) = BLOCK_SIZE)
    by (rewrite xor_bytes_length, Hf, Hp; apply Nat.min_id).
  cbn [cbc_encrypt]. rewrite length_app, (aes_block_length HP _ _ Hx).
  rewrite IH; [unfold BLOCK_SIZE; lia|assumption|].
  now apply (aes_block_length HP).
Qed.

Lemma cbc_decrypt_encrypt key n prev data :
  List.length data = (n * BLOCK_SIZE)%nat -> List.length prev = BLOCK_SIZE ->
  cbc_decrypt P key n prev (cbc_encrypt P key n prev data) = data.
Proof.
  revert prev data; induction n as [|n IH]; intros prev data Hd Hp.
  - destruct data; [reflexivity|discriminate].
  - destruct (firstn_block_length n data Hd) as [Hf Hs].
    assert (Hx : List.length (xor_bytes (firstn BLOCK_SIZE data) prev) = BLOCK_SIZE)
      by (rewrite xor_bytes_length, Hf, Hp; apply Nat.min_id).
    pose proof (aes_block_length HP key _ Hx) as Hc.
    cbn [cbc_encrypt cbc_decrypt].
    rewrite (firstn_exact _ _ _ _ Hc), (skipn_exact _ _ _ _ Hc).
    rewrite (aes_block_inverse HP _ _ Hx), xor_bytes_cancel by congruence.
    rewrite IH by auto. apply firstn_skipn.
Qed.

Lemma cipher_roundtrip key iv plaintext :
  List.length iv = BLOCK_SIZE ->
  (List.length plaintext mod BLOCK_SIZE = 0)%nat ->
  exists ciphertext,
    cipher_encrypt P (key, iv) plaintext = Ok ciphertext
    /\ cipher_decrypt P (key, iv) ciphertext = Ok plaintext.
Proof.
  intros Hiv Hm. unfold cipher_encrypt, cipher_decrypt. rewrite Hm. simpl.
  eexists; split; [reflexivity|].
  assert (Hl : List.length plaintext = (List.length plaintext / BLOCK_SIZE * BLOCK_SIZE)%nat).
  { pose proof (Nat.div_mod_eq (List.length plaintext) BLOCK_SIZE). lia. }
  rewrite cbc_encrypt_length by auto.
  rewrite Nat.Div0.mod_mul, Nat.div_mul by (unfold BLOCK_SIZE; lia). simpl.
  now rewrite cbc_decrypt_encrypt.
Qed.
End CBCProps.

(** ** [int(str(z)) = z] *)

Lemma digit_not_space c : is_digit c = true -> is_space c = false.
Proof.
  unfold is_digit, is_space, in_range.
  rewrite !andb_true_iff, !Nat.leb_le. intros [H1 H2].
  apply orb_false_iff; split; apply andb_false_iff; right; apply Nat.leb_gt; lia.
Qed.

Lemma digit_not_sign c :
  is_digit c = true -> Ascii.eqb c "-" = false /\ Ascii.eqb c "+" = false.
Proof.
  unfold is_digit, in_range. rewrite andb_true_iff, !Nat.leb_le. intros [H1 H2].
  split; apply Ascii.eqb_neq; intros ->; cbv in H1; lia.
Qed.

Lemma digit_not_underscore c : is_digit c = true -> Ascii.eqb c "_" = false.
Proof.
  unfold is_digit, in_range. rewrite andb_true_iff, !Nat.leb_le. intros [H1 H2].
  apply Ascii.eqb_neq; intros ->; cbv in H2; lia.
Qed.

Lemma lstrip_digits s : all_digits s = true -> lstrip s = s.
Proof.
  destruct s as [|c t]; [reflexivity|]. unfold all_digits; simpl.
  rewrite andb_true_iff. intros [H _]. now rewrite (digit_not_space _ H).
Qed.

Lemma rstrip_digits s : all_digits s = true -> rstrip s = s.
Proof.
  induction s as [|c t IH]; [reflexivity|]. unfold all_digits in *; simpl.
  rewrite andb_true_iff. intros [H Ht]. rewrite (IH Ht), (digit_not_space _ H).
  now destruct t.
Qed.

Lemma digits_of_digits s b :
  all_digits s = true -> (s <> EmptyString \/ b = true) ->
  digits_of b s = Some s.
Proof.
  revert b; induction s as [|c t IH]; intros b Hs Hb.
  - destruct Hb as [Hb| ->]; [congruence|reflexivity].
  - unfold all_digits in *; simpl in Hs. apply andb_true_iff in Hs as [Hc Ht].
    cbn [digits_of]. rewrite Hc, (IH true Ht) by auto. reflexivity.
Qed.

Lemma string_of_uint_digits d : all_digits (NilEmpty.string_of_uint d) = true.
Proof. induction d; simpl; auto. Qed.

Lemma string_of_uint_nonempty d :
  d <> Decimal.Nil -> NilEmpty.string_of_uint d <> EmptyString.
Proof. destruct d; simpl; congruence. Qed.

Lemma to_uint_nonnil p : Pos.to_uint p <> Decimal.Nil.
Proof.
  intros H. pose proof (DecimalPos.Unsigned.of_to p) as E.
  rewrite H in E. discriminate.
Qed.

Lemma ref_int_unsigned (u : Decimal.uint) :
  u <> Decimal.Nil ->
  ref_int (NilEmpty.string_of_uint u) = Ok (Z.of_uint u).
Proof.
  intros Hu.
  pose proof (string_of_uint_digits u) as Hd.
  pose proof (string_of_uint_nonempty u Hu) as Hne.
  unfold ref_int, strip. rewrite lstrip_digits, rstrip_digits by assumption.
  destruct (NilEmpty.string_of_uint u) as [|c t] eqn:E; [congruence|].
  assert (Hc : is_digit c = true).
  { unfold all_digits in Hd; simpl in Hd. now apply andb_true_iff in Hd. }
  destruct (digit_not_sign _ Hc) as [-> ->].
  rewrite digits_of_digits by (auto; left; congruence).
  rewrite <- E. replace (NilZero.uint_of_string (NilEmpty.string_of_uint u)) with (Some u).
  - reflexivity.
  - symmetry. pose proof (NilZero.usu u Hu) as U. now destruct u.
Qed.

Lemma ref_int_py_str (z : Z) : ref_int (py_str z) = Ok z.
Proof.
  destruct z as [|p|p].
  - reflexivity.
  - unfold py_str. cbn [Z.to_int NilZero.string_of_int].
    pose proof (to_uint_nonnil p) as Hn.
    replace (NilZero.string_of_uint (Pos.to_uint p))
      with (NilEmpty.string_of_uint (Pos.to_uint p)) by (now destruct (Pos.to_uint p)).
    rewrite ref_int_unsigned by assumption. f_equal.
    unfold Z.of_uint. now rewrite DecimalPos.Unsigned.of_to.
  - unfold py_str. cbn [Z.to_int NilZero.string_of_int].
    pose proof (to_uint_nonnil p) as Hn.
    replace (NilZero.string_of_uint (Pos.to_uint p))
      with (NilEmpty.string_of_uint (Pos.to_uint p)) by (now destruct (Pos.to_uint p)).
    pose proof (string_of_uint_digits (Pos.to_uint p)) as Hd.
    pose proof (string_of_uint_nonempty _ Hn) as Hne.
    unfold ref_int, strip.
    assert (Hl : lstrip (String "-" (NilEmpty.string_of_uint (Pos.to_uint p)))
                 = String "-" (NilEmpty.string_of_uint (Pos.to_uint p))) by reflexivity.
    rewrite Hl. cbn [rstrip]. rewrite rstrip_digits by assumption.
    destruct (NilEmpty.string_of_uint (Pos.to_uint p)) as [|c t] eqn:E; [congruence|].
    rewrite Ascii.eqb_refl.
    rewrite digits_of_digits by (auto; left; congruence).
    rewrite <- E.
    replace (NilZero.uint_of_string (NilEmpty.string_of_uint (Pos.to_uint p)))
      with (Some (Pos.to_uint p)).
    + f_equal. unfold Z.of_uint. now rewrite DecimalPos.Unsigned.of_to.
    + symmetry. pose proof (NilZero.usu _ Hn) as U. now destruct (Pos.to_uint p).
Qed.

(** [str(z)] is injective, so distinct ids give distinct document keys. *)
Lemma py_str_inj (a b : Z) : py_str a = py_str b -> a = b.
Proof.
  intros H. pose proof (ref_int_py_str a) as Ha. rewrite H, ref_int_py_str in Ha.
  congruence.
Qed.

(** ** UTF-8 *)

Lemma ascii_utf8_valid (s : string) :
  is_ascii s = true -> utf8_valid (encode_utf8 s) = true.
Proof.
  unfold is_ascii, encode_utf8. induction (list_ascii_of_string s) as [|b l IH];
    [reflexivity|].
  simpl. rewrite andb_true_iff. intros [Hb Hl]. rewrite Hb. auto.
Qed.

Lemma decode_encode_ascii (s : string) :
  is_ascii s = true -> decode_utf8 (encode_utf8 s) = Ok s.
Proof.
  intros H. unfold decode_utf8. rewrite (ascii_utf8_valid _ H).
  unfold encode_utf8. now rewrite string_of_list_ascii_of_string.
Qed.

Lemma is_str_decoded (b : bytes) :
  utf8_valid b = true -> is_str (string_of_list_ascii b) = true.
Proof.
  intros H. unfold is_str, encode_utf8. now rewrite list_ascii_of_string_of_list_ascii.
Qed.

Lemma encode_decode (b : bytes) (s : string) :
  decode_utf8 b = Ok s -> encode_utf8 s = b.
Proof.
  unfold decode_utf8. destruct (utf8_valid b); [|discriminate].
  intros [= <-]. apply list_ascii_of_string_of_list_ascii.
Qed.

(** ** The reference primitives satisfy the contracts *)

Lemma fit_length n l : List.length (fit n l) = n.
Proof.
  unfold fit. rewrite length_firstn, length_app, repeat_length. lia.
Qed.

Lemma absorb_length st b : List.length (absorb st b) = List.length st.
Proof. destruct st; simpl; [reflexivity|]. rewrite length_app. simpl. lia. Qed.

Lemma fold_absorb_length l st :
  List.length (fold_left absorb l st) = List.length st.
Proof.
  revert st; induction l as [|b l IH]; intros st; simpl; [reflexivity|].
  now rewrite IH, absorb_length.
Qed.

Lemma hex_of_bytes_length l :
  String.length (hex_of_bytes l) = (2 * List.length l)%nat.
Proof. induction l as [|b l IH]; simpl; [reflexivity|]. rewrite IH. lia. Qed.

Lemma hex_of_byte_ascii b : is_ascii (hex_of_byte b) = true.
Proof. destruct b as [[] [] [] [] [] [] [] []]; reflexivity. Qed.

Lemma hex_of_bytes_ascii l : is_ascii (hex_of_bytes l) = true.
Proof.
  induction l as [|b l IH]; [reflexivity|].
  pose proof (hex_of_byte_ascii b) as H.
  unfold is_ascii in *. cbn [hex_of_bytes]. unfold hex_of_byte in *.
  cbn [append list_ascii_of_string forallb] in *.
  rewrite !andb_true_iff in *. tauto.
Qed.

Lemma unhex_hex_byte b :
  unhex_byte (hexdigit (code b / 16)) (hexdigit (code b mod 16)) = Some b.
Proof. destruct b as [[] [] [] [] [] [] [] []]; reflexivity. Qed.

Lemma unhex_hex l : unhex (hex_of_bytes l) = Some l.
Proof.
  induction l as [|b l IH]; [reflexivity|].
  cbn [hex_of_bytes]. unfold hex_of_byte. cbn [append unhex].
  now rewrite unhex_hex_byte, IH.
Qed.

Lemma ref_block_inverse k b :
  List.length b = BLOCK_SIZE -> ref_decrypt_block k (ref_encrypt_block k b) = b.
Proof.
  intros H. unfold ref_decrypt_block, ref_encrypt_block.
  rewrite rev_involutive. apply xor_bytes_cancel. now rewrite fit_length.
Qed.

Lemma ref_block_length k b :
  List.length b = BLOCK_SIZE -> List.length (ref_encrypt_block k b) = BLOCK_SIZE.
Proof.
  intros H. unfold ref_encrypt_block.
  rewrite length_rev, xor_bytes_length, fit_length, H. apply Nat.min_id.
Qed.

Lemma append_nil_r_string (a : string) : (a ++ "")%string = a.
Proof. induction a as [|x a IH]; simpl; [reflexivity|]. now rewrite IH. Qed.

Lemma append_assoc (a b c : string) : ((a ++ b) ++ c = a ++ (b ++ c))%string.
Proof. induction a as [|x a IH]; simpl; [reflexivity|]. now rewrite IH. Qed.

Lemma read_string_escape_char (c : ascii) (t : string) :
  read_string (escape_char c ++ t)%string
  = option_map (fun p => (String c (fst p), snd p)) (read_string t).
Proof. destruct c as [[] [] [] [] [] [] [] []]; reflexivity. Qed.

Lemma read_string_escape (s rest : string) :
  read_string (escape s ++ String dq rest)%string = Some (s, rest).
Proof.
  induction s as [|c s IH]; [reflexivity|].
  cbn [escape]. now rewrite append_assoc, read_string_escape_char, IH.
Qed.

Lemma escape_char_ascii c : is_ascii (escape_char c) = true.
Proof. destruct c as [[] [] [] [] [] [] [] []]; reflexivity. Qed.

Lemma is_ascii_app (a b : string) :
  is_ascii (a ++ b) = is_ascii a && is_ascii b.
Proof.
  unfold is_ascii. induction a as [|x a IH]; simpl; [reflexivity|].
  now rewrite IH, andb_assoc.
Qed.

Lemma escape_ascii s : is_ascii (escape s) = true.
Proof.
  induction s as [|c s IH]; [reflexivity|].
  cbn [escape]. now rewrite is_ascii_app, escape_char_ascii, IH.
Qed.

Lemma quote_ascii s : is_ascii (quote s) = true.
Proof.
  unfold quote. change (String dq (escape s ++ String dq "")%string)
    with (String dq "" ++ (escape s ++ String dq ""))%string.
  now rewrite !is_ascii_app, escape_ascii.
Qed.

Lemma ref_loads_dumps (n d : string) :
  is_str n = true -> is_str d = true ->
  ref_loads (ref_dumps (record_json (JStr n) d)) = Some (record_json (JStr n) d).
Proof.
  intros Hn Hd. unfold ref_loads.
  replace (ref_dumps (record_json (JStr n) d))
    with (name_prefix ++ (escape n ++ String dq
            (data_prefix ++ (escape d ++ String dq "}"))))%string.
  - cbn -[read_string escape]. rewrite read_string_escape.
    cbn -[read_string escape]. rewrite read_string_escape. now rewrite Hn, Hd.
  - cbn [ref_dumps record_json map join_with fst snd]. unfold quote.
    change (escape "name") with "name". change (escape "data") with "data".
    unfold name_prefix, data_prefix.
    repeat (rewrite ?append_assoc; cbn [append]). reflexivity.
Qed.

Lemma ref_dumps_ascii (n d : string) :
  is_ascii (ref_dumps (record_json (JStr n) d)) = true.
Proof.
  cbn [ref_dumps record_json map join_with fst snd].
  rewrite !is_ascii_app, !quote_ascii. reflexivity.
Qed.

Lemma ref_loads_str (s : string) (j : json) (k v : string) :
  ref_loads s = Some j -> getitem j k = Ok (JStr v) -> is_str v = true.
Proof.
  unfold ref_loads.
  destruct (expect name_prefix s) as [s1|]; [|discriminate].
  destruct (read_string s1) as [[n s2]|]; [|discriminate].
  destruct (expect data_prefix s2) as [s3|]; [|discriminate].
  destruct (read_string s3) as [[d s4]|]; [|discriminate].
  destruct s4 as [|c [|c' s4]]; [discriminate| |].
  2: { destruct c as [[] [] [] [] [] [] [] []]; discriminate. }
  destruct (Ascii.eqb_spec c "}"); [subst c|].
  2: { destruct c as [[] [] [] [] [] [] [] []]; try discriminate; congruence. }
  destruct (is_str n) eqn:Hn; [|discriminate].
  destruct (is_str d) eqn:Hd; [|discriminate].
  intros [= <-]. unfold getitem, record_json. cbn [dict_get].
  destruct (String.eqb "name" k); [now intros [= <-]|].
  destruct (String.eqb "data" k); [now intros [= <-]|discriminate].
Qed.

Lemma ref_int_raise (s : string) (e : exn) :
  ref_int s = Raise e -> exists m, e = ValueError (invalid_literal ++ m).
Proof.
  intros H. exists ("'" ++ s ++ "'")%string. revert H.
  unfold ref_int. destruct (strip s) as [|c t]; [now intros [= <-]|].
  destruct (if Ascii.eqb c "-" then (true, t)
            else if Ascii.eqb c "+" then (false, t) else (false, String c t))
    as [neg body].
  destruct (digits_of false body) as [ds|]; [|now intros [= <-]].
  destruct (NilZero.uint_of_string ds); [discriminate|now intros [= <-]].
Qed.

Lemma RefPrimitives_ok : PrimitivesOk RefPrimitives.
Proof.
  constructor; cbn [pbkdf2_hmac hmac_hexdigest aes_encrypt_block aes_decrypt_block
                    b64encode b64decode json_dumps json_loads py_int RefPrimitives].
  - intros. apply fit_length.
  - intros. apply hex_of_bytes_ascii.
  - intros. unfold ref_hmac.
    now rewrite hex_of_bytes_length, fold_absorb_length, repeat_length.
  - apply ref_block_length.
  - apply ref_block_inverse.
  - apply unhex_hex.
  - apply ref_dumps_ascii.
  - apply ref_loads_dumps.
  - apply ref_loads_str.
  - apply ref_int_py_str.
  - apply ref_int_raise.
Qed.

(** ** Running the monad *)

Lemma bind_ok (A B : Type) (m : M A) (k : A -> M B) w a w' :
  m w = (Ok a, w') -> bind m k w = k a w'.
Proof. intros H. unfold bind. now rewrite H. Qed.

Lemma bind_raise (A B : Type) (m : M A) (k : A -> M B) w e w' :
  m w = (Raise e, w') -> bind m k w = (Raise e, w').
Proof. intros H. unfold bind. now rewrite H. Qed.

Lemma bind_lift_ok (A B : Type) (a : A) (k : A -> M B) w :
  bind (lift (Ok a)) k w = k a w.
Proof. reflexivity. Qed.

Lemma bind_lift_raise (A B : Type) (e : exn) (k : A -> M B) w :
  bind (lift (Raise e)) k w = (Raise e, w).
Proof. reflexivity. Qed.

Lemma bind_ret (A B : Type) (a : A) (k : A -> M B) w : bind (ret a) k w = k a w.
Proof. reflexivity. Qed.

Lemma bind_raise_now (A B : Type) (e : exn) (k : A -> M B) w :
  bind (raise e) k w = (Raise e, w).
Proof. reflexivity. Qed.

Lemma bind_log (B : Type) (ev : event) (k : unit -> M B) w :
  bind (log ev) k w = k tt (snd (log ev w)).
Proof. reflexivity. Qed.

Lemma bind_bind (A B C : Type) (m : M A) (k : A -> M B) (h : B -> M C) w :
  bind (bind m k) h w = bind m (fun a => bind (k a) h) w.
Proof. unfold bind. destruct (m w) as [[a|e] w']; reflexivity. Qed.

(** One step of a computation whose head is a pure or logging action. *)
Ltac mstep :=
  first [ rewrite bind_lift_ok | rewrite bind_lift_raise | rewrite bind_ret
        | rewrite bind_raise_now | rewrite bind_log ].

Lemma bind_inv_ok (A B : Type) (m : M A) (k : A -> M B) w b w'' :
  bind m k w = (Ok b, w'') ->
  exists a w', m w = (Ok a, w') /\ k a w' = (Ok b, w'').
Proof.
  unfold bind. destruct (m w) as [[a|e] w']; [eauto|discriminate].
Qed.

Lemma lift_inv_ok (A : Type) (r : result A) w a w' :
  lift r w = (Ok a, w') -> r = Ok a /\ w' = w.
Proof. unfold lift. intros [= -> ->]. auto. Qed.

Lemma extends_refl w : extends w w [].
Proof. reflexivity. Qed.

Lemma extends_trans w1 w2 w3 e1 e2 :
  extends w1 w2 e1 -> extends w2 w3 e2 -> extends w1 w3 (e2 ++ e1).
Proof. unfold extends. intros H1 H2. now rewrite H2, H1, app_assoc. Qed.

(** ** Invariants of the objects *)

Lemma SymmetricKey_init_fresh w :
  SymmetricKey.init None None w
  = (Ok (fresh_key (entropy w) (drawn w)),
     {| next_id := next_id w; entropy := entropy w;
        drawn := (drawn w + SALT_SIZE + BLOCK_SIZE)%nat; files := files w;
        events := EvRandom BLOCK_SIZE :: EvRandom SALT_SIZE :: events w |}).
Proof. reflexivity. Qed.

Lemma SymmetricKey_init_given salt iv w :
  salt <> [] -> iv <> [] ->
  SymmetricKey.init (Some salt) (Some iv) w
  = (Ok {| SymmetricKey.salt := salt; SymmetricKey.iv := iv;
           SymmetricKey.aeskey := None; SymmetricKey.prev_password := None |}, w).
Proof. destruct salt, iv; try congruence. reflexivity. Qed.

Lemma fresh_key_ok P e d : key_ok P (fresh_key e d).
Proof.
  unfold key_ok, fresh_key, cache_ok.
  cbn [SymmetricKey.salt SymmetricKey.iv SymmetricKey.aeskey].
  now rewrite !length_map, !length_seq.
Qed.

(** [Container(id)]: the object and the state it leaves. *)
Lemma Container_init_run (o : option Z) w :
  let i := match o with Some i => i | None => next_id w end in
  Container.init o w
  = (Ok {| Container.id := i; Container.name := JStr "";
           Container.key := fresh_key (entropy w) (drawn w); Container.data := [] |},
     {| next_id := Z.max (next_id w) (i + 1); entropy := entropy w;
        drawn := (drawn w + SALT_SIZE + BLOCK_SIZE)%nat; files := files w;
        events := EvRandom BLOCK_SIZE :: EvRandom SALT_SIZE
                    :: EvNewContainer i :: events w |}).
Proof. reflexivity. Qed.

Section ContainerProps.
Variable P : Primitives.
Hypothesis HP : PrimitivesOk P.

Lemma generate_aes_key_run k pw w :
  cache_ok P k ->
  exists w',
    SymmetricKey.generate_aes_key P k pw w
    = (Ok (pbkdf2_hmac P (encode_utf8 pw) (SymmetricKey.salt k), cached P k pw), w')
    /\ next_id w' = next_id w /\ files w' = files w
    /\ exists evs, extends w w' evs /\ ~ In EvAesDecrypt evs /\ ~ In EvUnpad evs.
Proof.
  unfold cache_ok, SymmetricKey.generate_aes_key, cached.
  destruct k as [s i [kk|] [p|]]; cbn [SymmetricKey.aeskey SymmetricKey.prev_password
                                        SymmetricKey.salt SymmetricKey.iv]; intros H.
  1: destruct (String.eqb_spec p pw) as [->|Hne].
  1: { subst kk. exists w. repeat split; auto.
       exists []. split; [apply extends_refl|]. simpl; tauto. }
  all: eexists; (split; [reflexivity|]); cbn; repeat split; auto;
    exists [EvPbkdf2]; (split; [reflexivity|]); simpl;
    split; intros [?|[]]; discriminate.
Qed.

Lemma cached_ok k pw :
  List.length (SymmetricKey.salt k) = SALT_SIZE ->
  List.length (SymmetricKey.iv k) = BLOCK_SIZE ->
  key_ok P (cached P k pw).
Proof. intros Hs Hi. repeat split; auto. Qed.

Lemma AES_new_ok k pw iv :
  List.length iv = BLOCK_SIZE ->
  AES_new (pbkdf2_hmac P pw k) iv = Ok (pbkdf2_hmac P pw k, iv).
Proof.
  intros Hi. unfold AES_new. rewrite (pbkdf2_length HP), Hi. reflexivity.
Qed.

Lemma plaintext_aligned c : (List.length (plaintext_of P c) mod BLOCK_SIZE = 0)%nat.
Proof. apply pad_length_mod. Qed.

(** [Container.encrypt] on a well-formed container returns [entry_of]. *)
Lemma encrypt_run c pw w :
  container_ok P c ->
  exists w',
    Container.encrypt P c pw w
    = (Ok (entry_of P c pw, Container.set_key c (cached P (Container.key c) pw)), w')
    /\ next_id w' = next_id w /\ files w' = files w.
Proof.
  intros ((Hs & Hi & Hc) & Hnm & Hu).
  destruct (generate_aes_key_run (Container.key c) pw w Hc)
    as (w1 & Hg & Hn1 & Hf1 & _).
  destruct (cipher_roundtrip P HP (aes_key_of P c pw) _ (plaintext_of P c) Hi
              (plaintext_aligned c)) as (ct & He & _).
  unfold Container.encrypt, decode_utf8. rewrite Hu.
  mstep. rewrite (bind_ok _ _ _ _ _ _ _ Hg). cbn [cached SymmetricKey.iv].
  rewrite (AES_new_ok _ _ _ Hi). mstep. mstep.
  fold (plaintext_of P c). fold (aes_key_of P c pw). rewrite He. mstep.
  unfold hmac_new. rewrite bind_bind. mstep. mstep.
  unfold cipher_encrypt in He. rewrite plaintext_aligned in He.
  cbn [negb Nat.eqb fst snd] in He. injection He as <-.
  eexists. split; [reflexivity|]. cbn. auto.
Qed.
End ContainerProps.

Lemma getitem_raise (j : json) (k : string) (e : exn) :
  getitem j k = Raise e -> exists m, e = KeyError m \/ e = TypeError m.
Proof.
  destruct j; simpl; try (intros [= <-]; eauto).
  destruct (dict_get String.eqb d k); [discriminate|intros [= <-]; eauto].
Qed.

(** The name of a well-formed container is a [str]. *)
Lemma is_text_str (j : json) : is_text j = true -> exists s, j = JStr s /\ is_str s = true.
Proof. destruct j; try discriminate. eauto. Qed.

Lemma py_eq_text (j : json) : is_text j = true -> py_eq j j = true.
Proof. intros H. destruct (is_text_str j H) as (s & -> & _). apply String.eqb_refl. Qed.

(** [c' == c] for containers with the same id, name and data, the name a
    [str]. *)
Lemma eqb_same (c c' : Container.t) :
  Container.id c' = Container.id c -> Container.name c' = Container.name c ->
  Container.data c' = Container.data c -> is_text (Container.name c) = true ->
  Container.eqb c' c = true.
Proof.
  intros Hi Hn Hd Ht. unfold Container.eqb. rewrite Hi, Hn, Hd.
  now rewrite Z.eqb_refl, (py_eq_text _ Ht), bytes_eqb_refl.
Qed.

Section FromData.
Variable P : Primitives.
Hypothesis HP : PrimitivesOk P.

Lemma nonempty_of_length (A : Type) (l : list A) n :
  List.length l = S n -> l <> [].
Proof. destruct l; simpl; congruence. Qed.

(** [from_data] up to the comparison of the tags. *)
Lemma from_data_to_compare pw id n ct mac salt iv w :
  List.length salt = SALT_SIZE -> List.length iv = BLOCK_SIZE ->
  py_int P id = Ok n ->
  Container.from_data P pw id ct mac salt iv w
  = match mac with
    | JStr s =>
      if is_ascii s then
        if String.eqb (recomputed_mac P pw id ct salt) s then
          after_compare P pw n ct salt iv (fresh_key (entropy w) (drawn w))
            (at_compare w n)
        else (Raise (LoadContainerError (Container.integrity_msg id)), at_compare w n)
      else (Raise (TypeError "comparing strings with non-ASCII characters is not supported"),
            at_compare w n)
    | _ => (Raise (TypeError "unsupported operand types(s) or combination of types"),
            at_compare w n)
    end.
Proof.
  intros Hs Hi Hn. unfold Container.from_data. rewrite Hs, Hi, Hn.
  cbn [Nat.eqb SALT_SIZE BLOCK_SIZE negb orb].
  mstep. rewrite (bind_ok _ _ _ _ _ _ _ (Container_init_run (Some n) w)).
  erewrite bind_ok by (apply SymmetricKey_init_given;
                        eapply nonempty_of_length; eassumption).
  unfold SymmetricKey.generate_aes_key at 1.
  cbn [SymmetricKey.aeskey SymmetricKey.prev_password SymmetricKey.salt SymmetricKey.iv].
  rewrite !bind_bind. mstep. mstep.
  unfold hmac_new at 1. rewrite !bind_bind. mstep. mstep.
  unfold compare_digest at 1. rewrite !bind_bind. mstep.
  fold (recomputed_mac P pw id ct salt). fold (loaded_key P pw salt iv).
  assert (Ha : is_ascii (recomputed_mac P pw id ct salt) = true)
    by apply (hexdigest_ascii HP).
  rewrite Ha. cbn [andb].
  destruct mac as [| | |s| |]; try reflexivity.
  destruct (is_ascii s); [|reflexivity].
  mstep. destruct (String.eqb (recomputed_mac P pw id ct salt) s); reflexivity.
Qed.

Lemma after_compare_raises pw n ct salt iv fresh w e w' :
  after_compare P pw n ct salt iv fresh w = (Raise e, w') -> decode_error e = true.
Proof.
  unfold after_compare, AES_new, cipher_decrypt, unpad, decode_utf8, loads.
  repeat match goal with
         | |- context [if ?b then _ else _] => destruct b; try mstep
         | |- (Raise _, _) = (Raise _, _) -> _ => intros [= <- _]; reflexivity
         | |- (Ok _, _) = (Raise _, _) -> _ => discriminate
         | |- _ => mstep
         | |- _ => rewrite bind_bind
         | |- context [json_loads P ?x] => destruct (json_loads P x)
         end.
  all: repeat match goal with
         | |- context [getitem ?j ?k] =>
           let E := fresh "E" in
           destruct (getitem j k) as [[]|] eqn:E; try mstep;
           try (apply getitem_raise in E as (? & [-> | ->]))
         | |- (Raise _, _) = (Raise _, _) -> _ => intros [= <- _]; reflexivity
         | |- _ = (Raise _, _) -> _ => discriminate
         | |- _ => mstep
         end.
Qed.
End FromData.

Section RoundTrip.
Variable P : Primitives.
Hypothesis HP : PrimitivesOk P.

Lemma recomputed_mac_ascii pw id ct salt :
  is_ascii (recomputed_mac P pw id ct salt) = true.
Proof. apply (hexdigest_ascii HP). Qed.

Lemma getitem_name n d : getitem (record_json n d) "name" = Ok n.
Proof. reflexivity. Qed.

Lemma getitem_data n d : getitem (record_json n d) "data" = Ok (JStr d).
Proof. reflexivity. Qed.

(** [from_data] after a successful comparison, when the ciphertext
    decrypts to the padded encoding of a record. *)
Lemma from_data_decrypts pw id n ct salt iv nm text w :
  List.length salt = SALT_SIZE -> List.length iv = BLOCK_SIZE ->
  py_int P id = Ok n -> is_str nm = true -> is_str text = true ->
  cipher_decrypt P (pbkdf2_hmac P (encode_utf8 pw) salt, iv) ct
  = Ok (pad (encode_utf8 (json_dumps P (record_json (JStr nm) text))) BLOCK_SIZE) ->
  exists w',
    Container.from_data P pw id ct (JStr (recomputed_mac P pw id ct salt)) salt iv w
    = (Ok {| Container.id := n; Container.name := JStr nm;
             Container.key := loaded_key P pw salt iv;
             Container.data := encode_utf8 text |}, w')
    /\ files w' = files w.
Proof.
  intros Hs Hi Hn Hnm Htx Hd.
  rewrite (from_data_to_compare P HP pw id n ct _ salt iv w Hs Hi Hn).
  rewrite recomputed_mac_ascii, String.eqb_refl. unfold after_compare.
  rewrite (AES_new_ok P HP _ _ _ Hi). mstep. mstep. rewrite Hd. mstep. mstep.
  rewrite unpad_pad. mstep.
  rewrite (decode_encode_ascii _ (json_ascii HP nm text)). mstep.
  unfold loads. rewrite bind_bind. mstep. rewrite (json_inverse HP) by assumption.
  mstep.
  rewrite getitem_name. mstep. rewrite getitem_data. mstep. mstep.
  eexists. split; reflexivity.
Qed.

Lemma ciphertext_decrypts c pw :
  container_ok P c ->
  cipher_decrypt P (aes_key_of P c pw, SymmetricKey.iv (Container.key c))
    (ciphertext_of P c pw) = Ok (plaintext_of P c).
Proof.
  intros ((Hs & Hi & Hc) & Hnm & Hu).
  destruct (cipher_roundtrip P HP (aes_key_of P c pw) _ (plaintext_of P c) Hi
              (plaintext_aligned P c)) as (ct & He & Hd).
  unfold cipher_encrypt in He. rewrite plaintext_aligned in He.
  cbn [negb Nat.eqb fst snd] in He. injection He as <-. exact Hd.
Qed.

(** Decrypting what [encrypt] wrote gives the container back. *)
Lemma from_data_of_encrypt c pw w :
  container_ok P c ->
  exists w',
    Container.from_data P pw (py_str (Container.id c)) (ciphertext_of P c pw)
      (JStr (mac_of P c pw)) (SymmetricKey.salt (Container.key c))
      (SymmetricKey.iv (Container.key c)) w
    = (Ok (Container.set_key c (cached P (Container.key c) pw)), w')
    /\ files w' = files w.
Proof.
  intros Hc. pose proof Hc as ((Hs & Hi & _) & Hnm & Hu).
  pose proof (ciphertext_decrypts c pw Hc) as Hd.
  destruct (is_text_str _ Hnm) as (nm & Enm & Hnm').
  unfold plaintext_of in Hd. rewrite Enm in Hd.
  destruct (from_data_decrypts pw (py_str (Container.id c)) (Container.id c)
              (ciphertext_of P c pw) _ _ nm
              (string_of_list_ascii (Container.data c)) w Hs Hi
              (int_of_str HP _) Hnm' (is_str_decoded _ Hu) Hd) as (w' & Hr & Hf).
  exists w'. split; [|exact Hf].
  replace (encode_utf8 (string_of_list_ascii (Container.data c)))
    with (Container.data c) in Hr
    by (symmetry; apply list_ascii_of_string_of_list_ascii).
  destruct c as [i nm0 k d]. cbn in Enm. subst nm0. exact Hr.
Qed.
End RoundTrip.

(** What is read from an entry that [Container.encrypt] wrote. *)
Lemma entry_fields (P : Primitives) (c : Container.t) (pw : string) :
  PrimitivesOk P ->
  getitem (entry_of P c pw) "ciphertext" = Ok (JStr (b64encode P (ciphertext_of P c pw)))
  /\ b64decode_json P (JStr (b64encode P (ciphertext_of P c pw))) = Ok (ciphertext_of P c pw)
  /\ getitem (entry_of P c pw) "mac" = Ok (JStr (mac_of P c pw))
  /\ b64field P (entry_of P c pw) "key" "salt" = Ok (SymmetricKey.salt (Container.key c))
  /\ b64field P (entry_of P c pw) "key" "iv" = Ok (SymmetricKey.iv (Container.key c)).
Proof.
  intros HP. unfold entry_of, b64field, SymmetricKey.get_key_json.
  cbn [getitem dict_get String.eqb Ascii.eqb Bool.eqb b64decode_json].
  rewrite !(b64_inverse HP). repeat split; reflexivity.
Qed.


(** ** The tag is checked before anything is decrypted *)

Lemma py_int_raise (P : Primitives) (s : string) (e : exn) :
  PrimitivesOk P -> py_int P s = Raise e ->
  exists m, e = ValueError (invalid_literal ++ m).
Proof. intros HP H. exact (@int_error P HP s e H). Qed.

(** The [ValueError] of [int] is none of the errors of [unpad], of the
    vault, or of the validation of salt and iv. *)
Lemma int_error_class (m : string) :
  from_unpad (ValueError (invalid_literal ++ m)) = false
  /\ is_vault_error (ValueError (invalid_literal ++ m)) = false
  /\ integrity_or_malformed (ValueError (invalid_literal ++ m)) = false.
Proof. repeat split. Qed.

Lemma integrity_msg_names_id (id : string) :
  exists pre post, Container.integrity_msg id = (pre ++ id ++ post)%string.
Proof. unfold Container.integrity_msg. eauto. Qed.

(** A tag that differs from the recomputed one makes [from_data] raise at
    the comparison, or before it when [int(id)] fails. *)
Lemma from_data_mismatch_run (P : Primitives) (pw id : string)
        (ct : bytes) (mac : json) (salt iv : bytes) (w : world) :
  PrimitivesOk P ->
  List.length salt = SALT_SIZE -> List.length iv = BLOCK_SIZE ->
  mac <> JStr (recomputed_mac P pw id ct salt) ->
  Container.from_data P pw id ct mac salt iv w
  = match py_int P id with
    | Ok n => (Raise (mismatch_error id mac), at_compare w n)
    | Raise e => (Raise e, w)
    end.
Proof.
  intros HP Hs Hi Hm.
  destruct (py_int P id) as [n|e] eqn:Hn.
  - rewrite (from_data_to_compare P HP pw id n ct mac salt iv w Hs Hi Hn).
    unfold mismatch_error. destruct mac as [| | |s| |]; try reflexivity.
    destruct (is_ascii s); [|reflexivity].
    destruct (String.eqb_spec (recomputed_mac P pw id ct salt) s) as [E|E];
      [congruence|reflexivity].
  - unfold Container.from_data. rewrite Hs, Hi, Hn.
    cbn [Nat.eqb SALT_SIZE BLOCK_SIZE negb orb]. now mstep.
Qed.

Lemma mismatch_error_class (id : string) (mac : json) :
  from_unpad (mismatch_error id mac) = false.
Proof. unfold mismatch_error. destruct mac as [| | |s| |]; try reflexivity.
  destruct (is_ascii s); reflexivity. Qed.

Lemma at_compare_events (w : world) (n : Z) :
  exists evs, extends w (at_compare w n) evs
              /\ ~ In EvAesDecrypt evs /\ ~ In EvUnpad evs.
Proof.
  exists [EvCompareDigest; EvHmac; EvPbkdf2; EvRandom BLOCK_SIZE;
          EvRandom SALT_SIZE; EvNewContainer n].
  split; [reflexivity|]. split; simpl; intuition discriminate.
Qed.

Lemma from_data_mismatch (P : Primitives) (pw id : string)
        (ct : bytes) (mac : json) (salt iv : bytes) (w : world) :
  PrimitivesOk P ->
  List.length salt = SALT_SIZE -> List.length iv = BLOCK_SIZE ->
  mac <> JStr (recomputed_mac P pw id ct salt) ->
  exists e w' evs,
    Container.from_data P pw id ct mac salt iv w = (Raise e, w')
    /\ extends w w' evs /\ ~ In EvAesDecrypt evs /\ ~ In EvUnpad evs
    /\ from_unpad e = false
    /\ (forall n s, py_int P id = Ok n -> mac = JStr s -> is_ascii s = true ->
        e = LoadContainerError (Container.integrity_msg id))
    /\ (forall e0, py_int P id = Raise e0 ->
        e = e0 /\ w' = w /\ exists m, e = ValueError (invalid_literal ++ m))
    /\ (forall n, py_int P id = Ok n ->
        (forall s, mac = JStr s -> is_ascii s = false) -> exists m, e = TypeError m).
Proof.
  intros HP Hs Hi Hm.
  rewrite (from_data_mismatch_run P pw id ct mac salt iv w HP Hs Hi Hm).
  destruct (py_int P id) as [n|e] eqn:Hn.
  - destruct (at_compare_events w n) as (evs & He & H1 & H2).
    exists (mismatch_error id mac), (at_compare w n), evs.
    split; [reflexivity|]. split; [exact He|]. split; [exact H1|]. split; [exact H2|].
    split; [apply mismatch_error_class|]. split; [|split].
    + intros n0 s _ -> Ha. unfold mismatch_error. now rewrite Ha.
    + intros e0 [=].
    + intros n0 _ Hna. unfold mismatch_error. destruct mac as [| | |s| |]; eauto.
      rewrite (Hna s eq_refl). eauto.
  - destruct (py_int_raise P id e HP Hn) as (m & ->).
    exists (ValueError (invalid_literal ++ m)), w, [].
    split; [reflexivity|]. split; [reflexivity|]. split; [simpl; tauto|].
    split; [simpl; tauto|]. split; [reflexivity|]. split; [|split].
    + intros n s [=].
    + intros e0 [= <-]. eauto.
    + intros n [=].
Qed.

(** The tag that [encrypt] writes is the one that [from_data] recomputes
    under the same password. *)
Lemma mac_of_recomputed (P : Primitives) (c : Container.t) (pw : string) :
  mac_of P c pw
  = recomputed_mac P pw (py_str (Container.id c)) (ciphertext_of P c pw)
      (SymmetricKey.salt (Container.key c)).
Proof. reflexivity. Qed.

(** C2 (amended). For every call of [from_data] with salt and iv of valid
    lengths whose [mac] differs from the recomputed tag: the call raises; by
    then neither AES decryption nor unpadding has run; the exception is none
    of those that [unpad] raises. When [int(id)] succeeds and [mac] is an
    ASCII [str], the exception is [LoadContainerError] with the message that
    names [id]; when [int(id)] fails, it is the [ValueError] of [int] and
    nothing has happened; when [int(id)] succeeds and [mac] is not an ASCII
    [str], it is a [TypeError]. In particular, on the ciphertext, mac, salt
    and iv read from the entry that [encrypt] wrote for a container under
    another password, a password under which the recomputed tag differs
    from the one under the password of [encrypt] raises [LoadContainerError]
    naming the id, before any decryption. *)
Theorem from_data_mismatch_no_decrypt (P : Primitives) (pw : string) :
  PrimitivesOk P ->
  (forall id ct mac salt iv w,
     List.length salt = SALT_SIZE -> List.length iv = BLOCK_SIZE ->
     mac <> JStr (recomputed_mac P pw id ct salt) ->
     exists e w' evs,
       Container.from_data P pw id ct mac salt iv w = (Raise e, w')
       /\ extends w w' evs /\ ~ In EvAesDecrypt evs /\ ~ In EvUnpad evs
       /\ from_unpad e = false
       /\ (forall n s, py_int P id = Ok n -> mac = JStr s -> is_ascii s = true ->
           e = LoadContainerError (Container.integrity_msg id)
           /\ exists pre post, Container.integrity_msg id = (pre ++ id ++ post)%string)
       /\ (forall e0, py_int P id = Raise e0 ->
           e = e0 /\ w' = w /\ exists m, e = ValueError (invalid_literal ++ m))
       /\ (forall n, py_int P id = Ok n ->
           (forall s, mac = JStr s -> is_ascii s = false) -> exists m, e = TypeError m))
  /\ (forall c good w0 w1,
        container_ok P c ->
        exists entry c1 w0' cj ct mac salt iv,
          Container.encrypt P c good w0 = (Ok (entry, c1), w0')
          /\ getitem entry "ciphertext" = Ok cj /\ b64decode_json P cj = Ok ct
          /\ getitem entry "mac" = Ok mac
          /\ b64field P entry "key" "salt" = Ok salt
          /\ b64field P entry "key" "iv" = Ok iv
          /\ (recomputed_mac P pw (py_str (Container.id c)) ct salt
              <> recomputed_mac P good (py_str (Container.id c)) ct salt ->
              exists w1' evs,
                Container.from_data P pw (py_str (Container.id c)) ct mac salt iv w1
                = (Raise (LoadContainerError
                            (Container.integrity_msg (py_str (Container.id c)))), w1')
                /\ extends w1 w1' evs
                /\ ~ In EvAesDecrypt evs /\ ~ In EvUnpad evs)).
Proof.
  intros HP. split.
  - intros id ct mac salt iv w Hs Hi Hm.
    destruct (from_data_mismatch P pw id ct mac salt iv w HP Hs Hi Hm)
      as (e & w' & evs & H1 & H2 & H3 & H4 & H5 & H6 & H7 & H8).
    exists e, w', evs. repeat (split; [assumption|]). split; [|split; assumption].
    intros n s Hn Hmac Ha. split; [eauto|apply integrity_msg_names_id].
  - intros c good w0 w1 Hc. pose proof Hc as ((Hs & Hi & _) & _ & _).
    destruct (encrypt_run P HP c good w0 Hc) as (w0' & He & _).
    destruct (entry_fields P c good HP) as (F1 & F2 & F3 & F4 & F5).
    do 8 eexists. split; [exact He|]. split; [exact F1|]. split; [exact F2|].
    split; [exact F3|]. split; [exact F4|]. split; [exact F5|].
    intros Hne. rewrite <- mac_of_recomputed in Hne.
    assert (Hm : JStr (mac_of P c good)
                 <> JStr (recomputed_mac P pw (py_str (Container.id c))
                            (ciphertext_of P c good)
                            (SymmetricKey.salt (Container.key c))))
      by congruence.
    rewrite (from_data_mismatch_run P pw _ _ _ _ _ w1 HP Hs Hi Hm).
    rewrite (int_of_str HP).
    destruct (at_compare_events w1 (Container.id c)) as (evs & Hev & H1 & H2).
    exists (at_compare w1 (Container.id c)), evs.
    split; [|auto]. unfold mismatch_error, mac_of.
    now rewrite (hexdigest_ascii HP).
Qed.

Lemma test_container_ok : container_ok RefPrimitives test_container.
Proof. split; [apply fresh_key_ok|split; reflexivity]. Qed.



(** C2 as stated fails: with an [id] that is not an integer literal the call
    raises the [ValueError] of [int(id)], and with a [mac] that is not ASCII
    the [TypeError] of [compare_digest], although the tag does not match. *)
Lemma from_data_mismatch_other_errors :
  JStr "00" <> JStr (recomputed_mac RefPrimitives "pw" "abc" [] test_salt)
  /\ fst (Container.from_data RefPrimitives "pw" "abc" [] (JStr "00")
            test_salt test_iv world0)
     = Raise (ValueError "invalid literal for int() with base 10: 'abc'")
  /\ JStr (String "195" (String "169" ""))
     <> JStr (recomputed_mac RefPrimitives "pw" "5" [] test_salt)
  /\ fst (Container.from_data RefPrimitives "pw" "5" []
            (JStr (String "195" (String "169" ""))) test_salt test_iv world0)
     = Raise (TypeError "comparing strings with non-ASCII characters is not supported").
Proof.
  split; [discriminate|]. split; [vm_compute; reflexivity|].
  split; [discriminate|vm_compute; reflexivity].
Qed.

(** C2 on the container of the test suite, encrypted under "password" and
    read with "invalid". *)
Lemma from_data_mismatch_no_decrypt_witness :
  (exists e w' evs,
     Container.from_data RefPrimitives "invalid" "0"
       (ciphertext_of RefPrimitives test_container "password")
       (JStr (mac_of RefPrimitives test_container "password"))
       test_salt test_iv world0 = (Raise e, w')
     /\ extends world0 w' evs /\ ~ In EvAesDecrypt evs /\ ~ In EvUnpad evs
     /\ from_unpad e = false
     /\ e = LoadContainerError (Container.integrity_msg "0"))
  /\ exists entry c1 w0' cj ct mac salt iv w1' evs,
       Container.encrypt RefPrimitives test_container "password" world0
       = (Ok (entry, c1), w0')
       /\ getitem entry "ciphertext" = Ok cj /\ b64decode_json RefPrimitives cj = Ok ct
       /\ getitem entry "mac" = Ok mac
       /\ b64field RefPrimitives entry "key" "salt" = Ok salt
       /\ b64field RefPrimitives entry "key" "iv" = Ok iv
       /\ Container.from_data RefPrimitives "invalid" "0" ct mac salt iv world0
          = (Raise (LoadContainerError (Container.integrity_msg "0")), w1')
       /\ extends world0 w1' evs /\ ~ In EvAesDecrypt evs /\ ~ In EvUnpad evs.
Proof.
  destruct (from_data_mismatch_no_decrypt RefPrimitives "invalid" RefPrimitives_ok)
    as [H1 H2].
  split.
  - destruct (H1 "0" (ciphertext_of RefPrimitives test_container "password")
                (JStr (mac_of RefPrimitives test_container "password"))
                test_salt test_iv world0 eq_refl eq_refl)
      as (e & w' & evs & E1 & E2 & E3 & E4 & E5 & E6 & _).
    + vm_compute. discriminate.
    + exists e, w', evs. repeat (split; [assumption|]).
      apply (E6 0%Z _ eq_refl eq_refl). vm_compute. reflexivity.
  - destruct (H2 test_container "password" world0 world0 test_container_ok)
      as (entry & c1 & w0' & cj & ct & mac & salt & iv & E1 & E2 & E3 & E4 & E5 & E6 & E7).
    pose proof (entry_fields RefPrimitives test_container "password" RefPrimitives_ok)
      as (F1 & F2 & F3 & F4 & F5).
    destruct (encrypt_run RefPrimitives RefPrimitives_ok test_container "password"
                world0 test_container_ok) as (w0'' & He & _).
    rewrite He in E1. injection E1 as X1 X2 X3. subst entry c1 w0'.
    assert (X : Ok (JStr (b64encode RefPrimitives
                            (ciphertext_of RefPrimitives test_container "password")))
                = Ok cj) by exact (eq_trans (eq_sym F1) E2).
    injection X as X. subst cj.
    assert (X : Ok (ciphertext_of RefPrimitives test_container "password") = Ok ct)
      by exact (eq_trans (eq_sym F2) E3).
    injection X as X. subst ct.
    assert (X : Ok (JStr (mac_of RefPrimitives test_container "password")) = Ok mac)
      by exact (eq_trans (eq_sym F3) E4).
    injection X as X. subst mac.
    assert (X : Ok test_salt = Ok salt) by exact (eq_trans (eq_sym F4) E5).
    injection X as X. subst salt.
    assert (X : Ok test_iv = Ok iv) by exact (eq_trans (eq_sym F5) E6).
    injection X as X. subst iv.
    destruct E7 as (w1' & evs & G1 & G2 & G3 & G4); [vm_compute; discriminate|].
    do 10 eexists. split; [exact He|]. split; [exact F1|]. split; [exact F2|].
    split; [exact F3|]. split; [exact F4|]. split; [exact F5|].
    split; [exact G1|]. split; [exact G2|]. split; assumption.
Defined.

(** ** The IV is outside the tag *)

Lemma unpad_raise (x : bytes) (n : nat) (e : exn) :
  unpad x n = Raise e -> from_unpad e = true.
Proof.
  unfold unpad.
  repeat match goal with
         | |- context [if ?b then _ else _] => destruct b
         end; intros [= <-]; reflexivity.
Qed.

Lemma from_unpad_not_integrity e :
  from_unpad e = true -> integrity_or_malformed e = false.
Proof.
  destruct e; simpl; try discriminate.
  rewrite !orb_true_iff, !String.eqb_eq. intros [[[-> | ->] | ->] | ->]; reflexivity.
Qed.

Section IVProps.
Variable P : Primitives.
Hypothesis HP : PrimitivesOk P.

Lemma ciphertext_length c pw :
  container_ok P c ->
  List.length (ciphertext_of P c pw) = List.length (plaintext_of P c).
Proof.
  intros ((Hs & Hi & Hc) & Hnm & Hu). unfold ciphertext_of.
  pose proof (plaintext_aligned P c) as Ha.
  pose proof (Nat.div_mod_eq (List.length (plaintext_of P c)) BLOCK_SIZE) as E.
  rewrite cbc_encrypt_length; auto; lia.
Qed.

(** Whatever IV of the right length comes with the ciphertext and tag
    that [encrypt] wrote, [from_data] accepts the tag and decrypts: the
    outcome is a container or an error of the decoding steps, never the
    integrity error and never the malformed-input error. *)
Lemma from_data_any_iv c pw iv' w :
  container_ok P c -> List.length iv' = BLOCK_SIZE ->
  exists r w',
    Container.from_data P pw (py_str (Container.id c)) (ciphertext_of P c pw)
      (JStr (mac_of P c pw)) (SymmetricKey.salt (Container.key c)) iv' w = (r, w')
    /\ In EvAesDecrypt (events w')
    /\ forall e, r = Raise e -> integrity_or_malformed e = false.
Proof.
  intros Hc Hi'. pose proof Hc as ((Hs & Hi & _) & Hnm & Hu).
  rewrite (from_data_to_compare P HP pw _ _ _ _ _ iv' w Hs Hi' (int_of_str HP _)).
  change (mac_of P c pw)
    with (recomputed_mac P pw (py_str (Container.id c)) (ciphertext_of P c pw)
            (SymmetricKey.salt (Container.key c))).
  rewrite (recomputed_mac_ascii P HP), String.eqb_refl. unfold after_compare.
  rewrite (AES_new_ok P HP _ _ _ Hi'). mstep. mstep.
  unfold cipher_decrypt.
  rewrite (ciphertext_length c pw Hc), plaintext_aligned.
  cbn [negb Nat.eqb fst snd]. mstep. mstep.
  set (w1 := snd (log EvUnpad _)).
  assert (Hev : In EvAesDecrypt (events w1)) by (simpl; auto).
  clearbody w1.
  match goal with |- context [unpad ?x BLOCK_SIZE] => destruct (unpad x BLOCK_SIZE) as [pt|e] eqn:Hup end.
  2: { mstep. do 2 eexists. split; [reflexivity|]. split; [exact Hev|].
       intros e' [= <-]. apply from_unpad_not_integrity.
       eapply unpad_raise; eassumption. }
  mstep. unfold decode_utf8. destruct (utf8_valid pt).
  2: { mstep. do 2 eexists. split; [reflexivity|]. split; [exact Hev|].
       now intros e' [= <-]. }
  mstep. unfold loads. rewrite bind_bind. mstep.
  set (w2 := snd (log EvJsonLoads w1)).
  assert (Hev2 : In EvAesDecrypt (events w2)) by (simpl; auto).
  clearbody w2.
  destruct (json_loads P (string_of_list_ascii pt)) as [j|].
  2: { mstep. do 2 eexists. split; [reflexivity|]. split; [exact Hev2|].
       now intros e' [= <-]. }
  mstep.
  destruct (getitem j "name") as [nm|e] eqn:Hgn.
  2: { mstep. do 2 eexists. split; [reflexivity|]. split; [exact Hev2|].
       intros e' [= <-]. destruct (getitem_raise _ _ _ Hgn) as (m & [-> | ->]);
         reflexivity. }
  mstep.
  destruct (getitem j "data") as [d|e] eqn:Hd.
  2: { mstep. do 2 eexists. split; [reflexivity|]. split; [exact Hev2|].
       intros e' [= <-]. destruct (getitem_raise _ _ _ Hd) as (m & [-> | ->]);
         reflexivity. }
  mstep.
  destruct d; mstep; do 2 eexists; (split; [reflexivity|]);
    (split; [exact Hev2|]); now intros e' [= <-].
Qed.

(** What is decrypted under another IV: the first block of the plaintext
    with the difference of the two IVs added to it. *)
Lemma cbc_decrypt_other_iv key n iv iv' data :
  List.length data = (S n * BLOCK_SIZE)%nat ->
  List.length iv = BLOCK_SIZE -> List.length iv' = BLOCK_SIZE ->
  cbc_decrypt P key (S n) iv' (cbc_encrypt P key (S n) iv data)
  = xor_bytes (xor_bytes (firstn BLOCK_SIZE data) iv) iv' ++ skipn BLOCK_SIZE data.
Proof.
  intros Hd Hi Hi'.
  destruct (firstn_block_length n data Hd) as [Hf Hs].
  assert (Hx : List.length (xor_bytes (firstn BLOCK_SIZE data) iv) = BLOCK_SIZE)
    by (rewrite xor_bytes_length, Hf, Hi; apply Nat.min_id).
  pose proof (aes_block_length HP key _ Hx) as Hc.
  cbn [cbc_encrypt cbc_decrypt].
  rewrite (firstn_exact _ _ _ _ Hc), (skipn_exact _ _ _ _ Hc).
  rewrite (aes_block_inverse HP _ _ Hx).
  now rewrite (cbc_decrypt_encrypt P HP) by auto.
Qed.
End IVProps.

(** C3, the failing input. The container of the test suite is encrypted;
    bit 0 of byte 10 of its IV is flipped; [from_data] accepts the stored
    tag and returns a container named "Uest Container". The same flip in the
    saved document of the vault of the test suite is accepted by
    [load_from_file], which returns the vault with the container renamed. *)
Lemma iv_bit_flip_wrong_decode :
  (exists c' w',
      Container.from_data RefPrimitives "password" "0"
        (ciphertext_of RefPrimitives test_container "password")
        (JStr (mac_of RefPrimitives test_container "password"))
        test_salt (flip_at 10 0 test_iv) world0 = (Ok c', w')
      /\ Container.name c' = JStr "Uest Container"
      /\ Container.data c' = Container.data test_container
      /\ Container.eqb c' test_container = false)
  /\ (exists v' w',
         Vault.load_from_file RefPrimitives test_self "vault.json"
           (world_with "vault.json" flipped_doc) = (Ok v', w')
         /\ map (fun kv => (fst kv, Container.name (snd kv), Container.data (snd kv)))
                (Vault.containers v')
            = [(0%Z, JStr "Uest Container", encode_utf8 "Test Data")]).
Proof.
  split.
  - do 2 eexists. split; [vm_compute; reflexivity|]. repeat split.
  - do 2 eexists. split; [vm_compute; reflexivity|]. vm_compute. reflexivity.
Qed.

(** ** Dictionaries and [sorted] *)

Section DictProps.
Variables (K V : Type) (keq : K -> K -> bool).
Hypothesis keq_spec : forall a b, keq a b = true <-> a = b.

Lemma dict_get_none (d : list (K * V)) k :
  ~ In k (map fst d) -> dict_get keq d k = None.
Proof.
  induction d as [|[k' v] d IH]; simpl; intros H; [reflexivity|].
  destruct (keq k' k) eqn:E; [apply keq_spec in E; tauto|]. apply IH. tauto.
Qed.

Lemma dict_get_in (d : list (K * V)) k v :
  dict_get keq d k = Some v -> In (k, v) d.
Proof.
  induction d as [|[k' v'] d IH]; simpl; [discriminate|].
  destruct (keq k' k) eqn:E.
  - apply keq_spec in E as ->. intros [= ->]. auto.
  - auto.
Qed.

Lemma dict_set_fresh (d : list (K * V)) k v :
  ~ In k (map fst d) -> dict_set keq d k v = d ++ [(k, v)].
Proof.
  induction d as [|[k' v'] d IH]; simpl; intros H; [reflexivity|].
  destruct (keq k' k) eqn:E; [apply keq_spec in E; tauto|].
  rewrite IH by tauto. reflexivity.
Qed.

Lemma fold_dict_set_fresh (l acc : list (K * V)) :
  NoDup (map fst l) ->
  (forall k, In k (map fst l) -> ~ In k (map fst acc)) ->
  fold_left (fun d kv => dict_set keq d (fst kv) (snd kv)) l acc = acc ++ l.
Proof.
  revert acc; induction l as [|[k v] l IH]; intros acc Hn Hd; simpl.
  - now rewrite app_nil_r.
  - inversion Hn as [|? ? Hk Hl]; subst.
    rewrite dict_set_fresh by (apply Hd; simpl; auto).
    rewrite IH; auto.
    + now rewrite <- app_assoc.
    + intros k' Hk'. rewrite map_app, in_app_iff. simpl.
      intros [H|[H|[]]]; [apply (Hd k'); simpl; auto|congruence].
Qed.

Lemma dict_of_items_nodup (l : list (K * V)) :
  NoDup (map fst l) -> dict_of_items keq l = l.
Proof. intros H. unfold dict_of_items. now rewrite fold_dict_set_fresh. Qed.

Lemma dict_union_disjoint (d1 d2 : list (K * V)) :
  NoDup (map fst d2) ->
  (forall k, In k (map fst d2) -> ~ In k (map fst d1)) ->
  dict_union keq d1 d2 = d1 ++ d2.
Proof. intros. unfold dict_union. now apply fold_dict_set_fresh. Qed.

Lemma dict_set_present (d : list (K * V)) k v :
  In k (map fst d) -> map fst (dict_set keq d k v) = map fst d.
Proof.
  induction d as [|[k' v'] d IH]; simpl; [tauto|].
  destruct (keq k' k) eqn:E; simpl; [reflexivity|].
  intros [H|H]; [apply keq_spec in H; congruence|]. now rewrite IH.
Qed.
End DictProps.

Lemma insert_sorted_vmap (A B : Type) (h : A -> B) kv l :
  insert_sorted (fst kv, h (snd kv)) (vmap h l) = vmap h (insert_sorted kv l).
Proof.
  induction l as [|kv' l IH]; simpl; [reflexivity|].
  destruct (String.leb (fst kv) (fst kv')); simpl; [reflexivity|]. now rewrite IH.
Qed.

(** Sorting looks at the keys only. *)
Lemma sorted_vmap (A B : Type) (h : A -> B) l : sorted (vmap h l) = vmap h (sorted l).
Proof.
  induction l as [|kv l IH]; simpl; [reflexivity|].
  unfold sorted in *. simpl. rewrite IH. apply insert_sorted_vmap.
Qed.

Lemma insert_sorted_perm (V : Type) (kv : string * V) l :
  Permutation (insert_sorted kv l) (kv :: l).
Proof.
  induction l as [|kv' l IH]; simpl; [reflexivity|].
  destruct (String.leb (fst kv) (fst kv')); [reflexivity|].
  rewrite IH. apply perm_swap.
Qed.

(** [sorted] returns the same items ... *)
Lemma sorted_perm (V : Type) (l : list (string * V)) : Permutation (sorted l) l.
Proof.
  induction l as [|kv l IH]; simpl; [reflexivity|].
  unfold sorted in *; simpl. rewrite insert_sorted_perm. now constructor.
Qed.

Lemma insert_sorted_sorted (V : Type) (kv : string * V) l :
  Sorted (@key_le V) l -> Sorted (@key_le V) (insert_sorted kv l).
Proof.
  induction l as [|kv' l IH]; simpl; intros H.
  - repeat constructor.
  - destruct (String.leb (fst kv) (fst kv')) eqn:E.
    + constructor; [assumption|]. constructor. exact E.
    + inversion H as [|? ? Hs Hh]; subst. constructor; [auto|].
      assert (Hle : key_le kv' kv).
      { unfold key_le. destruct (String.leb_total (fst kv) (fst kv')); congruence. }
      destruct l as [|kv'' l]; simpl; [now constructor|].
      destruct (String.leb (fst kv) (fst kv'')); constructor; auto.
      now inversion Hh.
Qed.

(** ... in ascending order of their keys as strings. *)
Lemma sorted_sorted (V : Type) (l : list (string * V)) : Sorted (@key_le V) (sorted l).
Proof.
  induction l as [|kv l IH]; simpl; [constructor|].
  unfold sorted in *; simpl. now apply insert_sorted_sorted.
Qed.

(** ** Invariant and document of a vault *)

Lemma macs_of_vmap (A : Type) (E : A -> json) (M : A -> string) (l : list (string * A)) :
  (forall x, getitem (E x) "mac" = Ok (JStr (M x))) ->
  macs_of (vmap E l) = Ok (map (fun kv => JStr (M (snd kv))) l).
Proof.
  intros H. unfold vmap.
  induction l as [|[k x] l IH]; cbn [map macs_of fst snd]; [reflexivity|].
  now rewrite H, IH.
Qed.

Lemma str_join_strs (A : Type) (M : A -> string) (l : list (string * A)) :
  str_join (map (fun kv => JStr (M (snd kv))) l)
  = Ok (concat_strings (map snd (vmap M l))).
Proof.
  unfold vmap.
  induction l as [|[k x] l IH]; cbn [map str_join fst snd concat_strings fold_right];
    [reflexivity|].
  now rewrite IH.
Qed.

Lemma stored_tags_vmap (A : Type) (E : A -> json) (M : A -> string) (l : list (string * A)) :
  (forall x, getitem (E x) "mac" = Ok (JStr (M x))) ->
  stored_tags (vmap E l) = Ok (joined_tags (vmap M l)).
Proof.
  intros H. unfold stored_tags, joined_tags.
  rewrite !sorted_vmap, (macs_of_vmap _ E M _ H). apply str_join_strs.
Qed.

Lemma getitem_entry_mac P c pw : getitem (entry_of P c pw) "mac" = Ok (JStr (mac_of P c pw)).
Proof. reflexivity. Qed.

Lemma doc_entries_vmap P v :
  doc_entries P v
  = vmap (fun c => entry_of P c (Vault.master_password v)) (str_keys (Vault.all_containers v)).
Proof. unfold doc_entries, vmap, str_keys. rewrite map_map. reflexivity. Qed.

Lemma container_tags_vmap P v :
  str_keys (container_tags P v)
  = vmap (fun c => mac_of P c (Vault.master_password v)) (str_keys (Vault.all_containers v)).
Proof. unfold container_tags, vmap, str_keys. rewrite !map_map. reflexivity. Qed.

(** The tags stored in the document of a vault are the tags of its
    containers. *)
Lemma stored_tags_doc P v :
  stored_tags (doc_entries P v) = Ok (joined_tags (str_keys (container_tags P v))).
Proof.
  rewrite doc_entries_vmap, container_tags_vmap.
  apply stored_tags_vmap. intros c. apply getitem_entry_mac.
Qed.

Lemma str_keys_nodup (V : Type) (d : list (Z * V)) :
  NoDup (map fst d) -> NoDup (map fst (str_keys d)).
Proof.
  unfold str_keys. rewrite map_map. cbn [fst].
  rewrite <- (map_map fst py_str). apply Finite.Injective_map_NoDup.
  intros a b. apply py_str_inj.
Qed.

Lemma Zeqb_spec' (a b : Z) : Z.eqb a b = true <-> a = b.
Proof. apply Z.eqb_eq. Qed.

Lemma all_containers_app P v :
  vault_ok P v ->
  Vault.all_containers v = Vault.containers v ++ Vault.hidden_containers v.
Proof.
  intros (_ & _ & [Hn _] & Hp & Hm). unfold Vault.all_containers.
  apply (dict_union_disjoint _ _ Z.eqb Zeqb_spec'); [assumption|].
  intros k Hk Hk'. rewrite in_map_iff in Hk, Hk'.
  destruct Hk as ([k1 c1] & <- & H1), Hk' as ([k2 c2] & E & H2).
  rewrite Forall_forall in Hp, Hm. specialize (Hp _ H2). specialize (Hm _ H1).
  simpl in *. lia.
Qed.

Lemma all_containers_wf P v : vault_ok P v -> dict_wf P (Vault.all_containers v).
Proof.
  intros Hv. rewrite (all_containers_app P v Hv).
  destruct Hv as (_ & [Hn1 Hf1] & [Hn2 Hf2] & Hp & Hm). split.
  - rewrite map_app. apply NoDup_app; auto.
    intros k Hk Hk'. rewrite in_map_iff in Hk, Hk'.
    destruct Hk as ([k1 c1] & <- & H1), Hk' as ([k2 c2] & E & H2).
    rewrite Forall_forall in Hp, Hm. specialize (Hp _ H1). specialize (Hm _ H2).
    simpl in *. lia.
  - apply Forall_app; auto.
Qed.

Lemma try_except_inv_ok (A : Type) (m : M A) (h : exn -> M A) w a w' :
  try_except m h w = (Ok a, w') ->
  (forall e w1 a' w2, h e w1 <> (Ok a', w2)) ->
  m w = (Ok a, w').
Proof.
  unfold try_except. destruct (m w) as [[x|e] w1]; [auto|].
  intros H Hh. now apply Hh in H.
Qed.

Lemma try_except_ok (A : Type) (m : M A) (h : exn -> M A) w a w' :
  m w = (Ok a, w') -> try_except m h w = (Ok a, w').
Proof. unfold try_except. now intros ->. Qed.

Lemma mapM_run (A B : Type) (f : A -> M B) (g : A -> B) (l : list A) :
  (forall a, In a l -> forall w, exists w', f a w = (Ok (g a), w') /\ files w' = files w) ->
  forall w, exists w', mapM f l w = (Ok (map g l), w') /\ files w' = files w.
Proof.
  induction l as [|a l IH]; intros H w.
  - exists w. split; reflexivity.
  - destruct (H a (or_introl eq_refl) w) as (w1 & Ha & Hf1).
    destruct (IH (fun x Hx => H x (or_intror Hx)) w1) as (w2 & Hl & Hf2).
    exists w2. cbn [mapM map].
    rewrite (bind_ok _ _ _ _ _ _ _ Ha), (bind_ok _ _ _ _ _ _ _ Hl).
    split; [reflexivity|congruence].
Qed.

Section VaultProps.
Variable P : Primitives.
Hypothesis HP : PrimitivesOk P.

Lemma store_master_password v i c :
  Vault.master_password (Vault.store v i c) = Vault.master_password v.
Proof. unfold Vault.store. now destruct (dict_get _ _ _). Qed.

Lemma store_key v i c : Vault.key (Vault.store v i c) = Vault.key v.
Proof. unfold Vault.store. now destruct (dict_get _ _ _). Qed.

Lemma encrypt_each_run its :
  Forall (fun kv => container_ok P (snd kv)) its ->
  forall self w, exists self' w',
    Vault.encrypt_each P self its w
    = (Ok (map (fun kv => (py_str (fst kv),
                           entry_of P (snd kv) (Vault.master_password self))) its,
           self'), w')
    /\ Vault.master_password self' = Vault.master_password self
    /\ Vault.key self' = Vault.key self
    /\ files w' = files w.
Proof.
  induction its as [|[i c] its IH]; intros Hf self w.
  - exists self, w. repeat split.
  - inversion Hf as [|? ? Hc Hr]; subst. cbn [snd] in Hc.
    destruct (encrypt_run P HP c (Vault.master_password self) w Hc)
      as (w1 & He & _ & Hf1).
    destruct (IH Hr (Vault.store self i
                       (Container.set_key c
                          (cached P (Container.key c) (Vault.master_password self)))) w1)
      as (self' & w2 & Hrest & Hm & Hk & Hf2).
    exists self', w2. cbn [Vault.encrypt_each map fst snd].
    rewrite (bind_ok _ _ _ _ _ _ _ He). rewrite (bind_ok _ _ _ _ _ _ _ Hrest).
    rewrite store_master_password in *. rewrite store_key in Hk.
    repeat split; auto; congruence.
Qed.

Lemma doc_entries_nodup v :
  vault_ok P v -> NoDup (map fst (doc_entries P v)).
Proof.
  intros Hv. destruct (all_containers_wf P v Hv) as [Hn _].
  rewrite doc_entries_vmap. unfold vmap. rewrite map_map. cbn [fst].
  now apply str_keys_nodup.
Qed.

Lemma doc_macs v :
  exists ms,
    macs_of (sorted (doc_entries P v)) = Ok ms
    /\ str_join ms = Ok (joined_tags (str_keys (container_tags P v))).
Proof.
  pose proof (stored_tags_doc P v) as H. unfold stored_tags in H.
  destruct (macs_of (sorted (doc_entries P v))) as [ms|]; [eauto|discriminate].
Qed.

(** [Vault.encrypt] on a well-formed vault returns [doc_of]. *)
Lemma vault_encrypt_run v w :
  vault_ok P v ->
  exists v' w',
    Vault.encrypt P v w = (Ok (doc_of P v, v'), w')
    /\ files w' = files w.
Proof.
  intros Hv. pose proof Hv as ((Hs & Hi & Hc) & _).
  destruct (all_containers_wf P v Hv) as [Hn Hf].
  assert (Hok : Forall (fun kv => container_ok P (snd kv)) (Vault.all_containers v)).
  { eapply Forall_impl; [|exact Hf]. now intros kv [_ H]. }
  destruct (encrypt_each_run _ Hok v w) as (v1 & w1 & He & Hm & Hk & Hf1).
  fold (doc_entries P v) in He.
  destruct (doc_macs v) as (ms & Hms & Hj).
  assert (Hc1 : cache_ok P (Vault.key v1)) by now rewrite Hk.
  destruct (generate_aes_key_run P (Vault.key v1) (Vault.master_password v1) w1 Hc1)
    as (w2 & Hg & _ & Hf2 & _).
  unfold Vault.encrypt. rewrite (bind_ok _ _ _ _ _ _ _ He).
  rewrite (dict_of_items_nodup _ _ String.eqb String.eqb_eq _ (doc_entries_nodup v Hv)).
  rewrite Hms. mstep. rewrite (bind_ok _ _ _ _ _ _ _ Hg). rewrite Hj. mstep.
  unfold hmac_new. rewrite bind_bind. mstep. mstep.
  do 2 eexists. split.
  - unfold ret, doc_of, spec_vault_mac, vault_key_of, SymmetricKey.get_key_json, cached.
    cbn [SymmetricKey.salt SymmetricKey.iv]. rewrite Hk, Hm. reflexivity.
  - cbn. congruence.
Qed.
End VaultProps.

(** ** Inverting a successful load *)

Lemma open_json_inv path w j w' :
  open_json path w = (Ok j, w') -> files w path = Some (JsonFile j) /\ w' = w.
Proof.
  unfold open_json. destruct (files w path) as [[|j'|r]|]; try discriminate.
  now intros [= -> ->].
Qed.

Section LoadInv.
Variable P : Primitives.

(** What a successful [load_from_file] has checked and what it builds. *)
Lemma load_from_file_inv self path w v' w' :
  Vault.load_from_file P self path w = (Ok v', w') ->
  exists doc its loaded w1 mac salt iv ms joined,
    files w path = Some (JsonFile doc)
    /\ getitem doc "containers" = Ok (JDict its)
    /\ mapM (fun kv => Vault.load_entry P (Vault.master_password self) (fst kv) (snd kv))
            its w = (Ok loaded, w1)
    /\ getitem doc "mac" = Ok (JStr mac)
    /\ b64field P doc "key" "salt" = Ok salt
    /\ b64field P doc "key" "iv" = Ok iv
    /\ List.length salt = SALT_SIZE /\ List.length iv = BLOCK_SIZE
    /\ macs_of (sorted its) = Ok ms /\ str_join ms = Ok joined
    /\ mac = hmac_hexdigest P
               (pbkdf2_hmac P (encode_utf8 (Vault.master_password self)) salt)
               (encode_utf8 joined)
    /\ Vault.containers v'
       = filter (fun kv => (0 <=? fst kv)%Z)
           (dict_of_items Z.eqb (map (fun c => (Container.get_id c, c)) loaded))
    /\ Vault.hidden_containers v'
       = filter (fun kv => (fst kv <? 0)%Z)
           (dict_of_items Z.eqb (map (fun c => (Container.get_id c, c)) loaded))
    /\ Vault.master_password v' = Vault.master_password self.
Proof.
  intros H. unfold Vault.load_from_file in H.
  apply bind_inv_ok in H as (a & w0 & H0 & H).
  apply try_except_inv_ok in H0;
    [|intros e ? ? ?; destruct e; discriminate].
  apply open_json_inv in H0 as [Hfile ->].
  apply try_except_inv_ok in H;
    [|intros e ? ? ?; destruct e; discriminate].
  apply bind_inv_ok in H as (cs & w1 & Hcs & H).
  apply lift_inv_ok in Hcs as [Hcs ->].
  apply bind_inv_ok in H as (its & w1 & Hits & H).
  apply lift_inv_ok in Hits as [Hits ->].
  destruct cs as [| | | | |its']; try discriminate. injection Hits as ->.
  apply bind_inv_ok in H as (loaded & w1 & Hload & H).
  apply bind_inv_ok in H as (mac & w2 & Hmac & H).
  apply lift_inv_ok in Hmac as [Hmac ->].
  apply bind_inv_ok in H as (salt & w2 & Hsalt & H).
  apply lift_inv_ok in Hsalt as [Hsalt ->].
  apply bind_inv_ok in H as (iv & w2 & Hiv & H).
  apply lift_inv_ok in Hiv as [Hiv ->].
  destruct ((negb (List.length salt =? SALT_SIZE)
             || negb (List.length iv =? BLOCK_SIZE))%nat) eqn:Hlen; [discriminate|].
  apply orb_false_iff in Hlen as [Hl1 Hl2].
  apply negb_false_iff, Nat.eqb_eq in Hl1, Hl2.
  apply bind_inv_ok in H as (k & w2 & Hk & H).
  rewrite SymmetricKey_init_given in Hk
    by (eapply nonempty_of_length; eassumption).
  injection Hk as <- <-.
  apply bind_inv_ok in H as (ms & w2 & Hms & H).
  apply lift_inv_ok in Hms as [Hms ->].
  apply bind_inv_ok in H as ([vault_key k] & w2 & Hg & H).
  unfold SymmetricKey.generate_aes_key in Hg.
  cbn [SymmetricKey.aeskey SymmetricKey.prev_password SymmetricKey.salt SymmetricKey.iv] in Hg.
  rewrite bind_log in Hg. unfold ret in Hg. injection Hg as <- <- <-.
  apply bind_inv_ok in H as (joined & w2 & Hj & H).
  apply lift_inv_ok in Hj as [Hj ->].
  apply bind_inv_ok in H as (computed & w2 & Hh & H).
  unfold hmac_new in Hh. rewrite bind_log in Hh.
  unfold ret in Hh. injection Hh as <- <-.
  apply bind_inv_ok in H as (same & w2 & Hc & H).
  unfold compare_digest in Hc. rewrite bind_log in Hc.
  destruct mac as [| | |mac| |]; try discriminate.
  destruct (is_ascii _ && is_ascii mac); [|discriminate].
  unfold ret in Hc. injection Hc as <- <-.
  destruct (String.eqb_spec
              (hmac_hexdigest P
                 (pbkdf2_hmac P (encode_utf8 (Vault.master_password self)) salt)
                 (encode_utf8 joined)) mac) as [E|E]; [|discriminate].
  cbn [negb] in H. unfold ret in H. injection H as <- <-.
  exists a, its, loaded, w1, mac, salt, iv, ms, joined.
  repeat split; auto.
Qed.
End LoadInv.

(** ** Loading a document *)

Lemma b64decode_json_raise P j e :
  b64decode_json P j = Raise e -> is_vault_error e = false.
Proof.
  destruct j; simpl; try (now intros [= <-]).
  destruct (b64decode P s); [discriminate|now intros [= <-]].
Qed.

Lemma getitem_not_vault j k e : getitem j k = Raise e -> is_vault_error e = false.
Proof. intros H. apply getitem_raise in H as (m & [-> | ->]); reflexivity. Qed.

Lemma b64field_raise P c k1 k2 e :
  b64field P c k1 k2 = Raise e -> is_vault_error e = false.
Proof.
  unfold b64field.
  destruct (getitem c k1) as [k|e1] eqn:E1;
    [|intros [= <-]; eapply getitem_not_vault; eassumption].
  destruct (getitem k k2) as [v|e2] eqn:E2;
    [|intros [= <-]; eapply getitem_not_vault; eassumption].
  apply b64decode_json_raise.
Qed.

Lemma decode_error_not_vault e : decode_error e = true -> is_vault_error e = false.
Proof. destruct e; simpl; congruence. Qed.

Section LoadProps.
Variable P : Primitives.
Hypothesis HP : PrimitivesOk P.

(** [from_data] never raises [LoadVaultError]. *)
Lemma from_data_raises pw id ct mac salt iv w e w' :
  Container.from_data P pw id ct mac salt iv w = (Raise e, w') ->
  is_vault_error e = false.
Proof.
  unfold Container.from_data.
  destruct ((negb (List.length salt =? SALT_SIZE)
             || negb (List.length iv =? BLOCK_SIZE))%nat) eqn:Hlen;
    [now intros [= <- _]|].
  apply orb_false_iff in Hlen as [Hl1 Hl2].
  apply negb_false_iff, Nat.eqb_eq in Hl1, Hl2.
  destruct (py_int P id) as [n|e0] eqn:Hn.
  - pose proof (from_data_to_compare P HP pw id n ct mac salt iv w Hl1 Hl2 Hn) as E.
    unfold Container.from_data in E. rewrite Hl1, Hl2, Hn in E.
    cbn [Nat.eqb SALT_SIZE BLOCK_SIZE negb orb] in E. rewrite E. clear E.
    destruct mac as [| | |s| |]; try (now intros [= <- _]).
    destruct (is_ascii s); [|now intros [= <- _]].
    destruct (String.eqb _ s); [|now intros [= <- _]].
    intros H. apply after_compare_raises in H. now apply decode_error_not_vault in H.
  - mstep. intros [= <- _]. now destruct (py_int_raise P id e0 HP Hn) as (m & ->).
Qed.

Lemma load_entry_raises pw id c w e w' :
  Vault.load_entry P pw id c w = (Raise e, w') -> is_vault_error e = false.
Proof.
  unfold Vault.load_entry.
  destruct (getitem c "ciphertext") as [v|e1] eqn:E1.
  2: { mstep. intros [= <- _]. eapply getitem_not_vault; eassumption. }
  destruct (b64decode_json P v) as [ct|e2] eqn:E2.
  2: { mstep. intros [= <- _]. eapply b64decode_json_raise; eassumption. }
  mstep.
  destruct (getitem c "mac") as [mac|e3] eqn:E3.
  2: { mstep. intros [= <- _]. eapply getitem_not_vault; eassumption. }
  mstep.
  destruct (b64field P c "key" "salt") as [salt|e4] eqn:E4.
  2: { mstep. intros [= <- _]. eapply b64field_raise; eassumption. }
  mstep.
  destruct (b64field P c "key" "iv") as [iv|e5] eqn:E5.
  2: { mstep. intros [= <- _]. eapply b64field_raise; eassumption. }
  mstep. apply from_data_raises.
Qed.

Lemma mapM_raises (A B : Type) (f : A -> M B) (Q : exn -> Prop) (l : list A) :
  (forall a w e w', f a w = (Raise e, w') -> Q e) ->
  forall w e w', mapM f l w = (Raise e, w') -> Q e.
Proof.
  intros Hf. induction l as [|a l IH]; intros w e w'; cbn [mapM]; [discriminate|].
  unfold bind at 1. destruct (f a w) as [[b|e1] w1] eqn:Ea.
  - unfold bind at 1. destruct (mapM f l w1) as [[bs|e2] w2] eqn:El.
    + discriminate.
    + intros [= <- _]. eapply IH; eassumption.
  - intros [= <- _]. eapply Hf; eassumption.
Qed.

(** Reading back an entry that [Container.encrypt] wrote. *)
Lemma load_entry_of_encrypt c pw w :
  container_ok P c ->
  exists w',
    Vault.load_entry P pw (py_str (Container.id c)) (entry_of P c pw) w
    = (Ok (Container.set_key c (cached P (Container.key c) pw)), w')
    /\ files w' = files w.
Proof.
  intros Hc. unfold Vault.load_entry, entry_of, b64field, SymmetricKey.get_key_json.
  cbn [getitem dict_get String.eqb Ascii.eqb Bool.eqb b64decode_json].
  rewrite !(b64_inverse HP). mstep. mstep. mstep. mstep.
  now apply from_data_of_encrypt.
Qed.

Lemma filter_sign_app (l1 l2 : list (Z * Container.t)) :
  Forall (fun kv => (0 <= fst kv)%Z) l1 -> Forall (fun kv => (fst kv < 0)%Z) l2 ->
  filter (fun kv => (0 <=? fst kv)%Z) (l1 ++ l2) = l1
  /\ filter (fun kv => (fst kv <? 0)%Z) (l1 ++ l2) = l2.
Proof.
  intros H1 H2. rewrite !filter_app. split.
  - replace (filter (fun kv => (0 <=? fst kv)%Z) l2) with (@nil (Z * Container.t)).
    + rewrite app_nil_r. apply forallb_filter_id. apply forallb_forall.
      rewrite Forall_forall in H1. intros x Hx. apply Z.leb_le. auto.
    + symmetry. induction H2 as [|x l Hx Hl IH]; simpl; [reflexivity|].
      destruct (Z.leb_spec 0 (fst x)); [lia|assumption].
  - replace (filter (fun kv => (fst kv <? 0)%Z) l1) with (@nil (Z * Container.t)).
    + simpl. apply forallb_filter_id. apply forallb_forall.
      rewrite Forall_forall in H2. intros x Hx. apply Z.ltb_lt. auto.
    + symmetry. induction H1 as [|x l Hx Hl IH]; simpl; [reflexivity|].
      destruct (Z.ltb_spec (fst x) 0); [lia|assumption].
Qed.
End LoadProps.

Lemma mapM_map (A B C : Type) (f : B -> M C) (h : A -> B) (l : list A) :
  mapM f (map h l) = mapM (fun a => f (h a)) l.
Proof. induction l as [|a l IH]; simpl; [reflexivity|]. now rewrite IH. Qed.

Lemma open_json_run path w j :
  files w path = Some (JsonFile j) -> open_json path w = (Ok j, w).
Proof. intros H. unfold open_json. now rewrite H. Qed.

Section LoadDoc.
Variable P : Primitives.
Hypothesis HP : PrimitivesOk P.

Lemma load_entries_run v w :
  vault_ok P v ->
  exists w',
    mapM (fun kv => Vault.load_entry P (Vault.master_password v) (fst kv) (snd kv))
         (doc_entries P v) w
    = (Ok (map (fun kv => snd (recache P (Vault.master_password v) kv))
               (Vault.all_containers v)), w')
    /\ files w' = files w.
Proof.
  intros Hv. destruct (all_containers_wf P v Hv) as [_ Hf].
  unfold doc_entries. rewrite mapM_map. cbn [fst snd].
  apply mapM_run. intros [i c] Hin w0. cbn [fst snd].
  rewrite Forall_forall in Hf. destruct (Hf _ Hin) as [Hid Hc]. cbn [fst snd] in *.
  rewrite <- Hid. now apply load_entry_of_encrypt.
Qed.

Lemma recache_keys pw (l : list (Z * Container.t)) :
  map fst (map (recache P pw) l) = map fst l.
Proof. rewrite map_map. reflexivity. Qed.

Lemma loaded_items v :
  vault_ok P v ->
  map (fun c => (Container.get_id c, c))
      (map (fun kv => snd (recache P (Vault.master_password v) kv))
           (Vault.all_containers v))
  = map (recache P (Vault.master_password v)) (Vault.all_containers v).
Proof.
  intros Hv. destruct (all_containers_wf P v Hv) as [_ Hf].
  rewrite map_map. apply map_ext_in. intros [i c] Hin.
  rewrite Forall_forall in Hf. destruct (Hf _ Hin) as [Hid _].
  unfold recache; cbn in *. now rewrite Hid.
Qed.

Lemma doc_containers v :
  getitem (doc_of P v) "containers" = Ok (JDict (doc_entries P v)).
Proof. reflexivity. Qed.

Lemma doc_mac v :
  getitem (doc_of P v) "mac"
  = Ok (JStr (spec_vault_mac P (vault_key_of P v) (container_tags P v))).
Proof. reflexivity. Qed.

Lemma doc_salt v :
  b64field P (doc_of P v) "key" "salt" = Ok (SymmetricKey.salt (Vault.key v)).
Proof.
  unfold doc_of, b64field, SymmetricKey.get_key_json.
  cbn [getitem dict_get String.eqb Ascii.eqb Bool.eqb b64decode_json].
  now rewrite (b64_inverse HP).
Qed.

Lemma doc_iv v :
  b64field P (doc_of P v) "key" "iv" = Ok (SymmetricKey.iv (Vault.key v)).
Proof.
  unfold doc_of, b64field, SymmetricKey.get_key_json.
  cbn [getitem dict_get String.eqb Ascii.eqb Bool.eqb b64decode_json].
  now rewrite (b64_inverse HP).
Qed.

(** Loading the document of a well-formed vault with its password. *)
Lemma load_doc_run v self path w :
  vault_ok P v ->
  files w path = Some (JsonFile (doc_of P v)) ->
  Vault.master_password self = Vault.master_password v ->
  exists w',
    Vault.load_from_file P self path w = (Ok (reloaded P v (Vault.cloud self)), w')
    /\ files w' = files w.
Proof.
  intros Hv Hfile Hpw. pose proof Hv as ((Hs & Hi & Hc) & Hwc & Hwh & Hpos & Hneg).
  destruct (load_entries_run v w Hv) as (w1 & Hload & Hf1).
  destruct (doc_macs P v) as (ms & Hms & Hj).
  unfold Vault.load_from_file.
  rewrite (bind_ok _ _ _ _ _ _ _ (try_except_ok _ _ _ _ _ _ (open_json_run _ _ _ Hfile))).
  eexists. split.
  - apply try_except_ok.
    rewrite (doc_containers v). mstep. cbn [items]. mstep.
    rewrite Hpw. rewrite (bind_ok _ _ _ _ _ _ _ Hload).
    rewrite (doc_mac v), (doc_salt v), (doc_iv v). mstep. mstep. mstep.
    rewrite Hs, Hi. cbn [Nat.eqb SALT_SIZE BLOCK_SIZE negb orb].
    erewrite bind_ok by (apply SymmetricKey_init_given;
                          eapply nonempty_of_length; eassumption).
    rewrite Hms. mstep.
    unfold SymmetricKey.generate_aes_key at 1.
    cbn [SymmetricKey.aeskey SymmetricKey.prev_password SymmetricKey.salt SymmetricKey.iv].
    rewrite !bind_bind. mstep. mstep. rewrite Hj. mstep.
    unfold hmac_new at 1. rewrite !bind_bind. mstep. mstep.
    unfold compare_digest at 1. rewrite !bind_bind. mstep.
    unfold spec_vault_mac, vault_key_of.
    rewrite (hexdigest_ascii HP), String.eqb_refl. cbn [andb negb]. mstep.
    rewrite (loaded_items v Hv).
    rewrite (dict_of_items_nodup _ _ Z.eqb Zeqb_spec')
      by (rewrite recache_keys; apply (all_containers_wf P v Hv)).
    rewrite (all_containers_app P v Hv), map_app.
    destruct (filter_sign_app
                (map (recache P (Vault.master_password v)) (Vault.containers v))
                (map (recache P (Vault.master_password v)) (Vault.hidden_containers v)))
      as [F1 F2].
    { rewrite Forall_map. exact Hpos. }
    { rewrite Forall_map. exact Hneg. }
    rewrite F1, F2. unfold ret, reloaded, cached, recache.
    cbn [SymmetricKey.salt SymmetricKey.iv]. reflexivity.
  - cbn. congruence.
Qed.
End LoadDoc.

(** ** The vault tag *)

(** C5. [Vault.encrypt] on a well-formed vault returns the document
    [doc_of], whose ["mac"] is the vault tag as specified: HMAC-SHA256 under
    the vault key of the tags of the containers concatenated in the order of
    their ids sorted as strings. A successful [load_from_file] has found the
    stored ["mac"] equal to the HMAC, under the key derived from the master
    password and the stored salt, of the ["mac"] values stored in the entries,
    concatenated in the same order; the document that [Vault.encrypt]
    returned does load with the master password. The order is that of
    strings: the tag of id 10 comes before the tag of id 2. *)
Theorem vault_mac_formula (P : Primitives) (v self : Vault.t) (path : string)
        (w w0 : world) :
  PrimitivesOk P -> vault_ok P v ->
  (exists v1 w1,
      Vault.encrypt P v w = (Ok (doc_of P v, v1), w1)
      /\ getitem (doc_of P v) "mac"
         = Ok (JStr (spec_vault_mac P (vault_key_of P v) (container_tags P v))))
  /\ (forall v' w0',
         Vault.load_from_file P self path w0 = (Ok v', w0') ->
         exists doc its salt joined,
           files w0 path = Some (JsonFile doc)
           /\ getitem doc "containers" = Ok (JDict its)
           /\ b64field P doc "key" "salt" = Ok salt
           /\ stored_tags its = Ok joined
           /\ getitem doc "mac"
              = Ok (JStr (hmac_hexdigest P
                            (pbkdf2_hmac P (encode_utf8 (Vault.master_password self)) salt)
                            (encode_utf8 joined))))
  /\ (files w0 path = Some (JsonFile (doc_of P v)) ->
      Vault.master_password self = Vault.master_password v ->
      exists w0',
        Vault.load_from_file P self path w0 = (Ok (reloaded P v (Vault.cloud self)), w0'))
  /\ (forall a b : string, joined_tags (str_keys [(2%Z, a); (10%Z, b)]) = (b ++ a)%string).
Proof.
  intros HP Hv. split; [|split; [|split]].
  - destruct (vault_encrypt_run P HP v w Hv) as (v1 & w1 & He & _).
    exists v1, w1. split; [exact He|reflexivity].
  - intros v' w0' H.
    destruct (load_from_file_inv P self path w0 v' w0' H)
      as (doc & its & loaded & w1 & mac & salt & iv & ms & joined
          & Hf & Hc & _ & Hm & Hs & _ & _ & _ & Hms & Hj & E & _).
    exists doc, its, salt, joined. repeat split; auto.
    + unfold stored_tags. now rewrite Hms.
    + now rewrite Hm, E.
  - intros Hfile Hpw.
    destruct (load_doc_run P HP v self path w0 Hv Hfile Hpw) as (w0' & Hload & _).
    exists w0'. exact Hload.
  - intros a b. unfold joined_tags. cbn. now rewrite append_nil_r_string.
Qed.

(** ** Entries added or removed behind the vault tag *)

Lemma one_apart_length (A : Type) (l l' : list A) :
  one_apart l l' -> List.length l <> List.length l'.
Proof.
  intros (x & l1 & l2 & [[-> ->] | [-> ->]]); rewrite !length_app; simpl; lia.
Qed.

Lemma mapM_inv_ok (A B : Type) (f : A -> M B) (l : list A) w bs w' :
  mapM f l w = (Ok bs, w') ->
  Forall (fun a => exists w1 b w2, f a w1 = (Ok b, w2)) l.
Proof.
  revert w bs w'; induction l as [|a l IH]; intros w bs w' H; [constructor|].
  cbn [mapM] in H.
  apply bind_inv_ok in H as (b & w1 & Ha & H).
  apply bind_inv_ok in H as (bs' & w2 & Hl & H).
  constructor; eauto.
Qed.

Lemma string_length_app (a b : string) :
  String.length (a ++ b) = (String.length a + String.length b)%nat.
Proof. induction a as [|x a IH]; simpl; [reflexivity|]. now rewrite IH. Qed.

Lemma joined_length_aux (l : list (string * json)) ms joined :
  tagged l -> macs_of l = Ok ms -> str_join ms = Ok joined ->
  String.length joined = (64 * List.length l)%nat.
Proof.
  revert ms joined; induction l as [|[k c] l IH]; intros ms joined Ht Hm Hj.
  - injection Hm as <-. injection Hj as <-. reflexivity.
  - inversion Ht as [|? ? (m & Hg & Hl) Ht']; subst. cbn [snd] in Hg.
    cbn [macs_of] in Hm. rewrite Hg in Hm.
    destruct (macs_of l) as [ms'|]; [|discriminate]. injection Hm as <-.
    cbn [str_join] in Hj. destruct (str_join ms') as [r|] eqn:Hr; [|discriminate].
    injection Hj as <-. rewrite string_length_app, Hl, (IH ms' r Ht' eq_refl Hr).
    cbn [List.length]. lia.
Qed.

Lemma stored_tags_length (its : list (string * json)) joined :
  tagged its -> stored_tags its = Ok joined ->
  String.length joined = (64 * List.length its)%nat.
Proof.
  intros Ht Hs. unfold stored_tags in Hs.
  destruct (macs_of (sorted its)) as [ms|] eqn:Hm; [|discriminate].
  rewrite <- (Permutation_length (sorted_perm _ its)).
  apply (joined_length_aux _ ms); auto.
  unfold tagged. eapply Permutation_Forall; [|exact Ht].
  symmetry. apply sorted_perm.
Qed.

Section Tamper.
Variable P : Primitives.
Hypothesis HP : PrimitivesOk P.

(** The exceptions of [load_from_file]: those of [open] and of the reading
    of the file, and [LoadVaultError] once the file has been read. *)
Lemma load_from_file_raises self path w e w' :
  Vault.load_from_file P self path w = (Raise e, w') ->
  match files w path with
  | None => e = FileNotFoundError /\ w' = w
  | Some (Unreadable r) => e = read_exn r /\ w' = w
  | Some _ => exists m, e = LoadVaultError m
  end.
Proof.
  unfold Vault.load_from_file, bind at 1, try_except at 1, open_json.
  destruct (files w path) as [[|doc|r]|].
  - intros [= <- _]. eauto.
  - unfold try_except.
    match goal with |- context [match ?m with _ => _ end] => destruct m as [[x|e0] w1] end;
      [discriminate|].
    destruct e0; intros [= <- _]; eauto.
  - destruct r; intros [= <- <-]; auto.
  - intros [= <- <-]; auto.
Qed.

(** An entry that loads carries the tag that [from_data] recomputed. *)
Lemma load_entry_ok_mac pw id c w c' w' :
  Vault.load_entry P pw id c w = (Ok c', w') ->
  exists m, getitem c "mac" = Ok (JStr m) /\ String.length m = 64%nat.
Proof.
  unfold Vault.load_entry. intros H.
  apply bind_inv_ok in H as (ct & w1 & Hct & H). apply lift_inv_ok in Hct as [Hct ->].
  apply bind_inv_ok in H as (mac & w1 & Hmac & H). apply lift_inv_ok in Hmac as [Hmac ->].
  apply bind_inv_ok in H as (salt & w1 & Hs & H). apply lift_inv_ok in Hs as [Hs ->].
  apply bind_inv_ok in H as (iv & w1 & Hi & H). apply lift_inv_ok in Hi as [Hi ->].
  pose proof H as H0. unfold Container.from_data in H0.
  destruct ((negb (List.length salt =? SALT_SIZE)
             || negb (List.length iv =? BLOCK_SIZE))%nat) eqn:Hlen; [discriminate|].
  apply orb_false_iff in Hlen as [Hl1 Hl2].
  apply negb_false_iff, Nat.eqb_eq in Hl1, Hl2.
  destruct (py_int P id) as [n|e0] eqn:Hn; [|discriminate]. clear H0.
  rewrite (from_data_to_compare P HP pw id n ct mac salt iv w Hl1 Hl2 Hn) in H.
  destruct mac as [| | |s| |]; try discriminate.
  destruct (is_ascii s); [|discriminate].
  destruct (String.eqb_spec (recomputed_mac P pw id ct salt) s) as [<-|]; [|discriminate].
  eexists. split; [exact Hmac|]. apply (hexdigest_length HP).
Qed.

Lemma doc_entries_tagged v : tagged (doc_entries P v).
Proof.
  unfold tagged, doc_entries. rewrite Forall_map. apply Forall_forall.
  intros [i c] _. cbn [snd]. eexists. split; [apply getitem_entry_mac|].
  apply (hexdigest_length HP).
Qed.
End Tamper.

(** C4. A document saved from a well-formed vault is edited: one entry is
    added to its ["containers"] map or removed from it, and the vault-level
    ["mac"] and ["key"] are left as they were. Then [load_from_file] with the
    master password raises [LoadVaultError], whatever the entries themselves
    are, provided the HMAC under the vault key tells the concatenation of
    the stored tags of the edited document from that of the original. *)
Theorem load_detects_added_or_removed_entry (P : Primitives) (v self : Vault.t)
        (its' : list (string * json)) (path : string) (w : world) :
  PrimitivesOk P -> vault_ok P v ->
  one_apart (doc_entries P v) its' ->
  files w path = Some (JsonFile (with_entries P v its')) ->
  Vault.master_password self = Vault.master_password v ->
  (forall joined',
      stored_tags its' = Ok joined' ->
      no_collision P (vault_key_of P v) joined'
        (joined_tags (str_keys (container_tags P v)))) ->
  exists m w', Vault.load_from_file P self path w = (Raise (LoadVaultError m), w').
Proof.
  intros HP Hv Hone Hfile Hpw Hnc.
  destruct (Vault.load_from_file P self path w) as [[v'|e] w'] eqn:H.
  - exfalso.
    destruct (load_from_file_inv P self path w v' w' H)
      as (doc & its & loaded & w1 & mac & salt & iv & ms & joined
          & Hf & Hc & Hload & Hm & Hs & _ & _ & _ & Hms & Hj & E & _).
    rewrite Hfile in Hf. injection Hf as <-.
    change (getitem (with_entries P v its') "containers") with (Ok (JDict its')) in Hc.
    injection Hc as <-.
    change (getitem (with_entries P v its') "mac")
      with (Ok (JStr (spec_vault_mac P (vault_key_of P v) (container_tags P v)))) in Hm.
    injection Hm as Hm.
    assert (Hsalt : salt = SymmetricKey.salt (Vault.key v)).
    { pose proof (doc_salt P HP v) as D. unfold doc_of in D.
      unfold with_entries, b64field in *.
      cbn [getitem dict_get String.eqb Ascii.eqb Bool.eqb] in *. congruence. }
    assert (Hst : stored_tags its' = Ok joined) by (unfold stored_tags; now rewrite Hms).
    assert (Htag : tagged its').
    { apply mapM_inv_ok in Hload. unfold tagged.
      eapply Forall_impl; [|exact Hload].
      intros [k c] (w2 & b & w3 & Hb). cbn [fst snd] in *.
      eapply load_entry_ok_mac; eassumption. }
    pose proof (stored_tags_length _ _ Htag Hst) as L1.
    pose proof (stored_tags_length _ _ (doc_entries_tagged P HP v) (stored_tags_doc P v)) as L2.
    apply one_apart_length in Hone.
    assert (Hne : joined <> joined_tags (str_keys (container_tags P v)))
      by (intros Heq; rewrite Heq in L1; lia).
    apply (Hnc joined Hst Hne).
    unfold spec_vault_mac, vault_key_of in *. rewrite Hpw, Hsalt in E. congruence.
  - apply (load_from_file_raises P self path w e w') in H.
    rewrite Hfile in H. destruct H as (m & ->). eauto.
Qed.

(** ** Container errors during a load *)

Lemma mapM_raises_at (A B : Type) (f : A -> M B) (a : A) (l : list A) :
  In a l -> (forall w, exists e w', f a w = (Raise e, w')) ->
  forall w, exists e w', mapM f l w = (Raise e, w').
Proof.
  intros Hin Ha. induction l as [|x l IH]; [destruct Hin|]. intros w.
  cbn [mapM]. unfold bind at 1.
  destruct (f x w) as [[b|e] w1] eqn:Ex; [|eauto].
  destruct Hin as [->|Hin].
  - destruct (Ha w) as (e & w' & E). congruence.
  - destruct (IH Hin w1) as (e & w' & E). unfold bind. rewrite E. eauto.
Qed.

Section LoadErrors.
Variable P : Primitives.
Hypothesis HP : PrimitivesOk P.

Lemma tag_fails_raises pw id c w :
  tag_fails P pw id c ->
  exists e w', Vault.load_entry P pw id c w = (Raise e, w')
               /\ (forall n s, py_int P id = Ok n -> getitem c "mac" = Ok (JStr s) ->
                               is_ascii s = true ->
                               e = LoadContainerError (Container.integrity_msg id)).
Proof.
  intros (cj & ct & mac & salt & iv & Hc & Hct & Hm & Hs & Hi & Hl1 & Hl2 & Hne).
  unfold Vault.load_entry. rewrite Hc, Hct, Hm, Hs, Hi. mstep. mstep. mstep. mstep.
  destruct (from_data_mismatch P pw id ct mac salt iv w HP Hl1 Hl2 Hne)
    as (e & w' & evs & E & _ & _ & _ & _ & Hk & _).
  exists e, w'. split; [exact E|].
  intros n s Hn [= ->]. eauto.
Qed.

(** Whatever the comprehension of [load_from_file] raises, the caller
    sees the same [LoadVaultError]. *)
Lemma load_wraps self path w doc its e w1 :
  files w path = Some (JsonFile doc) ->
  getitem doc "containers" = Ok (JDict its) ->
  mapM (fun kv => Vault.load_entry P (Vault.master_password self) (fst kv) (snd kv))
       its w = (Raise e, w1) ->
  Vault.load_from_file P self path w = (Raise (LoadVaultError Vault.load_failed_msg), w1).
Proof.
  intros Hf Hc Hm.
  assert (Hnv : is_vault_error e = false).
  { apply (mapM_raises _ _ _ (fun e => is_vault_error e = false) its) in Hm; auto.
    intros [k c] w0 e0 w0'. apply load_entry_raises. exact HP. }
  unfold Vault.load_from_file.
  rewrite (bind_ok _ _ _ _ _ _ _ (try_except_ok _ _ _ _ _ _ (open_json_run _ _ _ Hf))).
  unfold try_except. rewrite Hc. mstep. cbn [items]. mstep.
  rewrite (bind_raise _ _ _ _ _ _ _ Hm). destruct e; try reflexivity. discriminate.
Qed.
End LoadErrors.

(** C6 (amended). During [load_from_file], if the tag of any one entry of
    the document fails to verify, the whole load aborts with
    [LoadVaultError] carrying the fixed message of a failed load: the
    exception of the container is caught and replaced. *)
Theorem load_wraps_container_failure (P : Primitives) (self : Vault.t)
        (path : string) (w : world) (doc : json) (its : list (string * json))
        (id : string) (c : json) :
  PrimitivesOk P ->
  files w path = Some (JsonFile doc) ->
  getitem doc "containers" = Ok (JDict its) ->
  In (id, c) its ->
  tag_fails P (Vault.master_password self) id c ->
  exists w',
    Vault.load_from_file P self path w
    = (Raise (LoadVaultError Vault.load_failed_msg), w').
Proof.
  intros HP Hf Hc Hin Ht.
  destruct (mapM_raises_at _ _
              (fun kv => Vault.load_entry P (Vault.master_password self) (fst kv) (snd kv))
              (id, c) its Hin) with (w := w) as (e & w1 & Hm).
  { intros w0. destruct (tag_fails_raises P HP _ _ _ w0 Ht) as (e & w' & E & _).
    eauto. }
  exists w1. eapply load_wraps; eassumption.
Qed.

(** ** [fetch_container] *)

Lemma bad_lengths_raises P pw id c w :
  bad_lengths P c ->
  Vault.load_entry P pw id c w = (Raise (ValueError "Invalid data"), w).
Proof.
  intros (cj & ct & mac & salt & iv & Hc & Hct & Hm & Hs & Hi & Hl).
  unfold Vault.load_entry. rewrite Hc, Hct, Hm, Hs, Hi. mstep. mstep. mstep. mstep.
  unfold Container.from_data.
  destruct (Nat.eqb_spec (List.length salt) SALT_SIZE);
    destruct (Nat.eqb_spec (List.length iv) BLOCK_SIZE); try reflexivity.
  tauto.
Qed.

(** When the file parses, every failure of [fetch_container] is the same
    [LoadVaultError]. *)
Lemma fetch_container_raises P id pw path w doc :
  files w path = Some (JsonFile doc) ->
  exists r w',
    Vault.fetch_container P id pw path w = (r, w')
    /\ (forall e, r = Raise e -> e = LoadVaultError (Vault.fetch_failed_msg id))
    /\ (forall e0, (exists cs, getitem doc "containers" = Ok cs
                               /\ getitem cs id = Raise e0) ->
                   r = Raise (LoadVaultError (Vault.fetch_failed_msg id)))
    /\ (forall cs c e0 w0,
           getitem doc "containers" = Ok cs -> getitem cs id = Ok c ->
           Vault.load_entry P pw id c w = (Raise e0, w0) ->
           r = Raise (LoadVaultError (Vault.fetch_failed_msg id))).
Proof.
  intros Hf. unfold Vault.fetch_container.
  rewrite (bind_ok _ _ _ _ _ _ _ (try_except_ok _ _ _ _ _ _ (open_json_run _ _ _ Hf))).
  unfold try_except.
  destruct (getitem doc "containers") as [cs|e1] eqn:Hc.
  2: { mstep. do 2 eexists. split; [reflexivity|]. split; [now intros e [= <-]|].
       split; [intros e0 (cs & [=] & _)|intros cs c e0 w0 [=]]. }
  mstep. destruct (getitem cs id) as [c|e2] eqn:Hi.
  2: { mstep. do 2 eexists. split; [reflexivity|]. split; [now intros e [= <-]|].
       split; [reflexivity|intros cs' c e0 w0 [= <-]; congruence]. }
  mstep. destruct (Vault.load_entry P pw id c w) as [[c'|e3] w3] eqn:Hl.
  - do 2 eexists. split; [reflexivity|]. split; [discriminate|].
    split; [intros e0 (cs' & [= <-] & E); congruence|].
    intros cs' c0 e0 w0 [= <-] E. rewrite Hi in E. injection E as <-. congruence.
  - do 2 eexists. split; [reflexivity|]. split; [now intros e [= <-]|].
    split; reflexivity.
Qed.

(** C10 (amended). [fetch_container] never raises [LoadContainerError].
    Before the file has parsed, the exception is that of [open] or of the
    reading, or [LoadVaultError] for a file that is not JSON. Once the file
    has parsed as JSON, whatever fails (a missing container id, a salt or iv
    of the wrong length, a tag that does not verify, anything else that
    [load_entry] raises) reaches the caller as [LoadVaultError] with the
    message "There was an error fetching the container with ID " followed by
    the id that was asked for: the class of the integrity error and its
    message are lost, the id is still named. *)
Theorem fetch_container_wraps_errors (P : Primitives) (id pw path : string) (w : world) :
  PrimitivesOk P ->
  exists r w',
    Vault.fetch_container P id pw path w = (r, w')
    /\ (forall m, r <> Raise (LoadContainerError m))
    /\ (forall doc e, files w path = Some (JsonFile doc) -> r = Raise e ->
          e = LoadVaultError
                ("There was an error fetching the container with ID " ++ id)%string
          /\ ("There was an error fetching the container with ID " ++ id)%string
             <> Container.integrity_msg id)
    /\ (forall doc cs c,
           files w path = Some (JsonFile doc) ->
           getitem doc "containers" = Ok cs ->
           (exists e0, getitem cs id = Raise e0)
           \/ (getitem cs id = Ok c /\ (bad_lengths P c \/ tag_fails P pw id c)) ->
           r = Raise (LoadVaultError
                        ("There was an error fetching the container with ID " ++ id)%string))
    /\ (files w path = None -> r = Raise FileNotFoundError)
    /\ (files w path = Some NotJson -> r = Raise (LoadVaultError Vault.invalid_json_msg))
    /\ (forall rr, files w path = Some (Unreadable rr) -> r = Raise (read_exn rr)).
Proof.
  intros HP. destruct (files w path) as [[|doc|rr]|] eqn:Hf.
  - exists (Raise (LoadVaultError Vault.invalid_json_msg)), w.
    unfold Vault.fetch_container, bind, try_except, open_json. rewrite Hf.
    repeat split; try discriminate.
  - destruct (fetch_container_raises P id pw path w doc Hf)
      as (r & w' & E & Hr & Hmiss & Hload).
    exists r, w'. split; [exact E|]. split; [|split; [|split]].
    + intros m ->. specialize (Hr _ eq_refl). discriminate.
    + intros doc' e [= <-] ->. split; [exact (Hr _ eq_refl)|]. discriminate.
    + intros doc' cs c [= <-] Hc [(e0 & Hi) | [Hi [Hb | Ht]]].
      * apply (Hmiss e0). eauto.
      * eapply Hload; eauto. now apply bad_lengths_raises.
      * destruct (tag_fails_raises P HP pw id c w Ht) as (e & w1 & El & _).
        eapply Hload; eauto.
    + repeat split; discriminate.
  - exists (Raise (read_exn rr)), w.
    unfold Vault.fetch_container, bind, try_except, open_json. rewrite Hf.
    split; [now destruct rr|]. split; [now destruct rr|].
    repeat split; try discriminate. now intros rr' [= <-].
  - exists (Raise FileNotFoundError), w.
    unfold Vault.fetch_container, bind, try_except, open_json. rewrite Hf.
    repeat split; try discriminate.
Qed.

(** ** The id allocator *)

Lemma Container_init_watermark (o : option Z) w c w' :
  watermark_ok w -> Container.init o w = (Ok c, w') ->
  constructed w' = Container.id c :: constructed w
  /\ watermark_ok w' /\ (next_id w <= next_id w')%Z
  /\ (o = None -> Container.id c = next_id w /\ next_id w' = (next_id w + 1)%Z).
Proof.
  intros Hw. rewrite Container_init_run. intros [= <- <-].
  cbn [Container.id next_id]. unfold constructed, watermark_ok in *.
  cbn [events constructed_ids next_id]. repeat split.
  - constructor; [lia|]. eapply Forall_impl; [|exact Hw]. intros; simpl in *; lia.
  - lia.
  - now subst o.
  - subst o. lia.
Qed.

Lemma add_container_fresh v n d w c v' w' :
  watermark_ok w -> Vault.add_container v n d w = (Ok (c, v'), w') ->
  ~ In (Container.id c) (constructed w)
  /\ constructed w' = Container.id c :: constructed w
  /\ watermark_ok w'.
Proof.
  intros Hw H. unfold Vault.add_container in H.
  apply bind_inv_ok in H as (c0 & w1 & Hi & H).
  destruct (Container_init_watermark None w c0 w1 Hw Hi) as (Hc & Hw1 & _ & Hn).
  destruct (Hn eq_refl) as [Hid _].
  unfold ret in H. injection H as <- <- <-.
  cbn [Container.id Container.set_data Container.set_name]. rewrite Hc.
  repeat split; auto.
  rewrite Hid. intros Hin. unfold watermark_ok in Hw.
  rewrite Forall_forall in Hw. specialize (Hw _ Hin). lia.
Qed.

Lemma remove_container_world v i w r w' :
  try_except (Vault.remove_container v i) (fun _ => ret v) w = (r, w') -> w' = w.
Proof.
  unfold try_except, Vault.remove_container.
  destruct (dict_get Z.eqb (Vault.containers v) i); cbn; now intros [= _ <-].
Qed.

Lemma session_fresh ops : forall v w ids w',
  watermark_ok w -> session ops v w = (Ok ids, w') ->
  NoDup ids /\ (forall i, In i ids -> ~ In i (constructed w))
  /\ (forall i, In i (constructed w) -> In i (constructed w'))
  /\ watermark_ok w'.
Proof.
  induction ops as [|[n d|i] ops IH]; intros v w ids w' Hw H.
  - injection H as <- <-. repeat split; auto. constructor.
  - cbn [session] in H.
    apply bind_inv_ok in H as ([c v1] & w1 & Ha & H).
    apply bind_inv_ok in H as (ids' & w2 & Hs & H).
    unfold ret in H. injection H as <- <-. cbn [fst snd] in *.
    destruct (add_container_fresh v n d w c v1 w1 Hw Ha) as (Hf & Hc & Hw1).
    destruct (IH v1 w1 ids' w2 Hw1 Hs) as (Hnd & Hnew & Hmono & Hw2).
    unfold Container.get_id. repeat split; auto.
    + constructor; [|exact Hnd]. intros Hin. apply (Hnew _ Hin). rewrite Hc. now left.
    + intros j [<-|Hj]; [exact Hf|]. intros Hin. apply (Hnew _ Hj). rewrite Hc. now right.
    + intros j Hj. apply Hmono. rewrite Hc. now right.
  - cbn [session] in H.
    apply bind_inv_ok in H as (v1 & w1 & Hr & H).
    apply remove_container_world in Hr as ->. eapply IH; eassumption.
Qed.

(** Every session runs to its end: [add_container] does not raise and the
    [KeyError] of [remove_container] is caught. *)
Lemma session_runs ops : forall v w, exists ids w', session ops v w = (Ok ids, w').
Proof.
  induction ops as [|[n d|i] ops IH]; intros v w.
  - do 2 eexists. reflexivity.
  - cbn [session]. unfold Vault.add_container.
    rewrite bind_bind, (bind_ok _ _ _ _ _ _ _ (Container_init_run None w)).
    rewrite bind_ret. cbn [snd fst].
    match goal with |- exists _ _, bind (session ops ?v1) _ ?w1 = _ =>
      destruct (IH v1 w1) as (ids & w' & E) end.
    rewrite (bind_ok _ _ _ _ _ _ _ E). do 2 eexists. reflexivity.
  - cbn [session]. unfold bind at 1, try_except, Vault.remove_container.
    destruct (dict_get Z.eqb (Vault.containers v) i); cbn [ret raise]; apply IH.
Qed.

(** C8 (amended). An id that the allocator assigns, that is the id of a
    container built without an explicit id, is [Container.next_id]: it lies
    above the id of every container constructed before in the process, and
    the watermark only grows, also when a container is built with an
    explicit id. Hence every session of [add_container] and
    [remove_container] calls runs to its end, and the ids that
    [add_container] returns in it differ from one another and from the id of
    every container constructed before. *)
Theorem allocated_ids_are_fresh (o : option Z) (ops : list op) (v : Vault.t)
        (w : world) :
  watermark_ok w ->
  (exists c w', Container.init o w = (Ok c, w')
     /\ watermark_ok w' /\ (next_id w <= next_id w')%Z
     /\ (o = None -> Container.id c = next_id w
                     /\ ~ In (Container.id c) (constructed w)
                     /\ next_id w' = (next_id w + 1)%Z))
  /\ (exists ids w', session ops v w = (Ok ids, w')
        /\ NoDup ids /\ (forall i, In i ids -> ~ In i (constructed w))
        /\ watermark_ok w').
Proof.
  intros Hw. split.
  - pose proof (Container_init_run o w) as H. cbv zeta in H.
    do 2 eexists. split; [exact H|].
    destruct (Container_init_watermark o w _ _ Hw H) as (_ & Hw' & Hle & Hn).
    split; [exact Hw'|]. split; [exact Hle|]. intros Ho.
    destruct (Hn Ho) as [Hid Hnx]. split; [exact Hid|]. split; [|exact Hnx].
    rewrite Hid. intros Hin. unfold watermark_ok in Hw.
    rewrite Forall_forall in Hw. specialize (Hw _ Hin). lia.
  - destruct (session_runs ops v w) as (ids & w' & H).
    exists ids, w'. split; [exact H|].
    destruct (session_fresh ops v w ids w' Hw H) as (Hnd & Hnew & _ & Hw').
    auto.
Qed.

(** ** The serialised record *)

Lemma encrypt_invalid_data P c pw w :
  utf8_valid (Container.data c) = false ->
  Container.encrypt P c pw w = (Raise UnicodeDecodeError, w).
Proof. intros H. unfold Container.encrypt, decode_utf8. rewrite H. now mstep. Qed.

Lemma pad_inj (x y : bytes) : pad x BLOCK_SIZE = pad y BLOCK_SIZE -> x = y.
Proof.
  intros H. pose proof (unpad_pad x) as Hx. rewrite H, unpad_pad in Hx. congruence.
Qed.

Lemma encode_utf8_inj (s t : string) : encode_utf8 s = encode_utf8 t -> s = t.
Proof.
  unfold encode_utf8. intros H.
  rewrite <- (string_of_list_ascii_of_string s), <- (string_of_list_ascii_of_string t).
  now rewrite H.
Qed.

Lemma string_of_list_ascii_inj (a b : bytes) :
  string_of_list_ascii a = string_of_list_ascii b -> a = b.
Proof.
  intros H.
  rewrite <- (list_ascii_of_string_of_list_ascii a), <- (list_ascii_of_string_of_list_ascii b).
  now rewrite H.
Qed.

(** The plaintext determines the name and the data: no two records share
    an encoding. *)
Lemma plaintext_inj P c c' :
  PrimitivesOk P -> container_ok P c -> container_ok P c' ->
  plaintext_of P c = plaintext_of P c' ->
  Container.name c = Container.name c' /\ Container.data c = Container.data c'.
Proof.
  intros HP (_ & Hn & Hd) (_ & Hn' & Hd') H. unfold plaintext_of in H.
  apply pad_inj, encode_utf8_inj in H.
  destruct (is_text_str _ Hn) as (n & En & Hs), (is_text_str _ Hn') as (n' & En' & Hs').
  rewrite En, En' in *. clear Hn Hn'. rename Hs into Hn, Hs' into Hn'.
  pose proof (json_inverse HP _ _ Hn (is_str_decoded _ Hd)) as E.
  rewrite H, (json_inverse HP _ _ Hn' (is_str_decoded _ Hd')) in E.
  injection E as E1 E2. split; [congruence|]. now apply string_of_list_ascii_inj.
Qed.

(** C9 (amended). [Container.encrypt] serialises the record as JSON text,
    for which it decodes [data] as UTF-8. For a container with a well-formed
    key and a [str] name: when [data] is not valid UTF-8, [encrypt] raises
    [UnicodeDecodeError]; when it is, [encrypt] succeeds and [from_data] on
    what it wrote returns the name and the bytes of [data] exactly; and the
    serialisation of well-formed containers is unambiguous, the plaintext
    determining both fields. *)
Theorem json_record_roundtrip (P : Primitives) (c : Container.t) (pw : string)
        (w w2 : world) :
  PrimitivesOk P -> key_ok P (Container.key c) -> is_text (Container.name c) = true ->
  (utf8_valid (Container.data c) = false ->
   Container.encrypt P c pw w = (Raise UnicodeDecodeError, w))
  /\ (utf8_valid (Container.data c) = true ->
      exists c1 w1 c2 w3,
        Container.encrypt P c pw w = (Ok (entry_of P c pw, c1), w1)
        /\ Container.from_data P pw (py_str (Container.id c)) (ciphertext_of P c pw)
             (JStr (mac_of P c pw)) (SymmetricKey.salt (Container.key c))
             (SymmetricKey.iv (Container.key c)) w2 = (Ok c2, w3)
        /\ Container.name c2 = Container.name c
        /\ Container.data c2 = Container.data c)
  /\ (forall c', utf8_valid (Container.data c) = true -> container_ok P c' ->
                 plaintext_of P c = plaintext_of P c' ->
                 Container.name c = Container.name c'
                 /\ Container.data c = Container.data c').
Proof.
  intros HP Hk Hn. split; [|split].
  - apply encrypt_invalid_data.
  - intros Hu. assert (Hc : container_ok P c) by (repeat split; auto; apply Hk).
    destruct (encrypt_run P HP c pw w Hc) as (w1 & He & _).
    destruct (from_data_of_encrypt P HP c pw w2 Hc) as (w3 & Hd & _).
    do 4 eexists. split; [exact He|]. split; [exact Hd|]. split; reflexivity.
  - intros c' Hu Hc'. apply plaintext_inj; auto. repeat split; auto; apply Hk.
Qed.

(** C9 as stated fails: a payload that is not UTF-8 cannot be serialised. *)
Lemma encrypt_rejects_arbitrary_bytes :
  let c := {| Container.id := 0; Container.name := JStr "blob";
              Container.key := fresh_key (entropy world0) 0;
              Container.data := ["255"%char; "000"%char; "192"%char] |} in
  key_ok RefPrimitives (Container.key c)
  /\ fst (Container.encrypt RefPrimitives c "password" world0) = Raise UnicodeDecodeError.
Proof. split; [apply fresh_key_ok|reflexivity]. Qed.

Lemma json_record_roundtrip_witness :
  (utf8_valid (Container.data test_container) = false ->
   Container.encrypt RefPrimitives test_container "password" world0
   = (Raise UnicodeDecodeError, world0))
  /\ (utf8_valid (Container.data test_container) = true ->
      exists c1 w1 c2 w3,
        Container.encrypt RefPrimitives test_container "password" world0
        = (Ok (entry_of RefPrimitives test_container "password", c1), w1)
        /\ Container.from_data RefPrimitives "password" "0"
             (ciphertext_of RefPrimitives test_container "password")
             (JStr (mac_of RefPrimitives test_container "password"))
             test_salt test_iv world0 = (Ok c2, w3)
        /\ Container.name c2 = JStr "Test Container"
        /\ Container.data c2 = encode_utf8 "Test Data")
  /\ (forall c', utf8_valid (Container.data test_container) = true ->
                 container_ok RefPrimitives c' ->
                 plaintext_of RefPrimitives test_container = plaintext_of RefPrimitives c' ->
                 Container.name test_container = Container.name c'
                 /\ Container.data test_container = Container.data c').
Proof.
  refine (json_record_roundtrip RefPrimitives test_container "password" world0 world0
            RefPrimitives_ok _ _).
  - apply fresh_key_ok.
  - reflexivity.
Defined.

(** ** Changing the master password *)

Lemma Vault_init_new P pw w :
  Vault.init P pw None w = (Ok (initial_vault pw (entropy w) (drawn w)), after_init w).
Proof. reflexivity. Qed.

Lemma Vault_init_load P pw path w :
  Vault.init P pw (Some path) w
  = Vault.load_from_file P (initial_vault pw (entropy w) (drawn w)) path (after_init w).
Proof. reflexivity. Qed.

Lemma rekey_run l : forall w,
  exists w',
    Vault.rekey l w = (Ok (rekeyed (entropy w) (drawn w) l), w')
    /\ entropy w' = entropy w
    /\ drawn w' = (drawn w + KEY_BYTES * List.length l)%nat
    /\ files w' = files w /\ next_id w' = next_id w.
Proof.
  induction l as [|[i c] l IH]; intros w.
  - exists w. cbn. repeat split; lia.
  - cbn [Vault.rekey rekeyed]. rewrite (bind_ok _ _ _ _ _ _ _ (SymmetricKey_init_fresh w)).
    match goal with |- exists _, bind _ _ ?w1 = _ /\ _ =>
      destruct (IH w1) as (w' & Hr & He & Hd & Hf & Hn) end.
    cbn [entropy drawn files next_id] in *.
    exists w'. rewrite (bind_ok _ _ _ _ _ _ _ Hr).
    replace (drawn w + SALT_SIZE + BLOCK_SIZE)%nat with (drawn w + KEY_BYTES)%nat in *
      by (unfold KEY_BYTES; lia).
    repeat split; auto. rewrite Hd. cbn [List.length]. unfold KEY_BYTES. lia.
Qed.

(** [set_master_password] in closed form: every key object is replaced by
    [SymmetricKey()], each read from its own stretch of the random source. *)
Lemma set_master_password_run v pw w :
  exists w',
    Vault.set_master_password v pw w = (Ok (rotated v pw (entropy w) (drawn w)), w')
    /\ files w' = files w
    /\ drawn w'
       = (drawn w + KEY_BYTES * (1 + List.length (Vault.containers v)
                                 + List.length (Vault.hidden_containers v)))%nat
    /\ entropy w' = entropy w /\ next_id w' = next_id w.
Proof.
  unfold Vault.set_master_password, Vault.regenerate_keys.
  cbn [Vault.containers Vault.hidden_containers Vault.master_password Vault.cloud].
  rewrite (bind_ok _ _ _ _ _ _ _ (SymmetricKey_init_fresh w)).
  match goal with |- exists _, bind _ _ ?w1 = _ /\ _ =>
    destruct (rekey_run (Vault.containers v) w1) as (w2 & Hr & He & Hd & Hf & Hn) end.
  rewrite (bind_ok _ _ _ _ _ _ _ Hr).
  destruct (rekey_run (Vault.hidden_containers v) w2) as (w3 & Hr3 & He3 & Hd3 & Hf3 & Hn3).
  rewrite (bind_ok _ _ _ _ _ _ _ Hr3). cbn [entropy drawn files next_id] in *.
  exists w3. split; [|split; [congruence|split; [|split; congruence]]].
  - unfold ret, rotated. rewrite He, Hd.
    replace (drawn w + SALT_SIZE + BLOCK_SIZE)%nat with (drawn w + KEY_BYTES)%nat
      by (unfold KEY_BYTES; lia).
    reflexivity.
  - rewrite Hd3, Hd. unfold KEY_BYTES. lia.
Qed.

Lemma rekeyed_keys e d l : map fst (rekeyed e d l) = map fst l.
Proof.
  revert d; induction l as [|[i c] l IH]; intros d; simpl; [reflexivity|].
  now rewrite IH.
Qed.

Lemma rekeyed_wf P e d l : dict_wf P l -> dict_wf P (rekeyed e d l).
Proof.
  intros [Hn Hf]. split; [now rewrite rekeyed_keys|].
  clear Hn. revert d; induction Hf as [|[i c] l (Hid & _ & Hnm & Hu) Hl IH]; intros d;
    simpl; constructor; auto.
  cbn in *. repeat split; auto; apply fresh_key_ok.
Qed.

Lemma rekeyed_sign (Q : Z -> Prop) e d l :
  Forall (fun kv => Q (fst kv)) l -> Forall (fun kv => Q (fst kv)) (rekeyed e d l).
Proof.
  intros H. revert d; induction H as [|[i c] l Hx Hl IH]; intros d; simpl;
    constructor; auto.
Qed.

(** The invariant of the vault survives the change of password. *)
Lemma rotated_ok P v pw e d : vault_ok P v -> vault_ok P (rotated v pw e d).
Proof.
  intros (_ & Hc & Hh & Hp & Hn). unfold rotated. split; [apply fresh_key_ok|].
  cbn [Vault.containers Vault.hidden_containers].
  split; [now apply rekeyed_wf|]. split; [now apply rekeyed_wf|]. split.
  - apply (rekeyed_sign (fun i => (0 <= i)%Z)); assumption.
  - apply (rekeyed_sign (fun i => (i < 0)%Z)); assumption.
Qed.

Lemma dict_wf_text P l :
  dict_wf P l -> Forall (fun kv => is_text (Container.name (snd kv)) = true) l.
Proof.
  intros [_ H]. eapply Forall_impl; [|exact H]. intros kv (_ & _ & Hn & _). exact Hn.
Qed.

Lemma rekeyed_same_contents P pw e d l :
  Forall (fun kv => is_text (Container.name (snd kv)) = true) l ->
  same_contents l (map (recache P pw) (rekeyed e d l)).
Proof.
  unfold same_contents. intros H.
  revert d; induction H as [|[i c] l Hc Hl IH]; intros d; cbn [rekeyed map]; constructor.
  - cbn. split; [reflexivity|]. now apply eqb_same.
  - apply IH.
Qed.

Lemma rekeyed_length e d l : List.length (rekeyed e d l) = List.length l.
Proof. rewrite <- (length_map fst), rekeyed_keys. apply length_map. Qed.

(** The container at position [k] of the dict after the loop of
    [regenerate_keys]: the container that was there, with the key read from
    the [k]-th stretch of the random source. *)
Lemma rekeyed_nth e d l : forall k i c,
  nth_error (rekeyed e d l) k = Some (i, c) ->
  Container.key c = fresh_key e (d + KEY_BYTES * k)
  /\ exists c0, nth_error l k = Some (i, c0)
                /\ Container.id c = Container.id c0
                /\ Container.name c = Container.name c0
                /\ Container.data c = Container.data c0.
Proof.
  revert d; induction l as [|[i0 c0] l IH]; intros d [|k] i c; cbn [rekeyed nth_error];
    try discriminate.
  - intros [= <- <-]. split; [|exists c0; repeat split].
    cbn [Container.set_key Container.key]. f_equal. lia.
  - intros H. destruct (IH _ _ _ _ H) as (Hk & Hc). split; [|exact Hc].
    rewrite Hk. f_equal. lia.
Qed.

Section Rotation.
Variable P : Primitives.
Hypothesis HP : PrimitivesOk P.

(** [save_to_file] leaves the document of the vault in the file. *)
Lemma save_to_file_run v path w :
  vault_ok P v ->
  exists v' w',
    Vault.save_to_file P v path w = (Ok v', w')
    /\ files w' path = Some (JsonFile (doc_of P v)).
Proof.
  intros Hv. destruct (vault_encrypt_run P HP v w Hv) as (v' & w1 & He & _).
  unfold Vault.save_to_file. rewrite (bind_ok _ _ _ _ _ _ _ He).
  exists v'. eexists. split; [reflexivity|].
  cbn. now rewrite String.eqb_refl.
Qed.

(** A load of the document of [v] under another password succeeds only
    if the vault tag under that password equals the stored one. *)
Lemma load_doc_inv v self path w v' w' :
  files w path = Some (JsonFile (doc_of P v)) ->
  Vault.load_from_file P self path w = (Ok v', w') ->
  hmac_hexdigest P
    (pbkdf2_hmac P (encode_utf8 (Vault.master_password self))
       (SymmetricKey.salt (Vault.key v)))
    (encode_utf8 (joined_tags (str_keys (container_tags P v))))
  = spec_vault_mac P (vault_key_of P v) (container_tags P v).
Proof.
  intros Hfile H.
  destruct (load_from_file_inv P self path w v' w' H)
    as (doc & its & loaded & w1 & mac & salt & iv & ms & joined
        & Hf & Hc & _ & Hm & Hs & _ & _ & _ & Hms & Hj & E & _).
  rewrite Hfile in Hf. injection Hf as <-.
  rewrite (doc_containers P v) in Hc. injection Hc as <-.
  rewrite (doc_mac P v) in Hm. injection Hm as Hm.
  rewrite (doc_salt P HP v) in Hs. injection Hs as <-.
  pose proof (stored_tags_doc P v) as St. unfold stored_tags in St.
  rewrite Hms, Hj in St. injection St as ->. congruence.
Qed.
End Rotation.

(** C7. [set_master_password(new)] returns the vault [rotated]. It has the
    new password. Its key object and the key object of every container,
    visible and reserved, is a new [SymmetricKey()]: salt and iv are the
    bytes that the random source yields from the position up to which it had
    been read, 48 for each key, one key after the other, so that no byte
    read before is used and no two keys share a byte of the source; no
    derived key is cached. Ids, names and data stay. [save_to_file] then
    succeeds; a vault constructed from the file with the new password loads
    and holds containers with the ids, names and data of the original, key by
    key; and a vault constructed with a password under which the vault tag
    differs from the stored one (every old password, short of an HMAC
    collision) raises [LoadVaultError]. *)
Theorem password_rotation (P : Primitives) (v : Vault.t) (new old path : string)
        (w : world) :
  PrimitivesOk P -> vault_ok P v ->
  let v1 := rotated v new (entropy w) (drawn w) in
  exists w1 v2 w2,
    Vault.set_master_password v new w = (Ok v1, w1)
    /\ (Vault.master_password v1 = new
        /\ SymmetricKey.salt (Vault.key v1) = map (entropy w) (seq (drawn w) SALT_SIZE)
        /\ SymmetricKey.iv (Vault.key v1)
           = map (entropy w) (seq (drawn w + SALT_SIZE) BLOCK_SIZE)
        /\ SymmetricKey.aeskey (Vault.key v1) = None
        /\ List.length (Vault.containers v1) = List.length (Vault.containers v)
        /\ List.length (Vault.hidden_containers v1)
           = List.length (Vault.hidden_containers v)
        /\ (forall k i c,
              nth_error (Vault.containers v1) k = Some (i, c) ->
              let pos := (drawn w + (SALT_SIZE + BLOCK_SIZE) * (1 + k))%nat in
              SymmetricKey.salt (Container.key c) = map (entropy w) (seq pos SALT_SIZE)
              /\ SymmetricKey.iv (Container.key c)
                 = map (entropy w) (seq (pos + SALT_SIZE) BLOCK_SIZE)
              /\ SymmetricKey.aeskey (Container.key c) = None
              /\ exists c0, nth_error (Vault.containers v) k = Some (i, c0)
                            /\ Container.id c = Container.id c0
                            /\ Container.name c = Container.name c0
                            /\ Container.data c = Container.data c0)
        /\ (forall k i c,
              nth_error (Vault.hidden_containers v1) k = Some (i, c) ->
              let pos := (drawn w + (SALT_SIZE + BLOCK_SIZE)
                                    * (1 + List.length (Vault.containers v) + k))%nat in
              SymmetricKey.salt (Container.key c) = map (entropy w) (seq pos SALT_SIZE)
              /\ SymmetricKey.iv (Container.key c)
                 = map (entropy w) (seq (pos + SALT_SIZE) BLOCK_SIZE)
              /\ SymmetricKey.aeskey (Container.key c) = None
              /\ exists c0, nth_error (Vault.hidden_containers v) k = Some (i, c0)
                            /\ Container.id c = Container.id c0
                            /\ Container.name c = Container.name c0
                            /\ Container.data c = Container.data c0)
        /\ drawn w1
           = (drawn w + (SALT_SIZE + BLOCK_SIZE)
                        * (1 + List.length (Vault.containers v)
                           + List.length (Vault.hidden_containers v)))%nat
        /\ entropy w1 = entropy w)
    /\ Vault.save_to_file P v1 path w1 = (Ok v2, w2)
    /\ (exists v3 w3,
           Vault.init P new (Some path) w2 = (Ok v3, w3)
           /\ same_contents (Vault.containers v) (Vault.containers v3)
           /\ same_contents (Vault.hidden_containers v) (Vault.hidden_containers v3))
    /\ (hmac_hexdigest P
          (pbkdf2_hmac P (encode_utf8 old) (SymmetricKey.salt (Vault.key v1)))
          (encode_utf8 (joined_tags (str_keys (container_tags P v1))))
        <> spec_vault_mac P (vault_key_of P v1) (container_tags P v1) ->
        exists m w3, Vault.init P old (Some path) w2 = (Raise (LoadVaultError m), w3)).
Proof.
  intros HP Hv v1.
  destruct (set_master_password_run v new w) as (w1 & Hset & _ & Hdr & Hen & _).
  pose proof (rotated_ok P v new (entropy w) (drawn w) Hv) as Hv1. fold v1 in Hv1, Hset.
  destruct (save_to_file_run P HP v1 path w1 Hv1) as (v2 & w2 & Hsave & Hfile).
  exists w1, v2, w2. split; [exact Hset|]. split; [|split; [exact Hsave|split]].
  - split; [reflexivity|]. split; [reflexivity|]. split; [reflexivity|].
    split; [reflexivity|]. unfold v1, rotated.
    cbn [Vault.containers Vault.hidden_containers].
    split; [apply rekeyed_length|]. split; [apply rekeyed_length|].
    split; [|split; [|split; [exact Hdr|exact Hen]]].
    + intros k i c H. cbv zeta. apply rekeyed_nth in H as (Hk & Hc).
      replace (drawn w + KEY_BYTES + KEY_BYTES * k)%nat
        with (drawn w + (SALT_SIZE + BLOCK_SIZE) * (1 + k))%nat in Hk
        by (unfold KEY_BYTES; lia).
      rewrite Hk. repeat split. exact Hc.
    + intros k i c H. cbv zeta. apply rekeyed_nth in H as (Hk & Hc).
      replace (drawn w + KEY_BYTES + KEY_BYTES * List.length (Vault.containers v)
               + KEY_BYTES * k)%nat
        with (drawn w + (SALT_SIZE + BLOCK_SIZE)
                        * (1 + List.length (Vault.containers v) + k))%nat in Hk
        by (unfold KEY_BYTES; lia).
      rewrite Hk. repeat split. exact Hc.
  - rewrite Vault_init_load.
    destruct (load_doc_run P HP v1 (initial_vault new (entropy w2) (drawn w2)) path
                (after_init w2) Hv1 Hfile eq_refl) as (w3 & Hload & _).
    do 2 eexists. split; [exact Hload|].
    cbn [reloaded Vault.containers Vault.hidden_containers v1 rotated].
    destruct Hv as (_ & Hc & Hh & _).
    split; apply rekeyed_same_contents; eapply dict_wf_text; eassumption.
  - intros Hsep. rewrite Vault_init_load.
    destruct (Vault.load_from_file P (initial_vault old (entropy w2) (drawn w2)) path
                (after_init w2)) as [[v3|e] w3] eqn:H.
    + exfalso. apply Hsep.
      apply (load_doc_inv P HP v1 _ path (after_init w2) v3 w3 Hfile H).
    + apply load_from_file_raises in H. cbn [files after_init] in H.
      rewrite Hfile in H. destruct H as (m & ->). eauto.
Qed.

(** ** The invariants are established and kept by the methods *)

Lemma is_str_empty : is_str "" = true.
Proof. reflexivity. Qed.

Lemma Container_init_ok P (o : option Z) w c w' :
  Container.init o w = (Ok c, w') -> container_ok P c.
Proof.
  rewrite Container_init_run. intros [= <- _].
  split; [apply fresh_key_ok|split; reflexivity].
Qed.

Lemma set_name_ok P c n :
  is_str n = true -> container_ok P c -> container_ok P (Container.set_name c (JStr n)).
Proof. intros Hn (Hk & _ & Hd). repeat split; auto; apply Hk. Qed.

Lemma container_ok_sound P c : container_ok P c -> container_sound P c.
Proof. intros (Hk & _ & Hd). now split. Qed.

Lemma set_data_ok P c d :
  is_str d = true -> container_ok P c -> container_ok P (Container.set_data c d).
Proof. intros Hd (Hk & Hn & _). repeat split; auto; apply Hk. Qed.

Lemma encrypt_keeps_ok P c pw w e c' w' :
  PrimitivesOk P -> container_ok P c ->
  Container.encrypt P c pw w = (Ok (e, c'), w') -> container_ok P c'.
Proof.
  intros HP Hc H. destruct (encrypt_run P HP c pw w Hc) as (w1 & E & _).
  rewrite E in H. injection H as _ <- _.
  destruct Hc as ((Hs & Hi & _) & Hn & Hd).
  split; [now apply cached_ok|split; assumption].
Qed.

Section FromDataOk.
Variable P : Primitives.
Hypothesis HP : PrimitivesOk P.

Lemma loads_inv s w j w' :
  loads P s w = (Ok j, w') -> json_loads P s = Some j.
Proof.
  unfold loads. rewrite bind_log.
  destruct (json_loads P s); [now intros [= <- _]|discriminate].
Qed.

Lemma after_compare_ok pw n ct salt iv fresh w c w' :
  after_compare P pw n ct salt iv fresh w = (Ok c, w') ->
  Container.id c = n /\ Container.key c = loaded_key P pw salt iv
  /\ utf8_valid (Container.data c) = true
  /\ exists text j,
       json_loads P text = Some j /\ getitem j "name" = Ok (Container.name c).
Proof.
  unfold after_compare. intros H.
  apply bind_inv_ok in H as (cipher & w1 & _ & H).
  apply bind_inv_ok in H as (u & w2 & _ & H).
  apply bind_inv_ok in H as (pt & w3 & _ & H).
  apply bind_inv_ok in H as (u' & w4 & _ & H).
  apply bind_inv_ok in H as (pt' & w5 & _ & H).
  apply bind_inv_ok in H as (text & w6 & _ & H).
  apply bind_inv_ok in H as (j & w7 & Hj & H). apply loads_inv in Hj.
  apply bind_inv_ok in H as (nm & w8 & Hn & H). apply lift_inv_ok in Hn as [Hn ->].
  apply bind_inv_ok in H as (d & w8 & Hd & H). apply lift_inv_ok in Hd as [Hd ->].
  apply bind_inv_ok in H as (c2 & w8 & Hc2 & H).
  destruct d as [| | |d| |]; try discriminate. injection Hc2 as <- <-.
  injection H as <- _. cbn. repeat split.
  - eapply (@json_loads_str P HP); eassumption.
  - eauto.
Qed.

(** A container that [from_data] returns has a well-formed key, readable
    data and the id that [int(id)] gave. *)
Lemma from_data_ok pw id ct mac salt iv w c w' :
  Container.from_data P pw id ct mac salt iv w = (Ok c, w') ->
  container_sound P c /\ py_int P id = Ok (Container.id c).
Proof.
  intros H. pose proof H as H0. unfold Container.from_data in H0.
  destruct ((negb (List.length salt =? SALT_SIZE)
             || negb (List.length iv =? BLOCK_SIZE))%nat) eqn:Hlen; [discriminate|].
  apply orb_false_iff in Hlen as [Hl1 Hl2].
  apply negb_false_iff, Nat.eqb_eq in Hl1, Hl2.
  destruct (py_int P id) as [n|e0] eqn:Hn; [|discriminate]. clear H0.
  rewrite (from_data_to_compare P HP pw id n ct mac salt iv w Hl1 Hl2 Hn) in H.
  destruct mac as [| | |s| |]; try discriminate.
  destruct (is_ascii s); [|discriminate].
  destruct (String.eqb _ s); [|discriminate].
  apply after_compare_ok in H as (Hid & Hk & Hd & _).
  split; [|congruence]. split; [|assumption].
  rewrite Hk. repeat split; assumption.
Qed.
End FromDataOk.

Lemma initial_vault_ok P pw e d : vault_ok P (initial_vault pw e d).
Proof.
  unfold initial_vault, vault_ok, dict_wf.
  cbn [Vault.key Vault.containers Vault.hidden_containers map fst snd].
  split; [apply fresh_key_ok|]. split; [split; constructor|]. split; [split|].
  - repeat constructor; simpl; intuition discriminate.
  - repeat constructor; apply fresh_key_ok.
  - split; repeat constructor.
Qed.

Lemma is_ascii_py_str z : is_ascii (py_str z) = true.
Proof.
  assert (H : forall u, is_ascii (NilEmpty.string_of_uint u) = true).
  { induction u; cbn [NilEmpty.string_of_uint]; try reflexivity;
      unfold is_ascii in *; cbn [list_ascii_of_string forallb];
      rewrite IHu; reflexivity. }
  unfold py_str. destruct z as [|p|p]; [reflexivity| |].
  - cbn [Z.to_int NilZero.string_of_int]. unfold NilZero.string_of_uint.
    destruct (Pos.to_uint p) eqn:E; try reflexivity; rewrite <- E; apply H.
  - cbn [Z.to_int NilZero.string_of_int]. unfold NilZero.string_of_uint.
    change (String "-" ?s) with ("-" ++ s)%string.
    destruct (Pos.to_uint p) eqn:E; try reflexivity;
      rewrite <- E; now rewrite is_ascii_app, H.
Qed.

Lemma is_ascii_is_str s : is_ascii s = true -> is_str s = true.
Proof. apply ascii_utf8_valid. Qed.

(** [add_container] keeps the vault well formed. *)
Lemma add_container_ok P v n d w c v' w' :
  vault_ok P v -> vault_in_world v w -> is_str n = true -> is_str d = true ->
  Vault.add_container v n d w = (Ok (c, v'), w') ->
  vault_ok P v' /\ vault_in_world v' w' /\ container_ok P c.
Proof.
  intros (Hk & [Hnd Hf] & Hh & Hp & Hm) [Hlt H0] Hn Hd H.
  unfold Vault.add_container in H. rewrite (bind_ok _ _ _ _ _ _ _ (Container_init_run None w)) in H.
  unfold ret in H. injection H as <- <- <-.
  cbn [Container.get_id Container.id Container.set_data Container.set_name
       Container.key Container.name Container.data].
  set (nm := if String.eqb n "" then ("Container " ++ py_str (next_id w))%string else n).
  assert (Hnm : is_str nm = true).
  { subst nm. destruct (String.eqb n ""); [|assumption].
    apply is_ascii_is_str. now rewrite is_ascii_app, is_ascii_py_str. }
  set (c := {| Container.id := next_id w; Container.name := JStr nm;
               Container.key := fresh_key (entropy w) (drawn w);
               Container.data := encode_utf8 d |}).
  assert (Hc : container_ok P c) by (split; [apply fresh_key_ok|split; assumption]).
  assert (Hfresh : ~ In (next_id w) (map fst (Vault.containers v))).
  { intros Hin. apply in_map_iff in Hin as ([k x] & E & Hin). cbn in E. subst k.
    rewrite Forall_forall in Hlt. specialize (Hlt _ Hin). cbn in Hlt. lia. }
  rewrite (dict_set_fresh _ _ Z.eqb Zeqb_spec' _ _ _ Hfresh).
  unfold vault_ok, dict_wf, vault_in_world.
  cbn [Vault.containers Vault.hidden_containers Vault.key next_id].
  split; [|split; [|exact Hc]].
  - split; [exact Hk|]. split; [|split; [exact Hh|split; [|exact Hm]]].
    + split.
      * rewrite map_app. apply NoDup_app; auto.
        -- repeat constructor. intros [].
        -- intros k Hk1 [<-|[]]. contradiction.
      * apply Forall_app. split; [exact Hf|]. repeat constructor; apply Hc.
    + apply Forall_app. split; [exact Hp|]. repeat constructor. exact H0.
  - split; cbn [next_id].
    + apply Forall_app. split.
      * eapply Forall_impl; [|exact Hlt]. intros; cbn in *; lia.
      * repeat constructor. cbn. lia.
    + lia.
Qed.

Lemma dict_remove_incl (V : Type) (d : list (Z * V)) i x :
  In x (dict_remove Z.eqb d i) -> In x d.
Proof.
  induction d as [|[k v] d IH]; simpl; [tauto|].
  destruct (Z.eqb k i); simpl; tauto.
Qed.

Lemma dict_remove_nodup (V : Type) (d : list (Z * V)) i :
  NoDup (map fst d) -> NoDup (map fst (dict_remove Z.eqb d i)).
Proof.
  induction d as [|[k v] d IH]; simpl; intros H; [constructor|].
  inversion H as [|? ? Hk Hd]; subst.
  destruct (Z.eqb k i); [assumption|]. simpl. constructor; auto.
  intros Hin. apply Hk. apply in_map_iff in Hin as (x & E & Hx).
  apply in_map_iff. exists x. split; [assumption|]. eapply dict_remove_incl; eassumption.
Qed.

(** [remove_container] keeps the vault well formed. *)
Lemma remove_container_ok P v i w v' w' :
  vault_ok P v -> Vault.remove_container v i w = (Ok v', w') -> vault_ok P v'.
Proof.
  intros (Hk & [Hnd Hf] & Hh & Hp & Hm) H. unfold Vault.remove_container in H.
  destruct (dict_get Z.eqb (Vault.containers v) i); [|discriminate].
  injection H as <- _. split; [exact Hk|].
  cbn [Vault.containers Vault.hidden_containers].
  split; [|split; [exact Hh|split; [|exact Hm]]].
  - split; [now apply dict_remove_nodup|].
    rewrite Forall_forall in *. intros x Hx. apply Hf. eapply dict_remove_incl; eassumption.
  - rewrite Forall_forall in *. intros x Hx. apply Hp. eapply dict_remove_incl; eassumption.
Qed.

(** * The test suite's vault *)

(** [test_vault] is what the constructor and [add_container] build. *)
Lemma test_vault_built :
  exists c w,
    bind (Vault.init RefPrimitives "master_password" None)
         (fun v => Vault.add_container v "Test Container" "Test Data") world0
    = (Ok (c, test_vault), w).
Proof. do 2 eexists. vm_compute. reflexivity. Qed.

Lemma test_vault_ok : vault_ok RefPrimitives test_vault.
Proof.
  destruct (initial_vault_ok RefPrimitives "master_password" (entropy world0) 0)
    as (Hk & _ & Hh & _ & Hm).
  split; [exact Hk|]. split; [|split; [exact Hh|split; [|exact Hm]]].
  - split; [repeat constructor; intros []|].
    repeat constructor; apply fresh_key_ok.
  - repeat constructor. discriminate.
Qed.

Lemma tampered_tag_fails :
  tag_fails RefPrimitives "master_password" "0" tampered_entry.
Proof.
  exists (JStr (b64encode RefPrimitives
                  (ciphertext_of RefPrimitives vault_container "master_password"))),
         (ciphertext_of RefPrimitives vault_container "master_password"),
         (JStr bad_tag),
         (SymmetricKey.salt (Container.key vault_container)),
         (SymmetricKey.iv (Container.key vault_container)).
  repeat split; try (vm_compute; reflexivity).
  vm_compute. discriminate.
Defined.

(** C5 on the vault of the test suite. *)
Lemma vault_mac_formula_witness :
  (exists v1 w1,
      Vault.encrypt RefPrimitives test_vault world0
      = (Ok (doc_of RefPrimitives test_vault, v1), w1)
      /\ getitem (doc_of RefPrimitives test_vault) "mac"
         = Ok (JStr (spec_vault_mac RefPrimitives (vault_key_of RefPrimitives test_vault)
                       (container_tags RefPrimitives test_vault))))
  /\ (exists w',
         Vault.load_from_file RefPrimitives test_self "vault.json"
           (world_with "vault.json" (doc_of RefPrimitives test_vault))
         = (Ok (reloaded RefPrimitives test_vault None), w')).
Proof.
  destruct (vault_mac_formula RefPrimitives test_vault test_self "vault.json" world0
              (world_with "vault.json" (doc_of RefPrimitives test_vault))
              RefPrimitives_ok test_vault_ok) as (He & _ & Hl & _).
  split; [exact He|]. apply Hl; reflexivity.
Defined.

(** C4 on the vault of the test suite: the entry of container 0 removed,
    and an entry that verifies on its own added. *)
Lemma load_detects_added_or_removed_entry_witness :
  (exists m w',
      Vault.load_from_file RefPrimitives test_self "vault.json"
        (world_with "vault.json" (with_entries RefPrimitives test_vault entries_removed))
      = (Raise (LoadVaultError m), w'))
  /\ (exists m w',
         Vault.load_from_file RefPrimitives test_self "vault.json"
           (world_with "vault.json" (with_entries RefPrimitives test_vault entries_added))
         = (Raise (LoadVaultError m), w'))
  /\ (exists cs w',
         mapM (fun kv => Vault.load_entry RefPrimitives "master_password" (fst kv) (snd kv))
              entries_added world0 = (Ok cs, w')).
Proof.
  split; [|split].
  - refine (load_detects_added_or_removed_entry RefPrimitives test_vault test_self
              entries_removed "vault.json" _ RefPrimitives_ok test_vault_ok _ _ _ _).
    + exists (hd ("", JNull) (doc_entries RefPrimitives test_vault)), [], entries_removed.
      right. split; reflexivity.
    + reflexivity.
    + reflexivity.
    + intros j Hj Hne. vm_compute in Hj. injection Hj as <-. vm_compute. discriminate.
  - refine (load_detects_added_or_removed_entry RefPrimitives test_vault test_self
              entries_added "vault.json" _ RefPrimitives_ok test_vault_ok _ _ _ _).
    + exists ("1", entry_of RefPrimitives other_container "master_password"),
             (doc_entries RefPrimitives test_vault), [].
      left. split; [symmetry; apply app_nil_r|reflexivity].
    + reflexivity.
    + reflexivity.
    + intros j Hj Hne. vm_compute in Hj. injection Hj as <-. vm_compute. discriminate.
  - do 2 eexists. vm_compute. reflexivity.
Defined.

(** C6 on the vault of the test suite. *)
Lemma load_wraps_container_failure_witness :
  exists w',
    Vault.load_from_file RefPrimitives test_self "vault.json"
      (world_with "vault.json" tampered_doc)
    = (Raise (LoadVaultError Vault.load_failed_msg), w').
Proof.
  refine (load_wraps_container_failure RefPrimitives test_self "vault.json" _ tampered_doc
            (("0", tampered_entry) :: tl (doc_entries RefPrimitives test_vault))
            "0" tampered_entry RefPrimitives_ok _ _ _ tampered_tag_fails).
  - reflexivity.
  - reflexivity.
  - left. reflexivity.
Defined.

(** C6 as stated fails: the tag of the entry of container 0 does not
    verify, [from_data] raises the [LoadContainerError] that names id 0, and
    [load_from_file] raises a [LoadVaultError] whose message names no
    container. *)
Lemma load_replaces_container_error :
  fst (Vault.load_entry RefPrimitives "master_password" "0" tampered_entry world0)
  = Raise (LoadContainerError (Container.integrity_msg "0"))
  /\ fst (Vault.load_from_file RefPrimitives test_self "vault.json"
            (world_with "vault.json" tampered_doc))
     = Raise (LoadVaultError
                "Could not load vault: Password may be incorrect or the file may have been tampered with.").
Proof. split; vm_compute; reflexivity. Qed.

(** C10 on the vault of the test suite: a tag that does not verify, and an
    id that the document does not hold. *)
Lemma fetch_container_wraps_errors_witness :
  (exists w',
      Vault.fetch_container RefPrimitives "0" "master_password" "vault.json"
        (world_with "vault.json" tampered_doc)
      = (Raise (LoadVaultError "There was an error fetching the container with ID 0"), w'))
  /\ (exists w',
         Vault.fetch_container RefPrimitives "7" "master_password" "vault.json"
           (world_with "vault.json" tampered_doc)
         = (Raise (LoadVaultError "There was an error fetching the container with ID 7"), w')).
Proof.
  split.
  - destruct (fetch_container_wraps_errors RefPrimitives "0" "master_password" "vault.json"
                (world_with "vault.json" tampered_doc) RefPrimitives_ok)
      as (r & w' & E & _ & _ & H & _).
    exists w'. rewrite E. f_equal.
    apply (H tampered_doc
             (JDict (("0", tampered_entry) :: tl (doc_entries RefPrimitives test_vault)))
             tampered_entry); [reflexivity|reflexivity|].
    right. split; [reflexivity|]. right. exact tampered_tag_fails.
  - destruct (fetch_container_wraps_errors RefPrimitives "7" "master_password" "vault.json"
                (world_with "vault.json" tampered_doc) RefPrimitives_ok)
      as (r & w' & E & _ & _ & H & _).
    exists w'. rewrite E. f_equal.
    apply (H tampered_doc
             (JDict (("0", tampered_entry) :: tl (doc_entries RefPrimitives test_vault)))
             JNull); [reflexivity|reflexivity|].
    left. eexists. vm_compute. reflexivity.
Defined.

(** C10 as stated fails: the tag of the entry of container 0 does not
    verify, and the message of the [LoadVaultError] that [fetch_container]
    raises ends with the id that was asked for. *)
Lemma fetch_error_names_id :
  tag_fails RefPrimitives "master_password" "0" tampered_entry
  /\ getitem tampered_doc "containers"
     = Ok (JDict (("0", tampered_entry) :: tl (doc_entries RefPrimitives test_vault)))
  /\ exists pre,
       fst (Vault.fetch_container RefPrimitives "0" "master_password" "vault.json"
              (world_with "vault.json" tampered_doc))
       = Raise (LoadVaultError (pre ++ "0")).
Proof.
  split; [exact tampered_tag_fails|]. split; [reflexivity|].
  exists "There was an error fetching the container with ID ".
  vm_compute. reflexivity.
Qed.

(** C7 on the vault of the test suite, in the process that has built it:
    the password "master_password" is replaced by "new_password". The four
    new salts are the stretches of the random source from byte 192 on, and
    they differ from one another and from the four salts that the vault had. *)
Lemma password_rotation_witness :
  let v1 := rotated test_vault "new_password" (entropy test_world) (drawn test_world) in
  let salts (v : Vault.t) :=
    SymmetricKey.salt (Vault.key v)
    :: map (fun kv => SymmetricKey.salt (Container.key (snd kv)))
           (Vault.containers v ++ Vault.hidden_containers v) in
  exists w1 v2 w2,
    Vault.set_master_password test_vault "new_password" test_world = (Ok v1, w1)
    /\ salts v1
       = [map (entropy world0) (seq 192 32); map (entropy world0) (seq 240 32);
          map (entropy world0) (seq 288 32); map (entropy world0) (seq 336 32)]
    /\ NoDup (salts v1 ++ salts test_vault)
    /\ drawn w1 = 384%nat
    /\ Vault.save_to_file RefPrimitives v1 "vault.json" w1 = (Ok v2, w2)
    /\ (exists v3 w3,
           Vault.init RefPrimitives "new_password" (Some "vault.json") w2 = (Ok v3, w3)
           /\ same_contents (Vault.containers test_vault) (Vault.containers v3)
           /\ same_contents (Vault.hidden_containers test_vault)
                (Vault.hidden_containers v3))
    /\ (exists m w3,
           Vault.init RefPrimitives "master_password" (Some "vault.json") w2
           = (Raise (LoadVaultError m), w3)).
Proof.
  intros v1 salts.
  destruct (password_rotation RefPrimitives test_vault "new_password" "master_password"
              "vault.json" test_world RefPrimitives_ok test_vault_ok)
    as (w1 & v2 & w2 & Hset & Hkeys & Hsave & Hnew & Hold).
  destruct Hkeys as (_ & _ & _ & _ & _ & _ & _ & _ & Hdr & _).
  exists w1, v2, w2. split; [exact Hset|]. split; [vm_compute; reflexivity|].
  split; [|split; [|split; [exact Hsave|split; [exact Hnew|]]]].
  - vm_compute.
    repeat (constructor;
            [simpl; intros H; repeat (destruct H as [H|H]; [discriminate H|]); exact H|]).
    constructor.
  - rewrite Hdr. vm_compute. reflexivity.
  - apply Hold. vm_compute. discriminate.
Defined.

(** C8 in the process that has built one vault: the next container gets
    id 0, and a session of five calls returns ids without repetition. *)
Lemma allocated_ids_are_fresh_witness :
  (exists c w', Container.init None (after_init world0) = (Ok c, w')
     /\ Container.id c = 0%Z /\ next_id w' = 1%Z)
  /\ (exists ids w',
         session test_session test_self (after_init world0) = (Ok ids, w')
         /\ NoDup ids).
Proof.
  assert (Hw : watermark_ok (after_init world0)) by (repeat constructor).
  destruct (allocated_ids_are_fresh None test_session test_self (after_init world0) Hw)
    as ((c & w' & Hi & _ & _ & Hn) & (ids & w2 & Hs & Hnd & _)).
  split.
  - exists c, w'. split; [exact Hi|]. destruct (Hn eq_refl) as (Hid & _ & Hnx).
    split; [exact Hid|exact Hnx].
  - exists ids, w2. split; [exact Hs|exact Hnd].
Defined.

(** C8 as stated fails: ids given explicitly repeat. Two vaults built in
    one process each construct the containers -1 and -2. *)
Lemma explicit_ids_repeat :
  let w1 := after_init world0 in
  let w2 := after_init w1 in
  Vault.init RefPrimitives "a" None world0
  = (Ok (initial_vault "a" (entropy world0) (drawn world0)), w1)
  /\ Vault.init RefPrimitives "b" None w1
     = (Ok (initial_vault "b" (entropy w1) (drawn w1)), w2)
  /\ constructed w2 = [(-2)%Z; (-1)%Z; (-2)%Z; (-1)%Z]
  /\ ~ NoDup (constructed w2).
Proof.
  cbv zeta. split; [apply Vault_init_new|]. split; [apply Vault_init_new|].
  split; [reflexivity|].
  change (constructed (after_init (after_init world0)))
    with [(-2)%Z; (-1)%Z; (-2)%Z; (-1)%Z].
  intros H. inversion H as [|? ? Hn _]. apply Hn. right. left. reflexivity.
Qed.

(** * Further properties of the code *)

(** ** [SymmetricKey] *)

(** [generate_aes_key] derives once per password: the first call returns a
    key and leaves it cached; a second call with the same password returns
    that key and does nothing else; a call with another password runs PBKDF2
    again and replaces the cache. Salt and iv are never changed. *)
Theorem generate_aes_key_caches (P : Primitives) (k : SymmetricKey.t)
        (pw pw' : string) (w : world) :
  exists key k1 w1,
    SymmetricKey.generate_aes_key P k pw w = (Ok (key, k1), w1)
    /\ SymmetricKey.salt k1 = SymmetricKey.salt k
    /\ SymmetricKey.iv k1 = SymmetricKey.iv k
    /\ (cache_ok P k -> key = pbkdf2_hmac P (encode_utf8 pw) (SymmetricKey.salt k))
    /\ SymmetricKey.generate_aes_key P k1 pw w1 = (Ok (key, k1), w1)
    /\ (pw' <> pw ->
        exists w2,
          SymmetricKey.generate_aes_key P k1 pw' w1
          = (Ok (pbkdf2_hmac P (encode_utf8 pw') (SymmetricKey.salt k),
                 cached P k pw'), w2)
          /\ events w2 = EvPbkdf2 :: events w1).
Proof.
  assert (Hd : forall k0 p w0,
             (SymmetricKey.aeskey k0 = None \/ SymmetricKey.prev_password k0 = None
              \/ exists q, SymmetricKey.prev_password k0 = Some q /\ q <> p) ->
             exists w2,
               SymmetricKey.generate_aes_key P k0 p w0
               = (Ok (pbkdf2_hmac P (encode_utf8 p) (SymmetricKey.salt k0),
                      cached P k0 p), w2)
               /\ events w2 = EvPbkdf2 :: events w0).
  { intros k0 p w0 H. unfold SymmetricKey.generate_aes_key.
    destruct (SymmetricKey.aeskey k0) as [kk|] eqn:Ea;
      destruct (SymmetricKey.prev_password k0) as [q|] eqn:Ep;
      try (eexists; split; reflexivity).
    destruct H as [H|[H|(q' & [= <-] & Hq)]]; try discriminate.
    destruct (String.eqb_spec q p) as [->|_]; [congruence|].
    eexists; split; reflexivity. }
  unfold SymmetricKey.generate_aes_key at 1.
  destruct (SymmetricKey.aeskey k) as [kk|] eqn:Ea;
    destruct (SymmetricKey.prev_password k) as [q|] eqn:Ep.
  1: destruct (String.eqb_spec q pw) as [->|Hne].
  1: { (* the cache holds the key of [pw] *)
       exists kk, k, w. split; [reflexivity|]. split; [reflexivity|]. split; [reflexivity|].
       split; [|split].
       - unfold cache_ok. now rewrite Ea, Ep.
       - unfold SymmetricKey.generate_aes_key. now rewrite Ea, Ep, String.eqb_refl.
       - intros Hpw. apply Hd. right. right. exists pw. split; [exact Ep|congruence]. }
  all: (eexists _, _, _; split; [reflexivity|]; split; [reflexivity|];
        split; [reflexivity|]; split; [reflexivity|]; split;
        [unfold SymmetricKey.generate_aes_key, cached;
         cbn [SymmetricKey.aeskey SymmetricKey.prev_password SymmetricKey.salt
              SymmetricKey.iv];
         now rewrite String.eqb_refl
        |intros Hpw;
         match goal with
         | |- exists _, SymmetricKey.generate_aes_key _ ?k1 _ ?w1 = _ /\ _ =>
           destruct (Hd k1 pw' w1) as (w2 & E & Ev);
             [right; right; exists pw; split; [reflexivity|congruence]|];
             exists w2; split; [exact E|exact Ev]
         end]).
Qed.

(** The key object rebuilt from what [get_key_json] writes has the salt and
    the iv of the original and no cached key, and reads no random bytes:
    [SymmetricKey(b64decode(j["salt"]), b64decode(j["iv"]))] for
    [j = k.get_key_json()], when the salt and the iv of [k] are not empty. *)
Theorem get_key_json_roundtrip (P : Primitives) (k : SymmetricKey.t) (w : world) :
  PrimitivesOk P ->
  SymmetricKey.salt k <> [] -> SymmetricKey.iv k <> [] ->
  exists s i,
    b64field P (JDict [("key", SymmetricKey.get_key_json P k)]) "key" "salt" = Ok s
    /\ b64field P (JDict [("key", SymmetricKey.get_key_json P k)]) "key" "iv" = Ok i
    /\ SymmetricKey.init (Some s) (Some i) w
       = (Ok {| SymmetricKey.salt := SymmetricKey.salt k;
                SymmetricKey.iv := SymmetricKey.iv k;
                SymmetricKey.aeskey := None;
                SymmetricKey.prev_password := None |}, w).
Proof.
  intros HP Hs Hi. exists (SymmetricKey.salt k), (SymmetricKey.iv k).
  unfold b64field, SymmetricKey.get_key_json.
  cbn [getitem dict_get String.eqb Ascii.eqb Bool.eqb b64decode_json].
  rewrite !(b64_inverse HP). repeat split.
  apply SymmetricKey_init_given; assumption.
Qed.

Lemma get_key_json_roundtrip_witness :
  exists s i,
    b64field RefPrimitives
      (JDict [("key", SymmetricKey.get_key_json RefPrimitives (Container.key test_container))])
      "key" "salt" = Ok s
    /\ b64field RefPrimitives
         (JDict [("key", SymmetricKey.get_key_json RefPrimitives (Container.key test_container))])
         "key" "iv" = Ok i
    /\ SymmetricKey.init (Some s) (Some i) world0
       = (Ok {| SymmetricKey.salt := test_salt; SymmetricKey.iv := test_iv;
                SymmetricKey.aeskey := None;
                SymmetricKey.prev_password := None |}, world0).
Proof.
  refine (get_key_json_roundtrip RefPrimitives (Container.key test_container) world0
            RefPrimitives_ok _ _); vm_compute; discriminate.
Defined.

(** ** Computations that touch nothing but the log *)

Lemma frame_refl w : frame w w.
Proof. repeat split. Qed.

Lemma frame_trans w1 w2 w3 : frame w1 w2 -> frame w2 w3 -> frame w1 w3.
Proof.
  intros (A1 & A2 & A3 & A4 & A5) (B1 & B2 & B3 & B4 & B5).
  repeat split; congruence.
Qed.

Lemma logs_only_ret (A : Type) (a : A) : logs_only (ret a).
Proof. intros w. apply frame_refl. Qed.

Lemma logs_only_raise (A : Type) (e : exn) : logs_only (@raise A e).
Proof. intros w. apply frame_refl. Qed.

Lemma logs_only_lift (A : Type) (r : result A) : logs_only (lift r).
Proof. intros w. apply frame_refl. Qed.

Lemma logs_only_log (ev : event) :
  (forall i, ev <> EvNewContainer i) -> logs_only (log ev).
Proof.
  intros H w. repeat split. unfold constructed. cbn [log snd events constructed_ids].
  destruct ev; try reflexivity. now destruct (H id).
Qed.

Lemma logs_only_bind (A B : Type) (m : M A) (k : A -> M B) :
  logs_only m -> (forall a, logs_only (k a)) -> logs_only (bind m k).
Proof.
  intros Hm Hk w. unfold bind. specialize (Hm w).
  destruct (m w) as [[a|e] w1]; cbn [snd] in *; [|exact Hm].
  eapply frame_trans; [exact Hm|apply Hk].
Qed.

Lemma logs_only_try_except (A : Type) (m : M A) (h : exn -> M A) :
  logs_only m -> (forall e, logs_only (h e)) -> logs_only (try_except m h).
Proof.
  intros Hm Hh w. unfold try_except. specialize (Hm w).
  destruct (m w) as [[a|e] w1]; cbn [snd] in *; [exact Hm|].
  eapply frame_trans; [exact Hm|apply Hh].
Qed.

Lemma logs_only_mapM (A B : Type) (f : A -> M B) (l : list A) :
  (forall a, logs_only (f a)) -> logs_only (mapM f l).
Proof.
  intros Hf. induction l as [|a l IH]; cbn [mapM]; [apply logs_only_ret|].
  apply logs_only_bind; [apply Hf|]. intros b.
  apply logs_only_bind; [exact IH|]. intros bs. apply logs_only_ret.
Qed.

Ltac logs_only_step :=
  lazymatch goal with
  | |- logs_only (ret _) => apply logs_only_ret
  | |- logs_only (raise _) => apply logs_only_raise
  | |- logs_only (lift _) => apply logs_only_lift
  | |- logs_only (log _) => apply logs_only_log; discriminate
  | |- logs_only (bind _ _) => apply logs_only_bind; [|intros ?]
  end.

Lemma logs_only_generate_aes_key P k pw :
  logs_only (SymmetricKey.generate_aes_key P k pw).
Proof.
  unfold SymmetricKey.generate_aes_key.
  destruct (SymmetricKey.aeskey k); destruct (SymmetricKey.prev_password k);
    try destruct (String.eqb _ _); repeat logs_only_step.
Qed.

Lemma logs_only_hmac_new P key msg : logs_only (hmac_new P key msg).
Proof. unfold hmac_new. repeat logs_only_step. Qed.

Lemma logs_only_compare_digest a b : logs_only (compare_digest a b).
Proof.
  unfold compare_digest. logs_only_step; [logs_only_step|].
  destruct b; try logs_only_step. destruct (_ && _); logs_only_step.
Qed.

Lemma logs_only_loads P s : logs_only (loads P s).
Proof.
  unfold loads. logs_only_step; [logs_only_step|].
  destruct (json_loads P s); logs_only_step.
Qed.

Lemma logs_only_after_compare P pw n ct salt iv fresh :
  logs_only (after_compare P pw n ct salt iv fresh).
Proof.
  unfold after_compare.
  repeat first [ apply logs_only_loads
               | logs_only_step
               | match goal with
                 | |- logs_only (match ?x with _ => _ end) => destruct x
                 end ].
Qed.

Lemma logs_only_encrypt P c pw : logs_only (Container.encrypt P c pw).
Proof.
  unfold Container.encrypt.
  repeat first [ apply logs_only_generate_aes_key | apply logs_only_hmac_new
               | logs_only_step
               | match goal with
                 | |- logs_only (match ?x with _ => _ end) => destruct x
                 end ].
Qed.

(** ** [Container.from_data]: what a failed call leaves behind *)

(** Once the lengths and the id have been accepted, [from_data] has
    constructed a container, whatever follows. *)
Lemma from_data_run_effects (P : Primitives) pw id n ct mac salt iv w :
  PrimitivesOk P ->
  List.length salt = SALT_SIZE -> List.length iv = BLOCK_SIZE -> py_int P id = Ok n ->
  exists r w',
    Container.from_data P pw id ct mac salt iv w = (r, w')
    /\ next_id w' = Z.max (next_id w) (n + 1)
    /\ drawn w' = (drawn w + SALT_SIZE + BLOCK_SIZE)%nat
    /\ constructed w' = n :: constructed w
    /\ files w' = files w
    /\ entropy w' = entropy w
    /\ (mac <> JStr (recomputed_mac P pw id ct salt) -> exists e, r = Raise e).
Proof.
  intros HP Hs Hi Hn.
  rewrite (from_data_to_compare P HP pw id n ct mac salt iv w Hs Hi Hn).
  assert (Hfr : forall r w', after_compare P pw n ct salt iv
                               (fresh_key (entropy w) (drawn w)) (at_compare w n)
                             = (r, w') -> frame (at_compare w n) w').
  { intros r w' E.
    pose proof (logs_only_after_compare P pw n ct salt iv
                  (fresh_key (entropy w) (drawn w)) (at_compare w n)) as F.
    now rewrite E in F. }
  destruct mac as [| | |s| |];
    try (do 2 eexists; split; [reflexivity|]; repeat split; intros; eauto; fail).
  destruct (is_ascii s);
    [|do 2 eexists; split; [reflexivity|]; repeat split; intros; eauto].
  destruct (String.eqb_spec (recomputed_mac P pw id ct salt) s) as [<-|Hne];
    [|do 2 eexists; split; [reflexivity|]; repeat split; intros; eauto].
  destruct (after_compare P pw n ct salt iv (fresh_key (entropy w) (drawn w))
              (at_compare w n)) as [r w'] eqn:E.
  destruct (Hfr r w' eq_refl) as (F1 & F2 & F3 & F4 & F5).
  exists r, w'. split; [reflexivity|]. rewrite F1, F2, F3, F4, F5.
  repeat split. intros Hm. now destruct Hm.
Qed.

(** [from_data] checks the lengths of salt and iv first and then calls
    [int(id)]: when the lengths are wrong it raises [ValueError("Invalid
    data")], when [int(id)] raises it raises the [ValueError] of [int], and
    in both cases nothing has happened. When [int(id)] returns, a
    [Container] has been constructed, whatever follows: the id counter is at
    least [int(id) + 1], 48 random bytes have been read for a key that is
    thrown away, and in particular a call that fails the tag check has moved
    the counter. *)
Theorem from_data_failure_effects (P : Primitives) (pw id : string) (ct : bytes)
        (mac : json) (salt iv : bytes) (w : world) :
  PrimitivesOk P ->
  (List.length salt <> SALT_SIZE \/ List.length iv <> BLOCK_SIZE ->
   Container.from_data P pw id ct mac salt iv w = (Raise (ValueError "Invalid data"), w))
  /\ (List.length salt = SALT_SIZE -> List.length iv = BLOCK_SIZE ->
      (forall e, py_int P id = Raise e ->
                 Container.from_data P pw id ct mac salt iv w = (Raise e, w)
                 /\ exists m, e = ValueError m)
      /\ (forall n, py_int P id = Ok n ->
            exists r w',
              Container.from_data P pw id ct mac salt iv w = (r, w')
              /\ next_id w' = Z.max (next_id w) (n + 1)
              /\ drawn w' = (drawn w + SALT_SIZE + BLOCK_SIZE)%nat
              /\ constructed w' = n :: constructed w
              /\ files w' = files w
              /\ (mac <> JStr (recomputed_mac P pw id ct salt) -> exists e, r = Raise e))).
Proof.
  intros HP. split.
  - intros H. unfold Container.from_data.
    destruct (Nat.eqb_spec (List.length salt) SALT_SIZE);
      destruct (Nat.eqb_spec (List.length iv) BLOCK_SIZE); try reflexivity.
    tauto.
  - intros Hs Hi. split.
    + intros e He. split.
      * unfold Container.from_data.
        rewrite Hs, Hi, !Nat.eqb_refl. cbn [negb orb]. now rewrite He.
      * destruct (py_int_raise P id e HP He) as (m & ->). eauto.
    + intros n Hn.
      destruct (from_data_run_effects P pw id n ct mac salt iv w HP Hs Hi Hn)
        as (r & w' & E & H1 & H2 & H3 & H4 & _ & H6).
      exists r, w'. repeat split; assumption.
Qed.

(** On the id "41" with a tag that does not match: the call raises, and
    the id counter of a process that had constructed nothing stands at 42. *)
Lemma from_data_failure_effects_witness :
  exists r w',
    Container.from_data RefPrimitives "pw" "41" [] (JStr "00") test_salt test_iv world0
    = (r, w')
    /\ next_id w' = 42%Z
    /\ drawn w' = 48%nat
    /\ constructed w' = [41%Z]
    /\ files w' = files world0
    /\ exists e, r = Raise e.
Proof.
  destruct (from_data_failure_effects RefPrimitives "pw" "41" [] (JStr "00")
              test_salt test_iv world0 RefPrimitives_ok) as (_ & H).
  destruct (H eq_refl eq_refl) as (_ & H2).
  destruct (H2 41%Z) as (r & w' & E & H3 & H4 & H5 & H6 & H7); [vm_compute; reflexivity|].
  exists r, w'. split; [exact E|]. split; [exact H3|]. split; [exact H4|].
  split; [exact H5|]. split; [exact H6|]. apply H7. vm_compute. discriminate.
Defined.

(** ** [Container.encrypt] is deterministic *)

Lemma entry_of_set_key P c k pw :
  SymmetricKey.salt k = SymmetricKey.salt (Container.key c) ->
  SymmetricKey.iv k = SymmetricKey.iv (Container.key c) ->
  entry_of P (Container.set_key c k) pw = entry_of P c pw.
Proof.
  intros Hs Hi.
  unfold entry_of, mac_of, ciphertext_of, aes_key_of, plaintext_of,
    SymmetricKey.get_key_json.
  cbn [Container.set_key Container.key Container.id Container.name Container.data].
  now rewrite Hs, Hi.
Qed.

(** [Container.encrypt] reads no random bytes, allocates no id and writes no
    file; it keeps id, name, data, salt and iv of the container. Encrypting
    again gives the same entry, and after the data has been replaced the new
    entry is written under the same salt and the same iv: nothing is
    refreshed between two encryptions. *)
Theorem encrypt_reads_no_randomness (P : Primitives) (c : Container.t)
        (pw d : string) (w : world) :
  PrimitivesOk P -> container_ok P c -> is_str d = true ->
  exists c1 w1 c2 w2 e c3 w3,
    Container.encrypt P c pw w = (Ok (entry_of P c pw, c1), w1)
    /\ Container.encrypt P c1 pw w1 = (Ok (entry_of P c pw, c2), w2)
    /\ frame w w2
    /\ Container.eqb c2 c = true
    /\ Container.encrypt P (Container.set_data c2 d) pw w2 = (Ok (e, c3), w3)
    /\ getitem e "key" = getitem (entry_of P c pw) "key"
    /\ frame w w3.
Proof.
  intros HP Hc Hd. pose proof Hc as ((Hs & Hi & Hk) & Hn & Hu).
  destruct (encrypt_run P HP c pw w Hc) as (w1 & E1 & _).
  set (c1 := Container.set_key c (cached P (Container.key c) pw)) in *.
  assert (Hc1 : container_ok P c1).
  { split; [now apply cached_ok|split; assumption]. }
  destruct (encrypt_run P HP c1 pw w1 Hc1) as (w2 & E2 & _).
  set (c2 := Container.set_key c1 (cached P (Container.key c1) pw)) in *.
  assert (Hc2 : container_ok P (Container.set_data c2 d)).
  { split; [|split; [exact Hn|exact Hd]]. apply cached_ok; [exact Hs|exact Hi]. }
  destruct (encrypt_run P HP (Container.set_data c2 d) pw w2 Hc2) as (w3 & E3 & _).
  assert (F1 : frame w w1).
  { pose proof (logs_only_encrypt P c pw w) as F. now rewrite E1 in F. }
  assert (F2 : frame w1 w2).
  { pose proof (logs_only_encrypt P c1 pw w1) as F. now rewrite E2 in F. }
  assert (F3 : frame w2 w3).
  { pose proof (logs_only_encrypt P (Container.set_data c2 d) pw w2) as F.
    now rewrite E3 in F. }
  exists c1, w1, c2, w2. do 3 eexists.
  split; [exact E1|]. split.
  { rewrite E2. unfold c1. now rewrite entry_of_set_key. }
  split; [eapply frame_trans; eassumption|]. split.
  { apply eqb_same; try reflexivity. exact Hn. }
  split; [exact E3|]. split; [reflexivity|].
  eapply frame_trans; [|exact F3]. eapply frame_trans; eassumption.
Qed.

Lemma encrypt_reads_no_randomness_witness :
  exists c1 w1 c2 w2 e c3 w3,
    Container.encrypt RefPrimitives test_container "password" world0
    = (Ok (entry_of RefPrimitives test_container "password", c1), w1)
    /\ Container.encrypt RefPrimitives c1 "password" w1
       = (Ok (entry_of RefPrimitives test_container "password", c2), w2)
    /\ frame world0 w2
    /\ Container.eqb c2 test_container = true
    /\ Container.encrypt RefPrimitives (Container.set_data c2 "Other Data") "password" w2
       = (Ok (e, c3), w3)
    /\ getitem e "key" = getitem (entry_of RefPrimitives test_container "password") "key"
    /\ frame world0 w3.
Proof.
  refine (encrypt_reads_no_randomness RefPrimitives test_container "password" "Other Data"
            world0 RefPrimitives_ok test_container_ok _).
  reflexivity.
Defined.

(** ** [set_data], [get_data] and [get_container_info] *)

Lemma decode_encode (s : string) : is_str s = true -> decode_utf8 (encode_utf8 s) = Ok s.
Proof.
  unfold is_str, decode_utf8, encode_utf8. intros ->.
  now rewrite string_of_list_ascii_of_string.
Qed.

(** [get_data] returns the text that [set_data] stored, and
    [get_container_info] the id, the name and that text; on a container whose
    data is not UTF-8 [get_data] and [get_container_info] raise
    [UnicodeDecodeError]. A container that [from_data] returned always has
    readable data. *)
Theorem get_container_info_roundtrip (P : Primitives) (c : Container.t) (n : json)
        (d : string) :
  is_str d = true ->
  Container.get_data (Container.set_data c d) = Ok d
  /\ Container.get_container_info (Container.set_data (Container.set_name c n) d)
     = Ok (JDict [("id", JNum (Container.id c)); ("name", n); ("data", JStr d)])
  /\ (utf8_valid (Container.data c) = false ->
      Container.get_data c = Raise UnicodeDecodeError
      /\ Container.get_container_info c = Raise UnicodeDecodeError)
  /\ (forall pw id ct mac salt iv w c' w',
         PrimitivesOk P ->
         Container.from_data P pw id ct mac salt iv w = (Ok c', w') ->
         exists text, Container.get_data c' = Ok text
                      /\ encode_utf8 text = Container.data c').
Proof.
  intros Hd. split; [|split; [|split]].
  - unfold Container.get_data, Container.set_data. cbn [Container.data].
    now apply decode_encode.
  - unfold Container.get_container_info, Container.get_data, Container.set_data,
      Container.set_name, Container.get_id, Container.get_name.
    cbn [Container.data Container.id Container.name]. now rewrite (decode_encode d Hd).
  - intros Hu. unfold Container.get_container_info, Container.get_data, decode_utf8.
    now rewrite Hu.
  - intros pw id ct mac salt iv w c' w' HP H.
    destruct (from_data_ok P HP pw id ct mac salt iv w c' w' H) as [(_ & Hu) _].
    unfold Container.get_data, decode_utf8. rewrite Hu. eexists. split; [reflexivity|].
    unfold encode_utf8. apply list_ascii_of_string_of_list_ascii.
Qed.

Lemma get_container_info_roundtrip_witness :
  Container.get_data (Container.set_data test_container "Test Data") = Ok "Test Data"
  /\ Container.get_container_info
       (Container.set_data (Container.set_name test_container (JStr "Test Container"))
          "Test Data")
     = Ok (JDict [("id", JNum 0); ("name", JStr "Test Container");
                  ("data", JStr "Test Data")]).
Proof.
  destruct (get_container_info_roundtrip RefPrimitives test_container
              (JStr "Test Container") "Test Data" eq_refl) as (H1 & H2 & _).
  split; [exact H1|exact H2].
Defined.

(** ** Lookups in a dict *)

Section DictLookup.
Variables (K V : Type) (keq : K -> K -> bool).
Hypothesis keq_spec : forall a b, keq a b = true <-> a = b.

Lemma keq_refl k : keq k k = true.
Proof. now apply keq_spec. Qed.

Lemma keq_neq a b : a <> b -> keq a b = false.
Proof.
  intros H. destruct (keq a b) eqn:E; [|reflexivity]. apply keq_spec in E. contradiction.
Qed.

Lemma dict_get_set_same (d : list (K * V)) k v : dict_get keq (dict_set keq d k v) k = Some v.
Proof.
  induction d as [|[k' v'] d IH]; simpl; [now rewrite keq_refl|].
  destruct (keq k' k) eqn:E; simpl; rewrite E; [reflexivity|exact IH].
Qed.

Lemma dict_get_set_other (d : list (K * V)) k v k' :
  k' <> k -> dict_get keq (dict_set keq d k v) k' = dict_get keq d k'.
Proof.
  intros Hne. induction d as [|[k0 v0] d IH]; simpl.
  - rewrite keq_neq; [reflexivity|congruence].
  - destruct (keq k0 k) eqn:E; simpl.
    + apply keq_spec in E. subst k0. rewrite keq_neq; [reflexivity|congruence].
    + destruct (keq k0 k'); [reflexivity|exact IH].
Qed.

Lemma dict_get_remove_other (d : list (K * V)) k k' :
  k' <> k -> dict_get keq (dict_remove keq d k) k' = dict_get keq d k'.
Proof.
  intros Hne. induction d as [|[k0 v0] d IH]; simpl; [reflexivity|].
  destruct (keq k0 k) eqn:E; simpl.
  - apply keq_spec in E. subst k0. rewrite keq_neq; [reflexivity|congruence].
  - destruct (keq k0 k'); [reflexivity|exact IH].
Qed.

Lemma dict_get_keys (d : list (K * V)) k v : dict_get keq d k = Some v -> In k (map fst d).
Proof.
  induction d as [|[k0 v0] d IH]; simpl; [discriminate|].
  destruct (keq k0 k) eqn:E; [apply keq_spec in E; auto|auto].
Qed.

Lemma dict_get_not_keys (d : list (K * V)) k : dict_get keq d k = None -> ~ In k (map fst d).
Proof.
  induction d as [|[k0 v0] d IH]; simpl; [tauto|].
  destruct (keq k0 k) eqn:E; [discriminate|].
  intros H [H1|H1]; [|now apply IH]. subst. now rewrite keq_refl in E.
Qed.

Lemma dict_get_remove_same (d : list (K * V)) k :
  NoDup (map fst d) -> dict_get keq (dict_remove keq d k) k = None.
Proof.
  induction d as [|[k0 v0] d IH]; simpl; intros H; [reflexivity|].
  inversion H as [|? ? Hk Hd]; subst.
  destruct (keq k0 k) eqn:E; simpl.
  - apply keq_spec in E. subst k0. now apply dict_get_none.
  - rewrite E. now apply IH.
Qed.

Lemma dict_get_app (d1 d2 : list (K * V)) k :
  dict_get keq (d1 ++ d2) k
  = match dict_get keq d1 k with Some v => Some v | None => dict_get keq d2 k end.
Proof.
  induction d1 as [|[k0 v0] d IH]; simpl; [reflexivity|].
  destruct (keq k0 k); [reflexivity|exact IH].
Qed.

Lemma dict_set_values (Q : K * V -> Prop) (d : list (K * V)) k v :
  Forall Q d -> Q (k, v) -> (forall k0 v0, Q (k0, v0) -> keq k0 k = true -> Q (k0, v)) ->
  Forall Q (dict_set keq d k v).
Proof.
  intros Hd Hq Hr. induction d as [|[k0 v0] d IH]; simpl; [repeat constructor; exact Hq|].
  inversion Hd as [|? ? H0 Hd']; subst.
  destruct (keq k0 k) eqn:E; constructor; auto. eapply Hr; eassumption.
Qed.
End DictLookup.

(** ** [add_container], [get_container], [remove_container] *)

Lemma add_container_run (v : Vault.t) (n d : string) (w : world) :
  exists c v' w',
    Vault.add_container v n d w = (Ok (c, v'), w')
    /\ Container.id c = next_id w
    /\ next_id w' = (next_id w + 1)%Z
    /\ Container.name c
       = JStr (if String.eqb n "" then "Container " ++ py_str (next_id w) else n)%string
    /\ Container.data c = encode_utf8 d
    /\ (forall w0, Vault.get_container v' (Container.id c) w0 = (Ok c, w0))
    /\ (forall j w0, j <> Container.id c ->
                     Vault.get_container v' j w0 = Vault.get_container v j w0)
    /\ Vault.hidden_containers v' = Vault.hidden_containers v
    /\ (vault_in_world v w ->
        Vault.containers v' = Vault.containers v ++ [(Container.id c, c)]).
Proof.
  unfold Vault.add_container.
  rewrite (bind_ok _ _ _ _ _ _ _ (Container_init_run None w)). unfold ret.
  cbn [Container.get_id Container.id Container.set_data Container.set_name
       Container.key Container.name Container.data].
  do 3 eexists. split; [reflexivity|].
  cbn [Container.id Container.name Container.data next_id Vault.containers
       Vault.hidden_containers].
  split; [reflexivity|]. split; [lia|]. split; [reflexivity|]. split; [reflexivity|].
  split; [|split; [|split]].
  - intros w0. unfold Vault.get_container. cbn [Vault.containers].
    now rewrite (dict_get_set_same _ _ Z.eqb Zeqb_spec').
  - intros j w0 Hj. unfold Vault.get_container. cbn [Vault.containers].
    now rewrite (dict_get_set_other _ _ Z.eqb Zeqb_spec') by exact Hj.
  - reflexivity.
  - intros [Hlt _]. apply (dict_set_fresh _ _ Z.eqb Zeqb_spec').
    intros Hin. apply in_map_iff in Hin as ([k x] & E & Hin). cbn in E. subst k.
    rewrite Forall_forall in Hlt. specialize (Hlt _ Hin). cbn in Hlt. lia.
Qed.

(** [add_container] never fails. The container it returns has the next id
    of the allocator, the name given or, for the empty name, "Container "
    followed by the id, and the data encoded; [get_container] of that id
    returns it; every other id is looked up as before; the reserved
    containers are untouched. In a vault whose ids lie below the counter
    nothing is overwritten: the container is appended. *)
Theorem add_container_lookup (v : Vault.t) (n d : string) (w : world) :
  exists c v' w',
    Vault.add_container v n d w = (Ok (c, v'), w')
    /\ Container.id c = next_id w
    /\ next_id w' = (next_id w + 1)%Z
    /\ Container.name c
       = JStr (if String.eqb n "" then "Container " ++ py_str (next_id w) else n)%string
    /\ Container.data c = encode_utf8 d
    /\ (forall w0, Vault.get_container v' (Container.id c) w0 = (Ok c, w0))
    /\ (forall j w0, j <> Container.id c ->
                     Vault.get_container v' j w0 = Vault.get_container v j w0)
    /\ Vault.hidden_containers v' = Vault.hidden_containers v
    /\ (vault_in_world v w ->
        Vault.containers v' = Vault.containers v ++ [(Container.id c, c)]).
Proof. apply add_container_run. Qed.

(** [remove_container(id)] removes a visible container and nothing else:
    afterwards [get_container(id)] raises [KeyError], every other id is
    looked up as before, and the vault is still well formed. When the id is
    not a visible container the call raises [KeyError] and the vault is as
    it was; this is so for every negative id, so the reserved containers
    cannot be removed. *)
Theorem remove_container_lookup (P : Primitives) (v : Vault.t) (i : Z) (w : world) :
  vault_ok P v ->
  (forall c, dict_get Z.eqb (Vault.containers v) i = Some c ->
     exists v',
       Vault.remove_container v i w = (Ok v', w)
       /\ Vault.get_container v' i w
          = (Raise (KeyError ("Container with ID " ++ py_str i ++ " not found")), w)
       /\ (forall j w0, j <> i -> Vault.get_container v' j w0 = Vault.get_container v j w0)
       /\ Vault.hidden_containers v' = Vault.hidden_containers v
       /\ List.length (Vault.containers v') = pred (List.length (Vault.containers v))
       /\ vault_ok P v')
  /\ (dict_get Z.eqb (Vault.containers v) i = None ->
      Vault.remove_container v i w
      = (Raise (KeyError ("Could not delete: Container with ID " ++ py_str i
                            ++ " not found")), w))
  /\ ((i < 0)%Z -> dict_get Z.eqb (Vault.containers v) i = None).
Proof.
  intros Hv. pose proof Hv as (Hk & [Hnd Hf] & Hh & Hp & Hm). split; [|split].
  - intros c Hc. unfold Vault.remove_container. rewrite Hc. unfold ret.
    eexists. split; [reflexivity|].
    unfold Vault.get_container. cbn [Vault.containers Vault.hidden_containers].
    split; [|split; [|split; [|split]]].
    + now rewrite (dict_get_remove_same _ _ Z.eqb Zeqb_spec') by exact Hnd.
    + intros j w0 Hj. now rewrite (dict_get_remove_other _ _ Z.eqb Zeqb_spec') by exact Hj.
    + reflexivity.
    + clear -Hc. induction (Vault.containers v) as [|[k x] l IH]; [discriminate|].
      cbn [dict_get dict_remove] in *. destruct (Z.eqb k i); [reflexivity|].
      cbn [List.length]. rewrite (IH Hc).
      destruct l; [discriminate|reflexivity].
    + apply (remove_container_ok P v i w _ w Hv).
      unfold Vault.remove_container. rewrite Hc. reflexivity.
  - intros Hc. unfold Vault.remove_container. now rewrite Hc.
  - intros Hi. apply (dict_get_none _ _ Z.eqb Zeqb_spec').
    intros Hin. apply in_map_iff in Hin as ([k x] & E & Hin). cbn in E. subst k.
    rewrite Forall_forall in Hp. specialize (Hp _ Hin). cbn in Hp. lia.
Qed.

(** ** [update_container] *)

Lemma dict_set_same_value (V : Type) (d : list (Z * V)) k v :
  dict_get Z.eqb d k = Some v -> dict_set Z.eqb d k v = d.
Proof.
  induction d as [|[k0 v0] d IH]; simpl; [discriminate|].
  destruct (Z.eqb k0 k) eqn:E; [now intros [= ->]|]. intros H. now rewrite IH.
Qed.

Lemma updated_ok P c n d :
  opt_str n -> opt_str d -> container_ok P c -> container_ok P (updated c n d).
Proof.
  intros Hn Hd Hc. unfold updated.
  destruct d as [s|]; [apply set_data_ok; [exact Hd|]|];
    (destruct n as [t|]; [apply set_name_ok; [exact Hn|exact Hc]|exact Hc]).
Qed.

Lemma updated_id c n d : Container.id (updated c n d) = Container.id c.
Proof. destruct n, d; reflexivity. Qed.

Lemma updated_key c n d : Container.key (updated c n d) = Container.key c.
Proof. destruct n, d; reflexivity. Qed.

Lemma dict_set_wf P (l : list (Z * Container.t)) i c c' :
  dict_wf P l -> dict_get Z.eqb l i = Some c ->
  Container.id c' = i -> container_ok P c' ->
  dict_wf P (dict_set Z.eqb l i c').
Proof.
  intros [Hnd Hf] Hg Hid Hc. split.
  - rewrite (dict_set_present _ _ Z.eqb Zeqb_spec'); [exact Hnd|].
    eapply dict_get_keys; [apply Zeqb_spec'|exact Hg].
  - apply (dict_set_values _ _ Z.eqb); [exact Hf|split; [exact Hid|exact Hc]|].
    intros k0 v0 _ E. apply Z.eqb_eq in E. subst k0. split; [exact Hid|exact Hc].
Qed.

Lemma dict_set_sign (Q : Z -> Prop) (l : list (Z * Container.t)) i c :
  Forall (fun kv => Q (fst kv)) l -> Q i ->
  Forall (fun kv => Q (fst kv)) (dict_set Z.eqb l i c).
Proof.
  intros Hf Hq. apply (dict_set_values _ _ Z.eqb); [exact Hf|exact Hq|].
  intros k0 v0 H _. exact H.
Qed.

(** [update_container(id, name, data)] finds the container among the
    visible and the reserved ones and assigns what is given: its id and its
    key stay, a visible container is afterwards what [get_container] returns,
    every other container is as before, no key is added, and with neither
    name nor data the vault is unchanged. An id that the vault does not hold
    raises [KeyError] and changes nothing. *)
Theorem update_container_lookup (P : Primitives) (v : Vault.t) (i : Z)
        (n d : option string) (w : world) :
  vault_ok P v ->
  (forall c, dict_get Z.eqb (Vault.containers v) i = Some c ->
     exists v',
       Vault.update_container v i n d w = (Ok v', w)
       /\ (forall w0, Vault.get_container v' i w0 = (Ok (updated c n d), w0))
       /\ (forall j w0, j <> i -> Vault.get_container v' j w0 = Vault.get_container v j w0)
       /\ map fst (Vault.containers v') = map fst (Vault.containers v)
       /\ Vault.hidden_containers v' = Vault.hidden_containers v
       /\ (n = None -> d = None -> v' = v)
       /\ (opt_str n -> opt_str d -> vault_ok P v'))
  /\ (forall c, dict_get Z.eqb (Vault.hidden_containers v) i = Some c ->
     exists v',
       Vault.update_container v i n d w = (Ok v', w)
       /\ dict_get Z.eqb (Vault.hidden_containers v') i = Some (updated c n d)
       /\ (forall j, j <> i -> dict_get Z.eqb (Vault.hidden_containers v') j
                              = dict_get Z.eqb (Vault.hidden_containers v) j)
       /\ map fst (Vault.hidden_containers v') = map fst (Vault.hidden_containers v)
       /\ Vault.containers v' = Vault.containers v
       /\ (n = None -> d = None -> v' = v)
       /\ (opt_str n -> opt_str d -> vault_ok P v'))
  /\ (dict_get Z.eqb (Vault.containers v) i = None ->
      dict_get Z.eqb (Vault.hidden_containers v) i = None ->
      Vault.update_container v i n d w
      = (Raise (KeyError ("Could not update: Container with ID " ++ py_str i
                            ++ " not found")), w))
  /\ (forall c, Container.id (updated c n d) = Container.id c
                /\ Container.key (updated c n d) = Container.key c).
Proof.
  intros Hv. pose proof Hv as (Hk & Hwc & Hwh & Hp & Hm).
  pose proof (all_containers_app P v Hv) as Ha.
  assert (Hvis : forall c, dict_get Z.eqb (Vault.containers v) i = Some c ->
                           dict_get Z.eqb (Vault.hidden_containers v) i = None).
  { intros c Hc. apply (dict_get_none _ _ Z.eqb Zeqb_spec').
    intros Hin. apply in_map_iff in Hin as ([k x] & E & Hin). cbn in E. subst k.
    apply dict_get_in in Hc; [|apply Zeqb_spec'].
    rewrite Forall_forall in Hp, Hm. specialize (Hp _ Hc). specialize (Hm _ Hin).
    cbn in *. lia. }
  assert (Hhid : forall c, dict_get Z.eqb (Vault.hidden_containers v) i = Some c ->
                           dict_get Z.eqb (Vault.containers v) i = None).
  { intros c Hc. destruct (dict_get Z.eqb (Vault.containers v) i) as [c0|] eqn:E;
      [|reflexivity]. rewrite (Hvis c0 eq_refl) in Hc. discriminate. }
  split; [|split; [|split]].
  - intros c Hc. pose proof (Hvis c Hc) as Hn.
    unfold Vault.update_container. rewrite Ha, (dict_get_app _ _ Z.eqb), Hc.
    fold (updated c n d). unfold ret, Vault.store. rewrite Hn.
    eexists. split; [reflexivity|]. unfold Vault.get_container.
    cbn [Vault.containers Vault.hidden_containers Vault.key].
    split; [|split; [|split; [|split; [|split]]]].
    + intros w0. now rewrite (dict_get_set_same _ _ Z.eqb Zeqb_spec').
    + intros j w0 Hj. now rewrite (dict_get_set_other _ _ Z.eqb Zeqb_spec') by exact Hj.
    + apply (dict_set_present _ _ Z.eqb Zeqb_spec').
      eapply dict_get_keys; [apply Zeqb_spec'|exact Hc].
    + reflexivity.
    + intros -> ->. cbn [updated]. rewrite (dict_set_same_value _ _ _ _ Hc).
      now destruct v.
    + intros Hsn Hsd.
      assert (Hin : In (i, c) (Vault.containers v))
        by (apply dict_get_in in Hc; [exact Hc|apply Zeqb_spec']).
      destruct Hwc as [Hnd Hf]. pose proof Hf as Hf0.
      rewrite Forall_forall in Hf0. destruct (Hf0 _ Hin) as [Hid Hok]. cbn in Hid, Hok.
      split; [exact Hk|]. cbn [Vault.containers Vault.hidden_containers Vault.key].
      split; [|split; [exact Hwh|split; [|exact Hm]]].
      * apply (dict_set_wf P _ i c); [split; assumption|exact Hc| |].
        -- now rewrite updated_id.
        -- now apply updated_ok.
      * apply (dict_set_sign (fun z => (0 <= z)%Z)); [exact Hp|].
        rewrite Forall_forall in Hp. apply (Hp _ Hin).
  - intros c Hc. pose proof (Hhid c Hc) as Hn.
    unfold Vault.update_container. rewrite Ha, (dict_get_app _ _ Z.eqb), Hn, Hc.
    fold (updated c n d). unfold ret, Vault.store. rewrite Hc.
    eexists. split; [reflexivity|].
    cbn [Vault.containers Vault.hidden_containers Vault.key].
    split; [|split; [|split; [|split; [|split]]]].
    + now rewrite (dict_get_set_same _ _ Z.eqb Zeqb_spec').
    + intros j Hj. now rewrite (dict_get_set_other _ _ Z.eqb Zeqb_spec') by exact Hj.
    + apply (dict_set_present _ _ Z.eqb Zeqb_spec').
      eapply dict_get_keys; [apply Zeqb_spec'|exact Hc].
    + reflexivity.
    + intros -> ->. cbn [updated]. rewrite (dict_set_same_value _ _ _ _ Hc).
      now destruct v.
    + intros Hsn Hsd.
      assert (Hin : In (i, c) (Vault.hidden_containers v))
        by (apply dict_get_in in Hc; [exact Hc|apply Zeqb_spec']).
      destruct Hwh as [Hnd Hf]. pose proof Hf as Hf0.
      rewrite Forall_forall in Hf0. destruct (Hf0 _ Hin) as [Hid Hok]. cbn in Hid, Hok.
      split; [exact Hk|]. cbn [Vault.containers Vault.hidden_containers Vault.key].
      split; [exact Hwc|split; [|split; [exact Hp|]]].
      * apply (dict_set_wf P _ i c); [split; assumption|exact Hc| |].
        -- now rewrite updated_id.
        -- now apply updated_ok.
      * apply (dict_set_sign (fun z => (z < 0)%Z)); [exact Hm|].
        rewrite Forall_forall in Hm. apply (Hm _ Hin).
  - intros Hc Hh. unfold Vault.update_container.
    now rewrite Ha, (dict_get_app _ _ Z.eqb), Hc, Hh.
  - intros c. split; [apply updated_id|apply updated_key].
Qed.

(** ** A loaded vault is well formed *)

Section DictOfItems.
Variables (K V : Type) (keq : K -> K -> bool).
Hypothesis keq_spec : forall a b, keq a b = true <-> a = b.

Lemma dict_set_keys (d : list (K * V)) k v k' :
  In k' (map fst (dict_set keq d k v)) -> k' = k \/ In k' (map fst d).
Proof.
  induction d as [|[k0 v0] d IH]; simpl; [intros [H|[]]; auto|].
  destruct (keq k0 k) eqn:E; simpl; [tauto|]. intros [H|H]; [tauto|].
  destruct (IH H); tauto.
Qed.

Lemma dict_set_nodup (d : list (K * V)) k v :
  NoDup (map fst d) -> NoDup (map fst (dict_set keq d k v)).
Proof.
  induction d as [|[k0 v0] d IH]; simpl; intros H.
  - repeat constructor. intros [].
  - inversion H as [|? ? Hk Hd]; subst.
    destruct (keq k0 k) eqn:E; simpl; [constructor; assumption|].
    constructor; [|now apply IH]. intros Hin.
    apply dict_set_keys in Hin as [->|Hin]; [|contradiction].
    rewrite (proj2 (keq_spec k k) eq_refl) in E. discriminate.
Qed.

Lemma dict_of_items_wf (Q : K * V -> Prop) (l : list (K * V)) :
  Forall Q l ->
  NoDup (map fst (dict_of_items keq l)) /\ Forall Q (dict_of_items keq l).
Proof.
  unfold dict_of_items.
  assert (G : forall acc, NoDup (map fst acc) -> Forall Q acc -> Forall Q l ->
              NoDup (map fst (fold_left (fun d kv => dict_set keq d (fst kv) (snd kv)) l acc))
              /\ Forall Q (fold_left (fun d kv => dict_set keq d (fst kv) (snd kv)) l acc)).
  { induction l as [|[k v] l IH]; intros acc Hn Ha Hl; [now split|].
    inversion Hl as [|? ? Hq Hl']; subst. cbn [fold_left fst snd].
    apply IH; [now apply dict_set_nodup| |exact Hl'].
    apply (dict_set_values _ _ keq); [exact Ha|exact Hq|].
    intros k0 v0 _ E. apply keq_spec in E. now subst k0. }
  intros Hl. apply G; [constructor|constructor|exact Hl].
Qed.
End DictOfItems.

Lemma NoDup_filter_keys (V : Type) (f : Z * V -> bool) (l : list (Z * V)) :
  NoDup (map fst l) -> NoDup (map fst (filter f l)).
Proof.
  induction l as [|[k v] l IH]; simpl; intros H; [constructor|].
  inversion H as [|? ? Hk Hd]; subst.
  destruct (f (k, v)); simpl; [|now apply IH].
  constructor; [|now apply IH]. intros Hin. apply Hk.
  apply in_map_iff in Hin as (x & E & Hx). apply filter_In in Hx as [Hx _].
  apply in_map_iff. exists x. now split.
Qed.

Lemma Forall_filter (A : Type) (Q : A -> Prop) (f : A -> bool) (l : list A) :
  Forall Q l -> Forall Q (filter f l).
Proof.
  intros H. rewrite Forall_forall in *. intros x Hx.
  apply filter_In in Hx as [Hx _]. now apply H.
Qed.

Lemma Forall_filter_test (A : Type) (f : A -> bool) (l : list A) :
  Forall (fun x => f x = true) (filter f l).
Proof. rewrite Forall_forall. intros x Hx. now apply filter_In in Hx as [_ Hx]. Qed.

Section LoadOk.
Variable P : Primitives.
Hypothesis HP : PrimitivesOk P.

(** An entry that loads gives a container with a well-formed key and
    readable data, whose id lies below the id counter from then on. *)
Lemma load_entry_ok pw id c w c' w' :
  Vault.load_entry P pw id c w = (Ok c', w') ->
  container_sound P c' /\ py_int P id = Ok (Container.id c')
  /\ next_id w' = Z.max (next_id w) (Container.id c' + 1)
  /\ files w' = files w.
Proof.
  unfold Vault.load_entry. intros H.
  apply bind_inv_ok in H as (ct & w1 & Hct & H). apply lift_inv_ok in Hct as [Hct ->].
  apply bind_inv_ok in H as (mac & w1 & Hmac & H). apply lift_inv_ok in Hmac as [Hmac ->].
  apply bind_inv_ok in H as (salt & w1 & Hs & H). apply lift_inv_ok in Hs as [Hs ->].
  apply bind_inv_ok in H as (iv & w1 & Hi & H). apply lift_inv_ok in Hi as [Hi ->].
  destruct (from_data_ok P HP pw id ct mac salt iv w c' w' H) as [Hok Hn].
  pose proof H as H0. unfold Container.from_data in H0.
  destruct ((negb (List.length salt =? SALT_SIZE)
             || negb (List.length iv =? BLOCK_SIZE))%nat) eqn:Hlen; [discriminate|].
  apply orb_false_iff in Hlen as [Hl1 Hl2].
  apply negb_false_iff, Nat.eqb_eq in Hl1, Hl2. clear H0.
  destruct (from_data_run_effects P pw id _ ct mac salt iv w HP Hl1 Hl2 Hn)
    as (r & w2 & E & H1 & _ & _ & H4 & _).
  rewrite H in E. injection E as <- <-. auto.
Qed.

Lemma load_entries_ok pw (its : list (string * json)) : forall w loaded w',
  mapM (fun kv => Vault.load_entry P pw (fst kv) (snd kv)) its w = (Ok loaded, w') ->
  Forall (fun c => container_sound P c /\ (Container.id c < next_id w')%Z) loaded
  /\ (next_id w <= next_id w')%Z /\ files w' = files w.
Proof.
  induction its as [|[id c] its IH]; intros w loaded w' H.
  - injection H as <- <-. split; [constructor|]. split; [lia|reflexivity].
  - cbn [mapM] in H.
    apply bind_inv_ok in H as (c1 & w1 & H1 & H).
    apply bind_inv_ok in H as (cs & w2 & H2 & H).
    unfold ret in H. injection H as <- <-. cbn [fst snd] in H1.
    destruct (load_entry_ok pw id c w c1 w1 H1) as (Hok & _ & Hn & Hf).
    destruct (IH w1 cs w2 H2) as (Hall & Hle & Hf2).
    split; [|split; [lia|congruence]].
    constructor; [split; [exact Hok|lia]|exact Hall].
Qed.

(** What a successful [load_from_file] returns, and the state it leaves. *)
Lemma load_from_file_result self path w v' w' :
  Vault.load_from_file P self path w = (Ok v', w') ->
  exists doc its loaded w1 salt iv,
    files w path = Some (JsonFile doc)
    /\ getitem doc "containers" = Ok (JDict its)
    /\ mapM (fun kv => Vault.load_entry P (Vault.master_password self) (fst kv) (snd kv))
            its w = (Ok loaded, w1)
    /\ List.length salt = SALT_SIZE /\ List.length iv = BLOCK_SIZE
    /\ v' = {| Vault.key :=
                 cached P {| SymmetricKey.salt := salt; SymmetricKey.iv := iv;
                             SymmetricKey.aeskey := None;
                             SymmetricKey.prev_password := None |}
                   (Vault.master_password self);
               Vault.containers :=
                 filter (fun kv => (0 <=? fst kv)%Z)
                   (dict_of_items Z.eqb (map (fun c => (Container.get_id c, c)) loaded));
               Vault.master_password := Vault.master_password self;
               Vault.cloud := Vault.cloud self;
               Vault.hidden_containers :=
                 filter (fun kv => (fst kv <? 0)%Z)
                   (dict_of_items Z.eqb (map (fun c => (Container.get_id c, c)) loaded)) |}
    /\ frame w1 w'.
Proof.
  intros H. unfold Vault.load_from_file in H.
  apply bind_inv_ok in H as (a & w0 & H0 & H).
  apply try_except_inv_ok in H0;
    [|intros e ? ? ?; destruct e; discriminate].
  apply open_json_inv in H0 as [Hfile ->].
  apply try_except_inv_ok in H;
    [|intros e ? ? ?; destruct e; discriminate].
  apply bind_inv_ok in H as (cs & w1 & Hcs & H).
  apply lift_inv_ok in Hcs as [Hcs ->].
  apply bind_inv_ok in H as (its & w1 & Hits & H).
  apply lift_inv_ok in Hits as [Hits ->].
  destruct cs as [| | | | |its']; try discriminate. injection Hits as ->.
  apply bind_inv_ok in H as (loaded & w1 & Hload & H).
  apply bind_inv_ok in H as (mac & w2 & Hmac & H).
  apply lift_inv_ok in Hmac as [Hmac ->].
  apply bind_inv_ok in H as (salt & w2 & Hsalt & H).
  apply lift_inv_ok in Hsalt as [Hsalt ->].
  apply bind_inv_ok in H as (iv & w2 & Hiv & H).
  apply lift_inv_ok in Hiv as [Hiv ->].
  destruct ((negb (List.length salt =? SALT_SIZE)
             || negb (List.length iv =? BLOCK_SIZE))%nat) eqn:Hlen; [discriminate|].
  apply orb_false_iff in Hlen as [Hl1 Hl2].
  apply negb_false_iff, Nat.eqb_eq in Hl1, Hl2.
  apply bind_inv_ok in H as (k & w2 & Hk & H).
  rewrite SymmetricKey_init_given in Hk
    by (eapply nonempty_of_length; eassumption).
  injection Hk as <- <-.
  apply bind_inv_ok in H as (ms & w2 & Hms & H).
  apply lift_inv_ok in Hms as [Hms ->].
  apply bind_inv_ok in H as ([vault_key k] & w2 & Hg & H).
  unfold SymmetricKey.generate_aes_key in Hg.
  cbn [SymmetricKey.aeskey SymmetricKey.prev_password SymmetricKey.salt SymmetricKey.iv] in Hg.
  rewrite bind_log in Hg. unfold ret in Hg. injection Hg as <- <- <-.
  apply bind_inv_ok in H as (joined & w2 & Hj & H).
  apply lift_inv_ok in Hj as [Hj ->].
  apply bind_inv_ok in H as (computed & w2 & Hh & H).
  unfold hmac_new in Hh. rewrite bind_log in Hh.
  unfold ret in Hh. injection Hh as <- <-.
  apply bind_inv_ok in H as (same & w2 & Hc & H).
  unfold compare_digest in Hc. rewrite bind_log in Hc.
  destruct mac as [| | |mac| |]; try discriminate.
  destruct (is_ascii _ && is_ascii mac); [|discriminate].
  unfold ret in Hc. injection Hc as <- <-.
  destruct (String.eqb _ mac); [|discriminate].
  cbn [negb] in H. unfold ret in H. injection H as <- <-.
  exists a, its, loaded, w1, salt, iv.
  repeat split; auto.
Qed.

Lemma load_from_file_wf self path w v' w' :
  (0 <= next_id w)%Z ->
  Vault.load_from_file P self path w = (Ok v', w') ->
  vault_sound P v' /\ vault_in_world v' w'
  /\ Forall (fun kv => (fst kv < next_id w')%Z) (Vault.hidden_containers v')
  /\ Vault.master_password v' = Vault.master_password self
  /\ Vault.cloud v' = Vault.cloud self
  /\ (next_id w <= next_id w')%Z.
Proof.
  intros Hw H.
  destruct (load_from_file_result self path w v' w' H)
    as (doc & its & loaded & w1 & salt & iv & Hf & Hc & Hload & Hs & Hi & -> & Hfr).
  destruct (load_entries_ok _ its w loaded w1 Hload) as (Hall & Hle & _).
  destruct Hfr as (Hn & _).
  set (Q := fun kv : Z * Container.t =>
              (Container.id (snd kv) = fst kv /\ container_sound P (snd kv))
              /\ (fst kv < next_id w1)%Z).
  assert (HQ : Forall Q (map (fun c => (Container.get_id c, c)) loaded)).
  { rewrite Forall_map. eapply Forall_impl; [|exact Hall].
    intros c [Hok Hlt]. split; [split; [reflexivity|exact Hok]|exact Hlt]. }
  destruct (dict_of_items_wf _ _ Z.eqb Zeqb_spec' Q _ HQ) as [Hnd HF].
  set (m := dict_of_items Z.eqb (map (fun c => (Container.get_id c, c)) loaded)) in *.
  assert (H1 : Forall (fun kv => Container.id (snd kv) = fst kv /\ container_sound P (snd kv)) m)
    by (eapply Forall_impl; [|exact HF]; intros kv [A _]; exact A).
  assert (H2 : Forall (fun kv => (fst kv < next_id w')%Z) m)
    by (eapply Forall_impl; [|exact HF]; intros kv [_ A]; rewrite Hn; exact A).
  cbn [Vault.containers Vault.hidden_containers Vault.master_password Vault.cloud].
  split; [|split; [|split; [|split; [|split]]]]; try reflexivity.
  - split; [cbn [Vault.key]; now apply cached_ok|].
    cbn [Vault.containers Vault.hidden_containers].
    split; [|split; [|split]].
    + split; [now apply NoDup_filter_keys|now apply Forall_filter].
    + split; [now apply NoDup_filter_keys|now apply Forall_filter].
    + eapply Forall_impl; [|apply Forall_filter_test].
      intros kv E. cbn beta in E. lia.
    + eapply Forall_impl; [|apply Forall_filter_test].
      intros kv E. cbn beta in E. lia.
  - split; [now apply Forall_filter|lia].
  - now apply Forall_filter.
  - lia.
Qed.
End LoadOk.

(** A vault constructed from a file: its key and the keys of its
    containers have a salt of 32 bytes and an iv of 16, the data of every
    container is text, every container sits under its own id, ids are not
    repeated, the visible ids are not negative and the reserved ones are;
    the names are whatever the records of the file held. Every id of the
    vault lies below the id counter, so the next [add_container] gets an id
    that the vault does not hold and overwrites nothing. *)
Theorem loaded_vault_is_well_formed (P : Primitives) (pw path n d : string)
        (w : world) (v : Vault.t) (w' : world) :
  PrimitivesOk P ->
  Vault.init P pw (Some path) w = (Ok v, w') ->
  vault_sound P v /\ vault_in_world v w' /\ Vault.master_password v = pw
  /\ exists c v1 w1,
       Vault.add_container v n d w' = (Ok (c, v1), w1)
       /\ ~ In (Container.id c) (map fst (Vault.containers v))
       /\ ~ In (Container.id c) (map fst (Vault.hidden_containers v))
       /\ Vault.containers v1 = Vault.containers v ++ [(Container.id c, c)]
       /\ Vault.hidden_containers v1 = Vault.hidden_containers v.
Proof.
  intros HP H. rewrite Vault_init_load in H.
  assert (H0 : (0 <= next_id (after_init w))%Z) by (cbn [after_init next_id]; lia).
  destruct (load_from_file_wf P HP _ path _ v w' H0 H)
    as (Hv & Hin & Hh & Hpw & _ & _).
  split; [exact Hv|]. split; [exact Hin|]. split; [exact Hpw|].
  unfold Vault.add_container.
  rewrite (bind_ok _ _ _ _ _ _ _ (Container_init_run None w')). unfold ret.
  cbn [Container.get_id Container.id Container.set_data Container.set_name
       Container.key Container.name Container.data].
  assert (Hfresh : forall l : list (Z * Container.t),
             Forall (fun kv => (fst kv < next_id w')%Z) l -> ~ In (next_id w') (map fst l)).
  { intros l Hl Hi. apply in_map_iff in Hi as ([k x] & E & Hi). cbn in E. subst k.
    rewrite Forall_forall in Hl. specialize (Hl _ Hi). cbn in Hl. lia. }
  do 3 eexists. split; [reflexivity|].
  cbn [Container.id Vault.containers Vault.hidden_containers].
  split; [apply Hfresh, Hin|]. split; [apply Hfresh, Hh|]. split; [|reflexivity].
  apply (dict_set_fresh _ _ Z.eqb Zeqb_spec'). apply Hfresh, Hin.
Qed.

(** ** [fetch_container] on a saved vault *)

Lemma py_str_eqb (a b : Z) : String.eqb (py_str a) (py_str b) = Z.eqb a b.
Proof.
  destruct (Z.eqb_spec a b) as [->|H]; [apply String.eqb_refl|].
  apply String.eqb_neq. intros E. apply H. now apply py_str_inj.
Qed.

Lemma dict_get_str_keys (A B : Type) (g : A -> B) (l : list (Z * A)) (i : Z) :
  dict_get String.eqb (map (fun kv => (py_str (fst kv), g (snd kv))) l) (py_str i)
  = option_map g (dict_get Z.eqb l i).
Proof.
  induction l as [|[k a] l IH]; cbn [map dict_get fst snd option_map]; [reflexivity|].
  rewrite py_str_eqb. destruct (Z.eqb k i); [reflexivity|exact IH].
Qed.

(** After [save_to_file], [fetch_container] with the id of any container of
    the vault, visible or reserved, written as [str(id)], and the master
    password returns a container equal to it, and [get_container_info] of
    the result gives its id, name and data: what the command line prints
    for [--view]. *)
Theorem fetch_container_roundtrip (P : Primitives) (v : Vault.t) (path : string)
        (i : Z) (c : Container.t) (w : world) :
  PrimitivesOk P -> vault_ok P v ->
  dict_get Z.eqb (Vault.all_containers v) i = Some c ->
  exists v1 w1 c' w2,
    Vault.save_to_file P v path w = (Ok v1, w1)
    /\ Vault.fetch_container P (py_str i) (Vault.master_password v) path w1 = (Ok c', w2)
    /\ Container.eqb c' c = true
    /\ Container.get_container_info c'
       = Ok (JDict [("id", JNum i); ("name", Container.name c);
                    ("data", JStr (string_of_list_ascii (Container.data c)))]).
Proof.
  intros HP Hv Hg.
  destruct (save_to_file_run P HP v path w Hv) as (v1 & w1 & Hsave & Hfile).
  destruct (all_containers_wf P v Hv) as [_ Hf].
  assert (Hin : In (i, c) (Vault.all_containers v))
    by (apply dict_get_in in Hg; [exact Hg|apply Zeqb_spec']).
  rewrite Forall_forall in Hf. destruct (Hf _ Hin) as [Hid Hc]. cbn [fst snd] in Hid, Hc.
  destruct (load_entry_of_encrypt P HP c (Vault.master_password v) w1 Hc) as (w2 & Hl & _).
  rewrite Hid in Hl.
  exists v1, w1, (Container.set_key c (cached P (Container.key c) (Vault.master_password v))), w2.
  split; [exact Hsave|]. split; [|split].
  - unfold Vault.fetch_container.
    rewrite (bind_ok _ _ _ _ _ _ _ (try_except_ok _ _ _ _ _ _ (open_json_run _ _ _ Hfile))).
    apply try_except_ok. rewrite (doc_containers P v). mstep.
    unfold getitem, doc_entries.
    rewrite (dict_get_str_keys _ _ (fun c0 => entry_of P c0 (Vault.master_password v))), Hg.
    cbn [option_map].
    mstep. exact Hl.
  - apply eqb_same; try reflexivity. exact (proj1 (proj2 Hc)).
  - destruct Hc as (_ & _ & Hu).
    unfold Container.get_container_info, Container.get_data, decode_utf8,
      Container.get_id, Container.get_name.
    cbn [Container.set_key Container.id Container.name Container.data].
    now rewrite Hu, Hid.
Qed.

Lemma fetch_container_roundtrip_witness :
  exists v1 w1 c' w2,
    Vault.save_to_file RefPrimitives test_vault "vault.json" world0 = (Ok v1, w1)
    /\ Vault.fetch_container RefPrimitives "0" "master_password" "vault.json" w1 = (Ok c', w2)
    /\ Container.eqb c' vault_container = true
    /\ Container.get_container_info c'
       = Ok (JDict [("id", JNum 0); ("name", JStr "Test Container");
                    ("data", JStr "Test Data")]).
Proof.
  refine (fetch_container_roundtrip RefPrimitives test_vault "vault.json" 0 vault_container
            world0 RefPrimitives_ok test_vault_ok _).
  reflexivity.
Defined.

(** ** Loading never writes *)

Lemma advances_refl w : advances w w.
Proof. repeat split; lia. Qed.

Lemma advances_trans w1 w2 w3 : advances w1 w2 -> advances w2 w3 -> advances w1 w3.
Proof.
  intros (A1 & A2 & A3 & A4) (B1 & B2 & B3 & B4).
  repeat split; try congruence; lia.
Qed.

Lemma logs_only_reads_only (A : Type) (m : M A) : logs_only m -> reads_only m.
Proof.
  intros H w. destruct (H w) as (H1 & H2 & H3 & H4 & _). repeat split; auto; lia.
Qed.

Lemma reads_only_ret (A : Type) (a : A) : reads_only (ret a).
Proof. intros w. apply advances_refl. Qed.

Lemma reads_only_raise (A : Type) (e : exn) : reads_only (@raise A e).
Proof. intros w. apply advances_refl. Qed.

Lemma reads_only_lift (A : Type) (r : result A) : reads_only (lift r).
Proof. intros w. apply advances_refl. Qed.

Lemma reads_only_log (ev : event) : reads_only (log ev).
Proof. intros w. repeat split; cbn; lia. Qed.

Lemma reads_only_bind (A B : Type) (m : M A) (k : A -> M B) :
  reads_only m -> (forall a, reads_only (k a)) -> reads_only (bind m k).
Proof.
  intros Hm Hk w. unfold bind. specialize (Hm w).
  destruct (m w) as [[a|e] w1]; cbn [snd] in *; [|exact Hm].
  eapply advances_trans; [exact Hm|apply Hk].
Qed.

Lemma reads_only_try_except (A : Type) (m : M A) (h : exn -> M A) :
  reads_only m -> (forall e, reads_only (h e)) -> reads_only (try_except m h).
Proof.
  intros Hm Hh w. unfold try_except. specialize (Hm w).
  destruct (m w) as [[a|e] w1]; cbn [snd] in *; [exact Hm|].
  eapply advances_trans; [exact Hm|apply Hh].
Qed.

Lemma reads_only_mapM (A B : Type) (f : A -> M B) (l : list A) :
  (forall a, reads_only (f a)) -> reads_only (mapM f l).
Proof.
  intros Hf. induction l as [|a l IH]; cbn [mapM]; [apply reads_only_ret|].
  apply reads_only_bind; [apply Hf|]. intros b.
  apply reads_only_bind; [exact IH|]. intros bs. apply reads_only_ret.
Qed.

Lemma reads_only_random_read n : reads_only (random_read n).
Proof. intros w. repeat split; cbn; lia. Qed.

Lemma reads_only_open_json path : reads_only (open_json path).
Proof.
  intros w. unfold open_json. destruct (files w path) as [[|j|r]|]; apply advances_refl.
Qed.

Ltac reads_only_step :=
  lazymatch goal with
  | |- reads_only (ret _) => apply reads_only_ret
  | |- reads_only (raise _) => apply reads_only_raise
  | |- reads_only (lift _) => apply reads_only_lift
  | |- reads_only (log _) => apply reads_only_log
  | |- reads_only (random_read _) => apply reads_only_random_read
  | |- reads_only (open_json _) => apply reads_only_open_json
  | |- reads_only (bind _ _) => apply reads_only_bind; [|intros ?]
  | |- reads_only (SymmetricKey.generate_aes_key _ _ _) =>
    apply logs_only_reads_only, logs_only_generate_aes_key
  | |- reads_only (hmac_new _ _ _) => apply logs_only_reads_only, logs_only_hmac_new
  | |- reads_only (compare_digest _ _) =>
    apply logs_only_reads_only, logs_only_compare_digest
  | |- reads_only (loads _ _) => apply logs_only_reads_only, logs_only_loads
  | |- reads_only (match ?x with _ => _ end) => destruct x
  end.

Lemma reads_only_SymmetricKey_init s i : reads_only (SymmetricKey.init s i).
Proof. unfold SymmetricKey.init. repeat reads_only_step. Qed.

Lemma reads_only_Container_init o : reads_only (Container.init o).
Proof.
  intros w. rewrite Container_init_run. cbn [snd]. repeat split; cbn; lia.
Qed.

Ltac reads_only_auto :=
  repeat lazymatch goal with
         | |- reads_only (Container.init _) => apply reads_only_Container_init
         | |- reads_only (SymmetricKey.init _ _) => apply reads_only_SymmetricKey_init
         | |- _ => reads_only_step
         end.

Lemma reads_only_from_data P pw id ct mac salt iv :
  reads_only (Container.from_data P pw id ct mac salt iv).
Proof. unfold Container.from_data. reads_only_auto. Qed.

Lemma reads_only_load_entry P pw id c : reads_only (Vault.load_entry P pw id c).
Proof.
  unfold Vault.load_entry.
  repeat lazymatch goal with
         | |- reads_only (Container.from_data _ _ _ _ _ _ _) => apply reads_only_from_data
         | |- _ => reads_only_step
         end.
Qed.

Lemma reads_only_fetch_container P id pw path :
  reads_only (Vault.fetch_container P id pw path).
Proof.
  unfold Vault.fetch_container.
  apply reads_only_bind; [|intros data].
  - apply reads_only_try_except; [apply reads_only_open_json|].
    intros e. destruct e; apply reads_only_raise.
  - apply reads_only_try_except; [|intros e; apply reads_only_raise].
    repeat lazymatch goal with
           | |- reads_only (Vault.load_entry _ _ _ _) => apply reads_only_load_entry
           | |- _ => reads_only_step
           end.
Qed.

Lemma reads_only_load_from_file P self path :
  reads_only (Vault.load_from_file P self path).
Proof.
  unfold Vault.load_from_file.
  apply reads_only_bind; [|intros data].
  - apply reads_only_try_except; [apply reads_only_open_json|].
    intros e. destruct e; apply reads_only_raise.
  - apply reads_only_try_except; [|intros e; destruct e; apply reads_only_raise].
    repeat lazymatch goal with
           | |- reads_only (mapM _ _) =>
             apply reads_only_mapM; intros ?; apply reads_only_load_entry
           | |- reads_only (SymmetricKey.init _ _) => apply reads_only_SymmetricKey_init
           | |- _ => reads_only_step
           end.
Qed.

Lemma reads_only_Vault_init P pw path : reads_only (Vault.init P pw path).
Proof.
  unfold Vault.init.
  repeat lazymatch goal with
         | |- reads_only (Container.init _) => apply reads_only_Container_init
         | |- reads_only (SymmetricKey.init _ _) => apply reads_only_SymmetricKey_init
         | |- reads_only (Vault.load_from_file _ _ _) => apply reads_only_load_from_file
         | |- _ => reads_only_step
         end.
Qed.


(** ** The errors of [load_from_file] after the containers have loaded *)

(** Every entry of the document has loaded. Then a document without a
    ["mac"] is refused with the message of a failed load, a vault salt or iv
    of the wrong length with the message of an invalid salt or iv, and a
    stored vault tag that differs from the one computed over the stored
    container tags with the message of the vault integrity error. *)
Theorem load_vault_level_errors (P : Primitives) (self : Vault.t) (path : string)
        (w : world) (doc : json) (its : list (string * json))
        (loaded : list Container.t) (w1 : world) :
  PrimitivesOk P ->
  files w path = Some (JsonFile doc) ->
  getitem doc "containers" = Ok (JDict its) ->
  mapM (fun kv => Vault.load_entry P (Vault.master_password self) (fst kv) (snd kv))
       its w = (Ok loaded, w1) ->
  (forall e, getitem doc "mac" = Raise e ->
     Vault.load_from_file P self path w
     = (Raise (LoadVaultError Vault.load_failed_msg), w1))
  /\ (forall mac salt iv,
        getitem doc "mac" = Ok mac ->
        b64field P doc "key" "salt" = Ok salt -> b64field P doc "key" "iv" = Ok iv ->
        (List.length salt <> SALT_SIZE \/ List.length iv <> BLOCK_SIZE ->
         Vault.load_from_file P self path w
         = (Raise (LoadVaultError Vault.invalid_salt_msg), w1))
        /\ (List.length salt = SALT_SIZE -> List.length iv = BLOCK_SIZE ->
            forall joined s,
              stored_tags its = Ok joined -> mac = JStr s -> is_ascii s = true ->
              s <> hmac_hexdigest P
                     (pbkdf2_hmac P (encode_utf8 (Vault.master_password self)) salt)
                     (encode_utf8 joined) ->
              exists w',
                Vault.load_from_file P self path w
                = (Raise (LoadVaultError Vault.vault_mac_msg), w'))).
Proof.
  intros HP Hf Hc Hload.
  assert (Hstart : forall (k : json -> M Vault.t) h,
             bind (try_except (open_json path)
                     (fun e => match e with
                               | JSONDecodeError =>
                                 raise (LoadVaultError Vault.invalid_json_msg)
                               | _ => raise e
                               end))
                  (fun data => try_except (k data) h) w
             = try_except (k doc) h w).
  { intros k h.
    now rewrite (bind_ok _ _ _ _ _ _ _
                   (try_except_ok _ _ _ _ _ _ (open_json_run _ _ _ Hf))). }
  unfold Vault.load_from_file. rewrite Hstart. clear Hstart.
  unfold try_except. rewrite Hc. mstep. cbn [items]. mstep.
  rewrite (bind_ok _ _ _ _ _ _ _ Hload).
  split.
  - intros e He. rewrite He. mstep.
    apply getitem_raise in He as (m0 & [->| ->]); reflexivity.
  - intros mac salt iv Hm Hs Hi. rewrite Hm, Hs, Hi. mstep. mstep. mstep. split.
    + intros Hl.
      destruct (Nat.eqb_spec (List.length salt) SALT_SIZE);
        destruct (Nat.eqb_spec (List.length iv) BLOCK_SIZE); cbn [negb orb];
        try reflexivity.
      tauto.
    + intros Hl1 Hl2 joined s Hst -> Ha Hne.
      rewrite Hl1, Hl2, !Nat.eqb_refl. cbn [negb orb].
      erewrite bind_ok by (apply SymmetricKey_init_given;
                            eapply nonempty_of_length; eassumption).
      unfold stored_tags in Hst.
      destruct (macs_of (sorted its)) as [ms|] eqn:Hms; [|discriminate].
      mstep. unfold SymmetricKey.generate_aes_key at 1.
      cbn [SymmetricKey.aeskey SymmetricKey.prev_password SymmetricKey.salt
           SymmetricKey.iv].
      rewrite !bind_bind. mstep. mstep. rewrite Hst. mstep.
      unfold hmac_new at 1. rewrite !bind_bind. mstep. mstep.
      unfold compare_digest at 1. rewrite !bind_bind. mstep.
      rewrite (hexdigest_ascii HP), Ha. cbn [andb]. mstep.
      destruct (String.eqb_spec
                  (hmac_hexdigest P
                     (pbkdf2_hmac P (encode_utf8 (Vault.master_password self)) salt)
                     (encode_utf8 joined)) s) as [E|E]; [now destruct Hne|].
      cbn [negb]. eexists. reflexivity.
Qed.

(** ** [Vault.encrypt] and [save_to_file] are deterministic *)

Section Recached.
Variable P : Primitives.
Hypothesis HP : PrimitivesOk P.
Variable pw : string.

Lemma recached_refl l : recached P pw l l.
Proof. induction l; constructor; auto. Qed.

Lemma recached_keys l l' : recached P pw l l' -> map fst l' = map fst l.
Proof. induction 1 as [|kv kv' l l' [E _] _ IH]; cbn [map]; [reflexivity|congruence]. Qed.

Lemma recached_set l l' k c :
  recached P pw l l' -> NoDup (map fst l) -> In (k, c) l ->
  recached P pw l (dict_set Z.eqb l' k
                     (Container.set_key c (cached P (Container.key c) pw))).
Proof.
  induction 1 as [|[k0 c0] [k1 c1] l l' [E R] H IH]; intros Hn Hin; [destruct Hin|].
  cbn [fst snd] in E, R. subst k1. inversion Hn as [|? ? Hk Hn']; subst.
  cbn [dict_set]. destruct (Z.eqb_spec k0 k) as [->|Hne].
  - constructor; [|exact H]. split; [reflexivity|]. cbn [fst snd]. right.
    destruct Hin as [[= <-]|Hin]; [reflexivity|].
    exfalso. apply Hk. apply in_map_iff. exists (k, c). now split.
  - constructor; [now split|]. apply IH; [exact Hn'|].
    destruct Hin as [[= -> _]|Hin]; [contradiction|exact Hin].
Qed.

Lemma recached_ok c c' :
  container_ok P c ->
  c' = c \/ c' = Container.set_key c (cached P (Container.key c) pw) ->
  container_ok P c' /\ Container.id c' = Container.id c
  /\ entry_of P c' pw = entry_of P c pw /\ mac_of P c' pw = mac_of P c pw.
Proof.
  intros Hc [->| ->]; [split; [exact Hc|]; repeat split|].
  destruct Hc as ((Hs & Hi & Hk) & Hn & Hu).
  split; [split; [now apply cached_ok|split; assumption]|].
  split; [reflexivity|]. split; [now apply entry_of_set_key|reflexivity].
Qed.

Lemma recached_wf l l' : dict_wf P l -> recached P pw l l' -> dict_wf P l'.
Proof.
  intros [Hn Hf] H. split; [now rewrite (recached_keys _ _ H)|].
  clear Hn. induction H as [|[k0 c0] [k1 c1] l l' [E R] H IH]; [constructor|].
  inversion Hf as [|? ? [Hid Hc] Hf']; subst. cbn [fst snd] in *. subst k1.
  destruct (recached_ok c0 c1 Hc R) as (Hc1 & Hid1 & _).
  constructor; [split; [cbn [fst snd]; congruence|exact Hc1]|now apply IH].
Qed.

Lemma recached_sign (Q : Z -> Prop) l l' :
  Forall (fun kv => Q (fst kv)) l -> recached P pw l l' ->
  Forall (fun kv => Q (fst kv)) l'.
Proof.
  intros Hf H. induction H as [|kv kv' l l' [E _] H IH]; [constructor|].
  inversion Hf; subst. constructor; [now rewrite E|now apply IH].
Qed.

Lemma recached_entries l l' :
  Forall (fun kv => container_ok P (snd kv)) l -> recached P pw l l' ->
  map (fun kv => (py_str (fst kv), entry_of P (snd kv) pw)) l'
  = map (fun kv => (py_str (fst kv), entry_of P (snd kv) pw)) l
  /\ map (fun kv => (fst kv, mac_of P (snd kv) pw)) l'
     = map (fun kv => (fst kv, mac_of P (snd kv) pw)) l.
Proof.
  intros Hf H. induction H as [|kv kv' l l' [E R] H IH]; [now split|].
  inversion Hf as [|? ? Hc Hf']; subst.
  destruct (recached_ok _ _ Hc R) as (_ & _ & He & Hm).
  destruct (IH Hf') as [I1 I2]. cbn [map]. rewrite E, He, Hm, I1, I2. now split.
Qed.

Lemma recached_same_contents l l' :
  Forall (fun kv => is_text (Container.name (snd kv)) = true) l ->
  recached P pw l l' -> same_contents l l'.
Proof.
  unfold same_contents. intros Ht H.
  induction H as [|kv kv' l l' [E R] H IH]; [constructor|].
  inversion Ht as [|? ? Hx Ht']; subst. constructor; [|now apply IH].
  split; [congruence|].
  destruct R as [->| ->]; apply eqb_same; try reflexivity; exact Hx.
Qed.
End Recached.

Section EncryptKeeps.
Variable P : Primitives.
Hypothesis HP : PrimitivesOk P.

Lemma logs_only_encrypt_each its : forall self, logs_only (Vault.encrypt_each P self its).
Proof.
  induction its as [|[i c] its IH]; intros self; cbn [Vault.encrypt_each].
  - apply logs_only_ret.
  - apply logs_only_bind; [apply logs_only_encrypt|]. intros [e c'].
    apply logs_only_bind; [apply IH|]. intros [es s]. apply logs_only_ret.
Qed.

Lemma logs_only_vault_encrypt v : logs_only (Vault.encrypt P v).
Proof.
  unfold Vault.encrypt.
  apply logs_only_bind; [apply logs_only_encrypt_each|]. intros [es s].
  apply logs_only_bind; [apply logs_only_lift|]. intros ms.
  apply logs_only_bind; [apply logs_only_generate_aes_key|]. intros [vk k].
  apply logs_only_bind; [apply logs_only_lift|]. intros j.
  apply logs_only_bind; [apply logs_only_hmac_new|]. intros m. apply logs_only_ret.
Qed.

(** The containers that [encrypt_each] leaves in the vault. *)
Lemma encrypt_each_keeps v0 its : forall self w es self' w',
  vault_ok P v0 ->
  (forall kv, In kv its -> In kv (Vault.containers v0 ++ Vault.hidden_containers v0)) ->
  Vault.master_password self = Vault.master_password v0 ->
  Vault.cloud self = Vault.cloud v0 ->
  Vault.key self = Vault.key v0 ->
  recached P (Vault.master_password v0) (Vault.containers v0) (Vault.containers self) ->
  recached P (Vault.master_password v0) (Vault.hidden_containers v0)
    (Vault.hidden_containers self) ->
  Vault.encrypt_each P self its w = (Ok (es, self'), w') ->
  Vault.master_password self' = Vault.master_password v0
  /\ Vault.cloud self' = Vault.cloud v0
  /\ Vault.key self' = Vault.key v0
  /\ recached P (Vault.master_password v0) (Vault.containers v0) (Vault.containers self')
  /\ recached P (Vault.master_password v0) (Vault.hidden_containers v0)
       (Vault.hidden_containers self').
Proof.
  induction its as [|[i c] its IH]; intros self w es self' w' Hv Hin Hm Hcl Hk Rc Rh H.
  - injection H as _ <- _. auto.
  - pose proof Hv as (_ & [Hnc Hfc] & [Hnh Hfh] & Hp & Hneg).
    assert (Hi : In (i, c) (Vault.containers v0 ++ Vault.hidden_containers v0))
      by (apply Hin; now left).
    assert (Hc : container_ok P c).
    { apply in_app_or in Hi. rewrite Forall_forall in Hfc, Hfh.
      destruct Hi as [Hi|Hi]; [apply (Hfc _ Hi)|apply (Hfh _ Hi)]. }
    cbn [Vault.encrypt_each] in H.
    destruct (encrypt_run P HP c (Vault.master_password self) w Hc) as (w1 & He & _).
    rewrite (bind_ok _ _ _ _ _ _ _ He) in H.
    apply bind_inv_ok in H as ([es1 s1] & w2 & Hrest & H).
    unfold ret in H. injection H as _ <- _.
    rewrite Hm in Hrest.
    refine (IH _ w1 es1 s1 w2 Hv _ _ _ _ _ _ Hrest).
    + intros kv Hkv. apply Hin. now right.
    + now rewrite store_master_password.
    + unfold Vault.store.
      destruct (dict_get Z.eqb (Vault.hidden_containers self) i); exact Hcl.
    + now rewrite store_key.
    + unfold Vault.store.
      destruct (dict_get Z.eqb (Vault.hidden_containers self) i) as [c0|] eqn:Hg;
        cbn [Vault.containers]; [exact Rc|].
      apply recached_set; [exact Rc|exact Hnc|].
      apply in_app_or in Hi. destruct Hi as [Hi|Hi]; [exact Hi|].
      exfalso. apply (dict_get_not_keys _ _ Z.eqb Zeqb_spec') in Hg. apply Hg.
      rewrite (recached_keys _ _ _ _ Rh). apply in_map_iff. exists (i, c). now split.
    + unfold Vault.store.
      destruct (dict_get Z.eqb (Vault.hidden_containers self) i) as [c0|] eqn:Hg;
        cbn [Vault.hidden_containers]; [|exact Rh].
      apply recached_set; [exact Rh|exact Hnh|].
      apply in_app_or in Hi. destruct Hi as [Hi|Hi]; [|exact Hi].
      exfalso. apply (dict_get_keys _ _ Z.eqb Zeqb_spec') in Hg.
      rewrite (recached_keys _ _ _ _ Rh) in Hg.
      apply in_map_iff in Hg as ([k x] & E & Hx). cbn in E. subst k.
      rewrite Forall_forall in Hp, Hneg.
      specialize (Hp _ Hi). specialize (Hneg _ Hx). cbn in *. lia.
Qed.

Lemma same_vault_ok v v' : vault_ok P v -> same_vault P v v' -> vault_ok P v'.
Proof.
  intros (Hk & Hc & Hh & Hp & Hn) (_ & _ & Hkey & Rc & Rh).
  split; [|split; [|split; [|split]]].
  - destruct Hkey as [->| ->]; [exact Hk|]. destruct Hk as (Hs & Hi & _).
    now apply cached_ok.
  - exact (recached_wf P _ _ _ Hc Rc).
  - exact (recached_wf P _ _ _ Hh Rh).
  - exact (recached_sign P _ (fun z => (0 <= z)%Z) _ _ Hp Rc).
  - exact (recached_sign P _ (fun z => (z < 0)%Z) _ _ Hn Rh).
Qed.

Lemma same_vault_doc v v' : vault_ok P v -> same_vault P v v' -> doc_of P v' = doc_of P v.
Proof.
  intros Hv Hs. pose proof (same_vault_ok v v' Hv Hs) as Hv'.
  destruct Hs as (Hm & _ & Hkey & Rc & Rh).
  pose proof Hv as (_ & [_ Hfc] & [_ Hfh] & _).
  assert (Hfa : Forall (fun kv => container_ok P (snd kv))
                  (Vault.containers v ++ Vault.hidden_containers v)).
  { apply Forall_app. split; (eapply Forall_impl; [|eassumption]); now intros kv [_ H]. }
  assert (Ra : recached P (Vault.master_password v)
                 (Vault.containers v ++ Vault.hidden_containers v)
                 (Vault.containers v' ++ Vault.hidden_containers v'))
    by (apply Forall2_app; assumption).
  destruct (recached_entries P _ _ _ Hfa Ra) as [He Ht].
  assert (Hsalt : SymmetricKey.salt (Vault.key v') = SymmetricKey.salt (Vault.key v)
                  /\ SymmetricKey.iv (Vault.key v') = SymmetricKey.iv (Vault.key v))
    by (destruct Hkey as [->| ->]; split; reflexivity).
  destruct Hsalt as [Hsa Hiv].
  unfold doc_of, doc_entries, container_tags, vault_key_of, SymmetricKey.get_key_json.
  rewrite (all_containers_app P v Hv), (all_containers_app P v' Hv').
  now rewrite Hm, He, Ht, Hsa, Hiv.
Qed.

(** What [Vault.encrypt] returns and leaves. *)
Lemma vault_encrypt_keeps v w :
  vault_ok P v ->
  exists v1 w1,
    Vault.encrypt P v w = (Ok (doc_of P v, v1), w1)
    /\ frame w w1 /\ same_vault P v v1.
Proof.
  intros Hv. destruct (vault_encrypt_run P HP v w Hv) as (v1 & w1 & He & _).
  exists v1, w1. split; [exact He|]. split.
  { pose proof (logs_only_vault_encrypt v w) as F. now rewrite He in F. }
  unfold Vault.encrypt in He.
  apply bind_inv_ok in He as ([es s] & w2 & Hes & He).
  apply bind_inv_ok in He as (ms & w3 & _ & He).
  apply bind_inv_ok in He as ([vk k] & w4 & Hg & He).
  apply bind_inv_ok in He as (j & w5 & _ & He).
  apply bind_inv_ok in He as (m & w6 & _ & He).
  unfold ret in He.
  pose proof (f_equal (fun r : result (json * Vault.t) * world =>
                         match fst r with Ok (_, x) => Some x | Raise _ => None end) He)
    as Hx.
  cbn [fst] in Hx. injection Hx as <-. clear He.
  destruct (encrypt_each_keeps v (Vault.all_containers v) v w es s w2 Hv)
    as (Hm & Hcl & Hk & Rc & Rh); auto.
  { intros kv Hkv. now rewrite <- (all_containers_app P v Hv). }
  { apply recached_refl. }
  { apply recached_refl. }
  assert (Hck : cache_ok P (Vault.key s)) by (rewrite Hk; apply Hv).
  destruct (generate_aes_key_run P (Vault.key s) (Vault.master_password s) w3 Hck)
    as (w4' & Hg' & _).
  rewrite Hg in Hg'. injection Hg' as _ -> _.
  unfold same_vault, Vault.set_key.
  cbn [Vault.master_password Vault.cloud Vault.key Vault.containers Vault.hidden_containers].
  rewrite Hk, Hm. auto.
Qed.
End EncryptKeeps.

(** [save_to_file] reads no random bytes and allocates no id; it writes
    the document of the vault to [path] and touches no other file; the vault
    afterwards holds the same containers. Saving again writes the same
    document: no salt and no iv is refreshed from one save to the next. *)
Theorem save_to_file_twice (P : Primitives) (v : Vault.t) (path : string) (w : world) :
  PrimitivesOk P -> vault_ok P v ->
  exists v1 w1 v2 w2,
    Vault.save_to_file P v path w = (Ok v1, w1)
    /\ files w1 path = Some (JsonFile (doc_of P v))
    /\ (forall p, p <> path -> files w1 p = files w p)
    /\ next_id w1 = next_id w /\ drawn w1 = drawn w
    /\ same_contents (Vault.containers v) (Vault.containers v1)
    /\ same_contents (Vault.hidden_containers v) (Vault.hidden_containers v1)
    /\ Vault.save_to_file P v1 path w1 = (Ok v2, w2)
    /\ (forall p, files w2 p = files w1 p)
    /\ next_id w2 = next_id w /\ drawn w2 = drawn w.
Proof.
  intros HP Hv.
  destruct (vault_encrypt_keeps P HP v w Hv) as (v1 & w1 & He & F1 & S1).
  pose proof (same_vault_ok P v v1 Hv S1) as Hv1.
  pose proof (same_vault_doc P v v1 Hv S1) as Hd.
  destruct F1 as (A1 & A2 & A3 & A4 & A5).
  set (w1' := snd (write_json path (doc_of P v) w1)).
  destruct (vault_encrypt_keeps P HP v1 w1' Hv1) as (v2 & w2 & He2 & F2 & S2).
  destruct F2 as (B1 & B2 & B3 & B4 & B5).
  exists v1, w1', v2, (snd (write_json path (doc_of P v) w2)).
  destruct S1 as (_ & _ & _ & Rc & Rh).
  split; [|split; [|split; [|split; [|split; [|split; [|split; [|split; [|split; [|split]]]]]]]]].
  - unfold Vault.save_to_file. rewrite (bind_ok _ _ _ _ _ _ _ He). reflexivity.
  - cbn. now rewrite String.eqb_refl.
  - intros p Hp. cbn. rewrite (proj2 (String.eqb_neq p path) Hp). now rewrite A4.
  - cbn. exact A1.
  - cbn. exact A3.
  - eapply recached_same_contents; [|exact Rc]. eapply dict_wf_text, Hv.
  - eapply recached_same_contents; [|exact Rh]. eapply dict_wf_text, Hv.
  - unfold Vault.save_to_file. rewrite (bind_ok _ _ _ _ _ _ _ He2), Hd. reflexivity.
  - intros p. cbn. rewrite B4. cbn. destruct (String.eqb p path); reflexivity.
  - cbn. rewrite B1. cbn. exact A1.
  - cbn. rewrite B3. cbn. exact A3.
Qed.

(** ** Adding a container, saving and loading *)

Lemma dict_get_map_values (A B : Type) (g : A -> B) (l : list (Z * A)) (i : Z) :
  dict_get Z.eqb (map (fun kv => (fst kv, g (snd kv))) l) i
  = option_map g (dict_get Z.eqb l i).
Proof.
  induction l as [|[k a] l IH]; cbn [map dict_get fst snd option_map]; [reflexivity|].
  destruct (Z.eqb k i); [reflexivity|exact IH].
Qed.

Lemma same_contents_recache P pw (l : list (Z * Container.t)) :
  Forall (fun kv => is_text (Container.name (snd kv)) = true) l ->
  same_contents l
    (map (fun kv : Z * Container.t =>
            (fst kv, Container.set_key (snd kv) (cached P (Container.key (snd kv)) pw))) l).
Proof.
  unfold same_contents. induction 1 as [|[k c] l Hx Hl IH]; cbn [map]; constructor; auto.
  split; [reflexivity|]. now apply eqb_same.
Qed.

(** What the command line does for [--create]: in a well-formed vault whose
    ids lie below the id counter, [add_container(name, data)] followed by
    [save_to_file(path)] succeeds, and a vault constructed from the file
    with the master password holds the containers of the original followed
    by the new one, under the id that [add_container] returned, with its
    name and its data. *)
Theorem add_save_load (P : Primitives) (v : Vault.t) (n d path : string) (w : world) :
  PrimitivesOk P -> vault_ok P v -> vault_in_world v w ->
  is_str n = true -> is_str d = true ->
  exists c v1 w1 v2 w2 v3 w3 c',
    Vault.add_container v n d w = (Ok (c, v1), w1)
    /\ Vault.save_to_file P v1 path w1 = (Ok v2, w2)
    /\ Vault.init P (Vault.master_password v) (Some path) w2 = (Ok v3, w3)
    /\ Vault.get_container v3 (Container.id c) w3 = (Ok c', w3)
    /\ Container.eqb c' c = true
    /\ Container.get_data c' = Ok d
    /\ same_contents (Vault.containers v ++ [(Container.id c, c)]) (Vault.containers v3)
    /\ same_contents (Vault.hidden_containers v) (Vault.hidden_containers v3).
Proof.
  intros HP Hv Hw Hn Hd.
  destruct (add_container_run v n d w)
    as (c & v1 & w1 & Ha & Hid & _ & _ & Hdata & Hget & _ & Hh & Happ).
  specialize (Happ Hw).
  destruct (add_container_ok P v n d w c v1 w1 Hv Hw Hn Hd Ha) as (Hv1 & _ & Hc).
  assert (Hpw : Vault.master_password v1 = Vault.master_password v).
  { unfold Vault.add_container in Ha.
    rewrite (bind_ok _ _ _ _ _ _ _ (Container_init_run None w)) in Ha.
    unfold ret in Ha. injection Ha as _ <- _. reflexivity. }
  destruct (save_to_file_run P HP v1 path w1 Hv1) as (v2 & w2 & Hsave & Hfile).
  set (self := initial_vault (Vault.master_password v) (entropy w2) (drawn w2)).
  destruct (load_doc_run P HP v1 self path (after_init w2) Hv1 Hfile (eq_sym Hpw))
    as (w3 & Hload & _).
  exists c, v1, w1, v2, w2, (reloaded P v1 (Vault.cloud self)), w3,
    (Container.set_key c (cached P (Container.key c) (Vault.master_password v1))).
  split; [exact Ha|]. split; [exact Hsave|].
  split; [rewrite Vault_init_load; exact Hload|].
  assert (Hg : dict_get Z.eqb (Vault.containers v1) (Container.id c) = Some c).
  { specialize (Hget w). unfold Vault.get_container in Hget.
    destruct (dict_get Z.eqb (Vault.containers v1) (Container.id c));
      [now injection Hget as ->|discriminate]. }
  split; [|split; [|split; [|split]]].
  - unfold Vault.get_container, reloaded. cbn [Vault.containers].
    rewrite (dict_get_map_values _ _
               (fun c0 => Container.set_key c0
                            (cached P (Container.key c0) (Vault.master_password v1)))).
    now rewrite Hg.
  - apply eqb_same; try reflexivity. exact (proj1 (proj2 Hc)).
  - unfold Container.get_data. cbn [Container.set_key Container.data].
    rewrite Hdata. now apply decode_encode.
  - rewrite <- Happ. unfold reloaded. cbn [Vault.containers].
    apply same_contents_recache. eapply dict_wf_text, Hv1.
  - rewrite <- Hh. unfold reloaded. cbn [Vault.hidden_containers].
    apply same_contents_recache. eapply dict_wf_text, Hv1.
Qed.

(** ** [set_cloud_credentials] *)

(** [set_cloud_credentials(creds, token)] stores what is given as the data
    of the reserved containers -1 and -2 and touches nothing else: the
    visible containers, the keys and the ids stay, and with neither argument
    the vault is unchanged. When the container -1 is missing, credentials
    raise [KeyError] and nothing has changed; when only the container -2 is
    missing, a token raises [KeyError] after the credentials have been
    stored. *)
Theorem set_cloud_credentials_stores (P : Primitives) (v : Vault.t)
        (creds token : option string) :
  Vault.set_cloud_credentials v None None = (Ok tt, v)
  /\ (forall c1 c2,
        dict_get Z.eqb (Vault.hidden_containers v) (-1)%Z = Some c1 ->
        dict_get Z.eqb (Vault.hidden_containers v) (-2)%Z = Some c2 ->
        exists v',
          Vault.set_cloud_credentials v creds token = (Ok tt, v')
          /\ dict_get Z.eqb (Vault.hidden_containers v') (-1)%Z = Some (updated c1 None creds)
          /\ dict_get Z.eqb (Vault.hidden_containers v') (-2)%Z = Some (updated c2 None token)
          /\ (forall j, j <> (-1)%Z -> j <> (-2)%Z ->
                dict_get Z.eqb (Vault.hidden_containers v') j
                = dict_get Z.eqb (Vault.hidden_containers v) j)
          /\ map fst (Vault.hidden_containers v') = map fst (Vault.hidden_containers v)
          /\ Vault.containers v' = Vault.containers v
          /\ Vault.key v' = Vault.key v
          /\ Vault.master_password v' = Vault.master_password v
          /\ (vault_ok P v -> opt_str creds -> opt_str token -> vault_ok P v'))
  /\ (dict_get Z.eqb (Vault.hidden_containers v) (-1)%Z = None ->
      forall c, Vault.set_cloud_credentials v (Some c) token = (Raise (KeyError "-1"), v))
  /\ (forall c1,
        dict_get Z.eqb (Vault.hidden_containers v) (-1)%Z = Some c1 ->
        dict_get Z.eqb (Vault.hidden_containers v) (-2)%Z = None ->
        forall c t, exists v',
          Vault.set_cloud_credentials v (Some c) (Some t) = (Raise (KeyError "-2"), v')
          /\ dict_get Z.eqb (Vault.hidden_containers v') (-1)%Z
             = Some (Container.set_data c1 c)).
Proof.
  assert (Hset : forall (u : Vault.t) i (c0 : Container.t) s,
             dict_get Z.eqb (Vault.hidden_containers u) i = Some c0 ->
             Vault.set_hidden_data u i s
             = (Ok tt,
                {| Vault.key := Vault.key u; Vault.containers := Vault.containers u;
                   Vault.master_password := Vault.master_password u;
                   Vault.cloud := Vault.cloud u;
                   Vault.hidden_containers :=
                     dict_set Z.eqb (Vault.hidden_containers u) i
                       (Container.set_data c0 s) |})).
  { intros u i c0 s H. unfold Vault.set_hidden_data. now rewrite H. }
  assert (Hkeep : forall (u : Vault.t) i (c0 c' : Container.t),
             dict_get Z.eqb (Vault.hidden_containers u) i = Some c0 ->
             vault_ok P u -> Container.id c' = Container.id c0 -> container_ok P c' ->
             vault_ok P {| Vault.key := Vault.key u; Vault.containers := Vault.containers u;
                           Vault.master_password := Vault.master_password u;
                           Vault.cloud := Vault.cloud u;
                           Vault.hidden_containers :=
                             dict_set Z.eqb (Vault.hidden_containers u) i c' |}).
  { intros u i c0 c' Hg (Hk & Hc & Hh & Hp & Hm) Hid Hok.
    assert (Hin : In (i, c0) (Vault.hidden_containers u))
      by (apply dict_get_in in Hg; [exact Hg|apply Zeqb_spec']).
    pose proof Hh as [_ Hf]. rewrite Forall_forall in Hf.
    destruct (Hf _ Hin) as [Hi0 _]. cbn [fst snd] in Hi0.
    split; [exact Hk|]. cbn [Vault.containers Vault.hidden_containers].
    split; [exact Hc|]. split; [|split; [exact Hp|]].
    - apply (dict_set_wf P _ i c0); [exact Hh|exact Hg|congruence|exact Hok].
    - apply (dict_set_sign (fun z => (z < 0)%Z)); [exact Hm|].
      rewrite Forall_forall in Hm. apply (Hm _ Hin). }
  split; [reflexivity|]. split; [|split].
  - intros c1 c2 H1 H2. unfold Vault.set_cloud_credentials.
    destruct creds as [c|]; destruct token as [t|].
    + rewrite (Hset v _ c1 c H1).
      assert (H2' : dict_get Z.eqb
                      (dict_set Z.eqb (Vault.hidden_containers v) (-1)%Z
                         (Container.set_data c1 c)) (-2)%Z = Some c2)
        by (rewrite (dict_get_set_other _ _ Z.eqb Zeqb_spec'); [exact H2|discriminate]).
      match goal with
      | |- context [Vault.set_hidden_data ?u _ _] => rewrite (Hset u _ c2 t H2')
      end.
      eexists. split; [reflexivity|]. cbn [Vault.hidden_containers Vault.containers
                                           Vault.key Vault.master_password updated].
      split; [|split; [|split; [|split; [|split; [|split; [|split]]]]]]; try reflexivity.
      * rewrite (dict_get_set_other _ _ Z.eqb Zeqb_spec') by discriminate.
        apply (dict_get_set_same _ _ Z.eqb Zeqb_spec').
      * apply (dict_get_set_same _ _ Z.eqb Zeqb_spec').
      * intros j J1 J2.
        now rewrite !(dict_get_set_other _ _ Z.eqb Zeqb_spec') by assumption.
      * rewrite !(dict_set_present _ _ Z.eqb Zeqb_spec'); [reflexivity| |].
        -- eapply dict_get_keys; [apply Zeqb_spec'|exact H1].
        -- eapply dict_get_keys; [apply Zeqb_spec'|exact H2'].
      * intros Hv Hc Ht.
        assert (Hv1 := Hkeep v _ c1 (Container.set_data c1 c) H1 Hv eq_refl).
        assert (Hc1 : container_ok P c1).
        { destruct Hv as (_ & _ & [_ Hf] & _). rewrite Forall_forall in Hf.
          apply dict_get_in in H1; [|apply Zeqb_spec']. apply (Hf _ H1). }
        assert (Hc2 : container_ok P c2).
        { destruct Hv as (_ & _ & [_ Hf] & _). rewrite Forall_forall in Hf.
          apply dict_get_in in H2; [|apply Zeqb_spec']. apply (Hf _ H2). }
        specialize (Hv1 (set_data_ok P c1 c Hc Hc1)).
        match type of Hv1 with
        | vault_ok _ ?u =>
          apply (Hkeep u _ c2 (Container.set_data c2 t) H2' Hv1 eq_refl)
        end.
        now apply set_data_ok.
    + rewrite (Hset v _ c1 c H1).
      eexists. split; [reflexivity|]. cbn [Vault.hidden_containers Vault.containers
                                           Vault.key Vault.master_password updated].
      split; [|split; [|split; [|split; [|split; [|split; [|split]]]]]]; try reflexivity.
      * apply (dict_get_set_same _ _ Z.eqb Zeqb_spec').
      * rewrite (dict_get_set_other _ _ Z.eqb Zeqb_spec'); [exact H2|discriminate].
      * intros j J1 J2.
        now rewrite !(dict_get_set_other _ _ Z.eqb Zeqb_spec') by assumption.
      * rewrite !(dict_set_present _ _ Z.eqb Zeqb_spec'); [reflexivity|].
        eapply dict_get_keys; [apply Zeqb_spec'|exact H1].
      * intros Hv Hc _.
        assert (Hc1 : container_ok P c1).
        { destruct Hv as (_ & _ & [_ Hf] & _). rewrite Forall_forall in Hf.
          apply dict_get_in in H1; [|apply Zeqb_spec']. apply (Hf _ H1). }
        apply (Hkeep v _ c1 (Container.set_data c1 c) H1 Hv eq_refl).
        now apply set_data_ok.
    + rewrite (Hset v _ c2 t H2).
      eexists. split; [reflexivity|]. cbn [Vault.hidden_containers Vault.containers
                                           Vault.key Vault.master_password updated].
      split; [|split; [|split; [|split; [|split; [|split; [|split]]]]]]; try reflexivity.
      * rewrite (dict_get_set_other _ _ Z.eqb Zeqb_spec'); [exact H1|discriminate].
      * apply (dict_get_set_same _ _ Z.eqb Zeqb_spec').
      * intros j J1 J2.
        now rewrite !(dict_get_set_other _ _ Z.eqb Zeqb_spec') by assumption.
      * rewrite !(dict_set_present _ _ Z.eqb Zeqb_spec'); [reflexivity|].
        eapply dict_get_keys; [apply Zeqb_spec'|exact H2].
      * intros Hv _ Ht.
        assert (Hc2 : container_ok P c2).
        { destruct Hv as (_ & _ & [_ Hf] & _). rewrite Forall_forall in Hf.
          apply dict_get_in in H2; [|apply Zeqb_spec']. apply (Hf _ H2). }
        apply (Hkeep v _ c2 (Container.set_data c2 t) H2 Hv eq_refl).
        now apply set_data_ok.
    + exists v. cbn [updated].
      split; [reflexivity|]. split; [exact H1|]. split; [exact H2|].
      split; [intros; reflexivity|].
      do 4 (split; [reflexivity|]). intros Hv _ _. exact Hv.
  - intros H1 c. unfold Vault.set_cloud_credentials, Vault.set_hidden_data.
    now rewrite H1.
  - intros c1 H1 H2 c t. unfold Vault.set_cloud_credentials.
    rewrite (Hset v _ c1 c H1). unfold Vault.set_hidden_data.
    cbn [Vault.hidden_containers].
    rewrite (dict_get_set_other _ _ Z.eqb Zeqb_spec') by discriminate. rewrite H2.
    eexists. split; [reflexivity|]. cbn [Vault.hidden_containers].
    apply (dict_get_set_same _ _ Z.eqb Zeqb_spec').
Qed.

(** ** The order of the entries in the document *)

Lemma ascii_compare_refl a : Ascii.compare a a = Eq.
Proof. unfold Ascii.compare. apply N.compare_refl. Qed.

Lemma ascii_compare_lt_trans a b c :
  Ascii.compare a b = Lt -> Ascii.compare b c = Lt -> Ascii.compare a c = Lt.
Proof.
  unfold Ascii.compare. rewrite !N.compare_lt_iff. apply N.lt_trans.
Qed.

Lemma string_compare_lt_trans a : forall b c,
  String.compare a b = Lt -> String.compare b c = Lt -> String.compare a c = Lt.
Proof.
  induction a as [|x a IH]; intros [|y b] [|z c]; cbn [String.compare]; try easy.
  destruct (Ascii.compare x y) eqn:Exy; destruct (Ascii.compare y z) eqn:Eyz;
    intros H1 H2; try discriminate.
  - apply Ascii.compare_eq_iff in Exy, Eyz. subst. rewrite ascii_compare_refl.
    now apply (IH b c).
  - apply Ascii.compare_eq_iff in Exy. subst. now rewrite Eyz.
  - apply Ascii.compare_eq_iff in Eyz. subst. now rewrite Exy.
  - now rewrite (ascii_compare_lt_trans _ _ _ Exy Eyz).
Qed.

Lemma string_leb_trans a b c :
  String.leb a b = true -> String.leb b c = true -> String.leb a c = true.
Proof.
  unfold String.leb.
  destruct (String.compare a b) eqn:Eab; try discriminate;
    destruct (String.compare b c) eqn:Ebc; try discriminate; intros _ _.
  - apply String.compare_eq_iff in Eab, Ebc. subst.
    destruct (String.compare c c) eqn:E; try reflexivity.
    pose proof (String.compare_antisym c c) as A. rewrite E in A. discriminate.
  - apply String.compare_eq_iff in Eab. subst. now rewrite Ebc.
  - apply String.compare_eq_iff in Ebc. subst. now rewrite Eab.
  - now rewrite (string_compare_lt_trans _ _ _ Eab Ebc).
Qed.

Lemma string_leb_false a b : String.leb a b = false -> String.leb b a = true.
Proof. destruct (String.leb_total a b); congruence. Qed.

Lemma string_leb_asym a b : a <> b -> String.leb a b = true -> String.leb b a = false.
Proof.
  intros Hne H. destruct (String.leb b a) eqn:E; [|reflexivity].
  destruct Hne. now apply String.leb_antisym.
Qed.

(** Two insertions under different keys commute. *)
Lemma insert_sorted_comm (V : Type) (a b : string * V) (l : list (string * V)) :
  fst a <> fst b ->
  insert_sorted a (insert_sorted b l) = insert_sorted b (insert_sorted a l).
Proof.
  intros Hne.
  induction l as [|x t IH]; cbn [insert_sorted].
  - destruct (String.leb (fst a) (fst b)) eqn:E.
    + now rewrite (string_leb_asym _ _ Hne E).
    + now rewrite (string_leb_false _ _ E).
  - destruct (String.leb (fst b) (fst x)) eqn:Ebx;
      destruct (String.leb (fst a) (fst x)) eqn:Eax; cbn [insert_sorted];
      rewrite ?Ebx, ?Eax.
    + destruct (String.leb (fst a) (fst b)) eqn:E.
      * now rewrite (string_leb_asym _ _ Hne E), ?Ebx.
      * now rewrite (string_leb_false _ _ E), ?Eax.
    + destruct (String.leb (fst a) (fst b)) eqn:E; [|reflexivity].
      rewrite (string_leb_trans _ _ _ E Ebx) in Eax. discriminate.
    + destruct (String.leb (fst b) (fst a)) eqn:E; [|reflexivity].
      rewrite (string_leb_trans _ _ _ E Eax) in Ebx. discriminate.
    + now rewrite IH.
Qed.

(** [sorted] of a dict does not depend on the order of its items. *)
Lemma sorted_perm_eq (V : Type) (l l' : list (string * V)) :
  Permutation l l' -> NoDup (map fst l) -> sorted l = sorted l'.
Proof.
  induction 1 as [|x l l' H IH|x y l|l l' l'' H1 IH1 H2 IH2]; intros Hn.
  - reflexivity.
  - cbn [sorted fold_right]. fold (sorted l) (sorted l').
    inversion Hn; subst. now rewrite IH.
  - cbn [sorted fold_right]. fold (sorted l).
    apply insert_sorted_comm. inversion Hn as [|? ? Hx _]; subst.
    intros E. apply Hx. left. now symmetry.
  - rewrite IH1 by exact Hn. apply IH2.
    eapply Permutation_NoDup; [|exact Hn]. now apply Permutation_map.
Qed.

Lemma Permutation_filter' (A : Type) (f : A -> bool) (l l' : list A) :
  Permutation l l' -> Permutation (filter f l) (filter f l').
Proof.
  induction 1 as [|x l l' H IH|x y l|l l' l'' H1 IH1 H2 IH2]; cbn [filter].
  - constructor.
  - destruct (f x); [now constructor|exact IH].
  - destruct (f x), (f y); try reflexivity. constructor.
  - now transitivity (filter f l').
Qed.

Section Reordered.
Variable P : Primitives.
Hypothesis HP : PrimitivesOk P.

Lemma with_entries_salt v its :
  b64field P (with_entries P v its) "key" "salt" = Ok (SymmetricKey.salt (Vault.key v)).
Proof.
  pose proof (doc_salt P HP v) as D. unfold doc_of in D.
  unfold with_entries, b64field in *.
  cbn [getitem dict_get String.eqb Ascii.eqb Bool.eqb] in *. exact D.
Qed.

Lemma with_entries_iv v its :
  b64field P (with_entries P v its) "key" "iv" = Ok (SymmetricKey.iv (Vault.key v)).
Proof.
  pose proof (doc_iv P HP v) as D. unfold doc_of in D.
  unfold with_entries, b64field in *.
  cbn [getitem dict_get String.eqb Ascii.eqb Bool.eqb] in *. exact D.
Qed.

Lemma load_reordered v self cs' path w :
  vault_ok P v ->
  Permutation (Vault.all_containers v) cs' ->
  files w path
  = Some (JsonFile (with_entries P v
                      (map (fun kv => (py_str (fst kv),
                                       entry_of P (snd kv) (Vault.master_password v)))
                           cs'))) ->
  Vault.master_password self = Vault.master_password v ->
  exists w',
    Vault.load_from_file P self path w
    = (Ok {| Vault.key := cached P (Vault.key v) (Vault.master_password v);
             Vault.containers :=
               filter (fun kv => (0 <=? fst kv)%Z)
                 (map (recache P (Vault.master_password v)) cs');
             Vault.master_password := Vault.master_password v;
             Vault.cloud := Vault.cloud self;
             Vault.hidden_containers :=
               filter (fun kv => (fst kv <? 0)%Z)
                 (map (recache P (Vault.master_password v)) cs') |}, w').
Proof.
  intros Hv Hperm Hfile Hpw. pose proof Hv as ((Hs & Hi & Hc) & _).
  destruct (all_containers_wf P v Hv) as [Hnd Hf].
  assert (Hf' : Forall (fun kv => Container.id (snd kv) = fst kv /\ container_ok P (snd kv)) cs')
    by (eapply Permutation_Forall; eassumption).
  assert (Hnd' : NoDup (map fst cs'))
    by (eapply Permutation_NoDup; [apply Permutation_map; exact Hperm|exact Hnd]).
  set (E := fun kv : Z * Container.t =>
              (py_str (fst kv), entry_of P (snd kv) (Vault.master_password v))) in *.
  assert (Hload : exists w1,
             mapM (fun kv => Vault.load_entry P (Vault.master_password v) (fst kv) (snd kv))
                  (map E cs') w
             = (Ok (map (fun kv => snd (recache P (Vault.master_password v) kv)) cs'), w1)
             /\ files w1 = files w).
  { rewrite mapM_map. apply mapM_run. intros [i c] Hin w0. cbn [E fst snd].
    rewrite Forall_forall in Hf'. destruct (Hf' _ Hin) as [Hid Hok]. cbn [fst snd] in *.
    rewrite <- Hid. now apply load_entry_of_encrypt. }
  destruct Hload as (w1 & Hload & _).
  assert (Hst : stored_tags (map E cs')
                = Ok (joined_tags (str_keys (container_tags P v)))).
  { rewrite <- (stored_tags_doc P v). unfold stored_tags.
    rewrite (sorted_perm_eq _ (map E cs') (doc_entries P v)); [reflexivity| |].
    - unfold doc_entries. fold E. apply Permutation_map. now symmetry.
    - replace (map fst (map E cs')) with (map fst (str_keys cs'))
        by (unfold str_keys, E; now rewrite !map_map).
      now apply str_keys_nodup. }
  unfold stored_tags in Hst.
  destruct (macs_of (sorted (map E cs'))) as [ms|] eqn:Hms; [|discriminate].
  unfold Vault.load_from_file.
  rewrite (bind_ok _ _ _ _ _ _ _ (try_except_ok _ _ _ _ _ _ (open_json_run _ _ _ Hfile))).
  eexists. apply try_except_ok.
  change (getitem (with_entries P v (map E cs')) "containers")
    with (Ok (JDict (map E cs'))).
  mstep. cbn [items]. mstep.
  rewrite Hpw. rewrite (bind_ok _ _ _ _ _ _ _ Hload).
  change (getitem (with_entries P v (map E cs')) "mac")
    with (Ok (JStr (spec_vault_mac P (vault_key_of P v) (container_tags P v)))).
  rewrite with_entries_salt, with_entries_iv. mstep. mstep. mstep.
  rewrite Hs, Hi. cbn [Nat.eqb SALT_SIZE BLOCK_SIZE negb orb].
  erewrite bind_ok by (apply SymmetricKey_init_given;
                        eapply nonempty_of_length; eassumption).
  rewrite Hms. mstep.
  unfold SymmetricKey.generate_aes_key at 1.
  cbn [SymmetricKey.aeskey SymmetricKey.prev_password SymmetricKey.salt SymmetricKey.iv].
  rewrite !bind_bind. mstep. mstep. rewrite Hst. mstep.
  unfold hmac_new at 1. rewrite !bind_bind. mstep. mstep.
  unfold compare_digest at 1. rewrite !bind_bind. mstep.
  unfold spec_vault_mac, vault_key_of.
  rewrite (hexdigest_ascii HP), String.eqb_refl. cbn [andb negb]. mstep.
  assert (Hitems : map (fun c => (Container.get_id c, c))
                     (map (fun kv => snd (recache P (Vault.master_password v) kv)) cs')
                   = map (recache P (Vault.master_password v)) cs').
  { rewrite map_map. apply map_ext_in. intros [i c] Hin.
    rewrite Forall_forall in Hf'. destruct (Hf' _ Hin) as [Hid _].
    unfold recache; cbn in *. now rewrite Hid. }
  rewrite Hitems.
  rewrite (dict_of_items_nodup _ _ Z.eqb Zeqb_spec') by (now rewrite recache_keys).
  unfold ret, cached. cbn [SymmetricKey.salt SymmetricKey.iv]. reflexivity.
Qed.
End Reordered.

(** The vault tag is computed over the entries sorted by key, so it does
    not depend on their order in the document: a saved document whose
    entries have been reordered, vault tag and key unchanged, has the same
    concatenation of stored tags, loads with the master password, and gives
    the containers of the original, possibly in another order. *)
Theorem load_accepts_reordered_entries (P : Primitives) (v self : Vault.t)
        (its' : list (string * json)) (path : string) (w : world) :
  PrimitivesOk P -> vault_ok P v ->
  Permutation (doc_entries P v) its' ->
  files w path = Some (JsonFile (with_entries P v its')) ->
  Vault.master_password self = Vault.master_password v ->
  stored_tags its' = stored_tags (doc_entries P v)
  /\ exists v' w',
       Vault.load_from_file P self path w = (Ok v', w')
       /\ Permutation (Vault.containers v')
            (Vault.containers (reloaded P v (Vault.cloud self)))
       /\ Permutation (Vault.hidden_containers v')
            (Vault.hidden_containers (reloaded P v (Vault.cloud self))).
Proof.
  intros HP Hv Hperm Hfile Hpw. split.
  - unfold stored_tags. rewrite (sorted_perm_eq _ its' (doc_entries P v)); [reflexivity| |].
    + now symmetry.
    + eapply Permutation_NoDup; [apply Permutation_map; exact Hperm|].
      now apply doc_entries_nodup.
  - unfold doc_entries in Hperm. apply Permutation_sym in Hperm.
    apply Permutation_map_inv in Hperm as (cs' & -> & Hp).
    destruct (load_reordered P HP v self cs' path w Hv Hp Hfile Hpw) as (w' & Hload).
    do 2 eexists. split; [exact Hload|].
    cbn [Vault.containers Vault.hidden_containers reloaded].
    pose proof Hv as (_ & _ & _ & Hpos & Hneg).
    destruct (filter_sign_app
                (map (recache P (Vault.master_password v)) (Vault.containers v))
                (map (recache P (Vault.master_password v)) (Vault.hidden_containers v)))
      as [F1 F2].
    { rewrite Forall_map. exact Hpos. }
    { rewrite Forall_map. exact Hneg. }
    rewrite (all_containers_app P v Hv) in Hp.
    split.
    + etransitivity; [apply Permutation_filter', Permutation_map, Permutation_sym, Hp|].
      rewrite map_app, F1. reflexivity.
    + etransitivity; [apply Permutation_filter', Permutation_map, Permutation_sym, Hp|].
      rewrite map_app, F2. reflexivity.
Qed.

(** ** The properties above on the vault of the test suite *)

Lemma test_vault_in_world : vault_in_world test_vault test_world.
Proof.
  split.
  - apply Forall_cons; [vm_compute; reflexivity|apply Forall_nil].
  - vm_compute. discriminate.
Qed.

Lemma remove_container_lookup_witness :
  exists v',
    Vault.remove_container test_vault 0 world0 = (Ok v', world0)
    /\ Vault.get_container v' 0 world0
       = (Raise (KeyError "Container with ID 0 not found"), world0)
    /\ Vault.hidden_containers v' = Vault.hidden_containers test_vault
    /\ vault_ok RefPrimitives v'.
Proof.
  destruct (remove_container_lookup RefPrimitives test_vault 0 world0 test_vault_ok)
    as (H & _).
  destruct (H vault_container eq_refl) as (v' & H1 & H2 & _ & H4 & _ & H6).
  exists v'. split; [exact H1|]. split; [exact H2|]. split; [exact H4|exact H6].
Defined.

Lemma update_container_lookup_witness :
  exists v',
    Vault.update_container test_vault 0 (Some "New Name") None world0 = (Ok v', world0)
    /\ Vault.get_container v' 0 world0
       = (Ok (Container.set_name vault_container (JStr "New Name")), world0)
    /\ Vault.hidden_containers v' = Vault.hidden_containers test_vault
    /\ vault_ok RefPrimitives v'.
Proof.
  destruct (update_container_lookup RefPrimitives test_vault 0 (Some "New Name") None
              world0 test_vault_ok) as (H & _).
  destruct (H vault_container eq_refl) as (v' & H1 & H2 & _ & _ & H5 & _ & H7).
  exists v'. split; [exact H1|]. split; [exact (H2 world0)|]. split; [exact H5|].
  apply H7; reflexivity.
Defined.

Lemma loaded_vault_is_well_formed_witness :
  exists v w',
    Vault.init RefPrimitives "master_password" (Some "vault.json")
      (world_with "vault.json" (doc_of RefPrimitives test_vault)) = (Ok v, w')
    /\ vault_sound RefPrimitives v /\ vault_in_world v w'
    /\ exists c v1 w1,
         Vault.add_container v "Another" "Text" w' = (Ok (c, v1), w1)
         /\ Vault.containers v1 = Vault.containers v ++ [(Container.id c, c)].
Proof.
  destruct (load_doc_run RefPrimitives RefPrimitives_ok test_vault test_self "vault.json"
              (after_init (world_with "vault.json" (doc_of RefPrimitives test_vault)))
              test_vault_ok eq_refl eq_refl) as (w' & Hl & _).
  assert (Hi : Vault.init RefPrimitives "master_password" (Some "vault.json")
                 (world_with "vault.json" (doc_of RefPrimitives test_vault))
               = (Ok (reloaded RefPrimitives test_vault (Vault.cloud test_self)), w'))
    by (rewrite Vault_init_load; exact Hl).
  destruct (loaded_vault_is_well_formed RefPrimitives "master_password" "vault.json"
              "Another" "Text" _ _ _ RefPrimitives_ok Hi)
    as (Hv & Hw & _ & c & v1 & w1 & Ha & _ & _ & Hc & _).
  do 2 eexists. split; [exact Hi|]. split; [exact Hv|]. split; [exact Hw|].
  exists c, v1, w1. split; [exact Ha|exact Hc].
Defined.

Lemma load_vault_level_errors_witness :
  exists w',
    Vault.load_from_file RefPrimitives test_self "vault.json"
      (world_with "vault.json" bad_mac_doc)
    = (Raise (LoadVaultError Vault.vault_mac_msg), w').
Proof.
  destruct (load_entries_run RefPrimitives RefPrimitives_ok test_vault
              (world_with "vault.json" bad_mac_doc) test_vault_ok) as (w1 & Hload & _).
  destruct (load_vault_level_errors RefPrimitives test_self "vault.json"
              (world_with "vault.json" bad_mac_doc) bad_mac_doc
              (doc_entries RefPrimitives test_vault) _ w1 RefPrimitives_ok
              eq_refl eq_refl Hload) as (_ & H).
  destruct (H (JStr "invalid") (SymmetricKey.salt (Vault.key test_vault))
              (SymmetricKey.iv (Vault.key test_vault)) eq_refl
              (doc_salt RefPrimitives RefPrimitives_ok test_vault)
              (doc_iv RefPrimitives RefPrimitives_ok test_vault)) as (_ & H2).
  apply (H2 eq_refl eq_refl _ "invalid" (stored_tags_doc RefPrimitives test_vault) eq_refl
            eq_refl).
  vm_compute. discriminate.
Defined.

Lemma save_to_file_twice_witness :
  exists v1 w1 v2 w2,
    Vault.save_to_file RefPrimitives test_vault "vault.json" world0 = (Ok v1, w1)
    /\ files w1 "vault.json" = Some (JsonFile (doc_of RefPrimitives test_vault))
    /\ (forall p, p <> "vault.json" -> files w1 p = files world0 p)
    /\ next_id w1 = next_id world0 /\ drawn w1 = drawn world0
    /\ same_contents (Vault.containers test_vault) (Vault.containers v1)
    /\ same_contents (Vault.hidden_containers test_vault) (Vault.hidden_containers v1)
    /\ Vault.save_to_file RefPrimitives v1 "vault.json" w1 = (Ok v2, w2)
    /\ (forall p, files w2 p = files w1 p)
    /\ next_id w2 = next_id world0 /\ drawn w2 = drawn world0.
Proof.
  exact (save_to_file_twice RefPrimitives test_vault "vault.json" world0
           RefPrimitives_ok test_vault_ok).
Defined.

Lemma add_save_load_witness :
  exists c v1 w1 v2 w2 v3 w3 c',
    Vault.add_container test_vault "Another" "Text" test_world = (Ok (c, v1), w1)
    /\ Vault.save_to_file RefPrimitives v1 "vault.json" w1 = (Ok v2, w2)
    /\ Vault.init RefPrimitives "master_password" (Some "vault.json") w2 = (Ok v3, w3)
    /\ Vault.get_container v3 (Container.id c) w3 = (Ok c', w3)
    /\ Container.eqb c' c = true
    /\ Container.get_data c' = Ok "Text"
    /\ same_contents (Vault.containers test_vault ++ [(Container.id c, c)])
         (Vault.containers v3)
    /\ same_contents (Vault.hidden_containers test_vault) (Vault.hidden_containers v3).
Proof.
  exact (add_save_load RefPrimitives test_vault "Another" "Text" "vault.json" test_world
           RefPrimitives_ok test_vault_ok test_vault_in_world eq_refl eq_refl).
Defined.

Lemma load_accepts_reordered_entries_witness :
  stored_tags (rev (doc_entries RefPrimitives test_vault))
  = stored_tags (doc_entries RefPrimitives test_vault)
  /\ exists v' w',
       Vault.load_from_file RefPrimitives test_self "vault.json"
         (world_with "vault.json"
            (with_entries RefPrimitives test_vault
               (rev (doc_entries RefPrimitives test_vault)))) = (Ok v', w')
       /\ Permutation (Vault.containers v')
            (Vault.containers (reloaded RefPrimitives test_vault (Vault.cloud test_self)))
       /\ Permutation (Vault.hidden_containers v')
            (Vault.hidden_containers
               (reloaded RefPrimitives test_vault (Vault.cloud test_self))).
Proof.
  exact (load_accepts_reordered_entries RefPrimitives test_vault test_self
           (rev (doc_entries RefPrimitives test_vault)) "vault.json"
           (world_with "vault.json"
              (with_entries RefPrimitives test_vault
                 (rev (doc_entries RefPrimitives test_vault))))
           RefPrimitives_ok test_vault_ok (Permutation_rev _) eq_refl eq_refl).
Defined.

(** ** Regenerating the keys *)

Lemma regenerate_keys_run v w :
  exists w',
    Vault.regenerate_keys v w = (Ok (regenerated v (entropy w) (drawn w)), w')
    /\ entropy w' = entropy w
    /\ drawn w'
       = (drawn w + KEY_BYTES * (1 + List.length (Vault.containers v)
                                 + List.length (Vault.hidden_containers v)))%nat
    /\ files w' = files w /\ next_id w' = next_id w.
Proof.
  unfold Vault.regenerate_keys.
  rewrite (bind_ok _ _ _ _ _ _ _ (SymmetricKey_init_fresh w)).
  match goal with |- exists _, bind _ _ ?w1 = _ /\ _ =>
    destruct (rekey_run (Vault.containers v) w1) as (w2 & Hr & He & Hd & Hf & Hn) end.
  rewrite (bind_ok _ _ _ _ _ _ _ Hr).
  destruct (rekey_run (Vault.hidden_containers v) w2) as (w3 & Hr3 & He3 & Hd3 & Hf3 & Hn3).
  rewrite (bind_ok _ _ _ _ _ _ _ Hr3). cbn [entropy drawn files next_id] in *.
  exists w3. split.
  - unfold ret, regenerated. rewrite He, Hd.
    replace (drawn w + SALT_SIZE + BLOCK_SIZE)%nat with (drawn w + KEY_BYTES)%nat
      by (unfold KEY_BYTES; lia).
    reflexivity.
  - split; [congruence|]. split; [|split; congruence].
    rewrite Hd3, Hd. unfold KEY_BYTES. lia.
Qed.

Lemma regenerated_ok P v e d : vault_ok P v -> vault_ok P (regenerated v e d).
Proof.
  intros (_ & Hc & Hh & Hp & Hn). unfold regenerated. split; [apply fresh_key_ok|].
  cbn [Vault.containers Vault.hidden_containers].
  split; [now apply rekeyed_wf|]. split; [now apply rekeyed_wf|]. split.
  - apply (rekeyed_sign (fun i => (0 <= i)%Z)); assumption.
  - apply (rekeyed_sign (fun i => (i < 0)%Z)); assumption.
Qed.

(** [regenerate_keys()] replaces the key object of the vault and of every
    container, visible and reserved, by a new [SymmetricKey()]: salt and iv
    are the bytes that the random source yields from the position up to
    which it had been read, 48 for each key, one key after the other, and no
    derived key is cached. It allocates no id and writes no file; password,
    cloud handle, ids, names and data stay. The vault is still well formed,
    [save_to_file] succeeds, and a vault constructed from the file with the
    master password holds containers with the ids, names and data of the
    original. *)
Theorem regenerate_keys_refreshes (P : Primitives) (v : Vault.t) (path : string)
        (w : world) :
  PrimitivesOk P -> vault_ok P v ->
  let v1 := regenerated v (entropy w) (drawn w) in
  exists w1 v2 w2 v3 w3,
    Vault.regenerate_keys v w = (Ok v1, w1)
    /\ (Vault.master_password v1 = Vault.master_password v
        /\ Vault.cloud v1 = Vault.cloud v
        /\ SymmetricKey.salt (Vault.key v1) = map (entropy w) (seq (drawn w) SALT_SIZE)
        /\ SymmetricKey.iv (Vault.key v1)
           = map (entropy w) (seq (drawn w + SALT_SIZE) BLOCK_SIZE)
        /\ SymmetricKey.aeskey (Vault.key v1) = None
        /\ List.length (Vault.containers v1) = List.length (Vault.containers v)
        /\ List.length (Vault.hidden_containers v1)
           = List.length (Vault.hidden_containers v)
        /\ (forall k i c,
              nth_error (Vault.containers v1) k = Some (i, c) ->
              let pos := (drawn w + (SALT_SIZE + BLOCK_SIZE) * (1 + k))%nat in
              SymmetricKey.salt (Container.key c) = map (entropy w) (seq pos SALT_SIZE)
              /\ SymmetricKey.iv (Container.key c)
                 = map (entropy w) (seq (pos + SALT_SIZE) BLOCK_SIZE)
              /\ SymmetricKey.aeskey (Container.key c) = None
              /\ exists c0, nth_error (Vault.containers v) k = Some (i, c0)
                            /\ Container.id c = Container.id c0
                            /\ Container.name c = Container.name c0
                            /\ Container.data c = Container.data c0)
        /\ (forall k i c,
              nth_error (Vault.hidden_containers v1) k = Some (i, c) ->
              let pos := (drawn w + (SALT_SIZE + BLOCK_SIZE)
                                    * (1 + List.length (Vault.containers v) + k))%nat in
              SymmetricKey.salt (Container.key c) = map (entropy w) (seq pos SALT_SIZE)
              /\ SymmetricKey.iv (Container.key c)
                 = map (entropy w) (seq (pos + SALT_SIZE) BLOCK_SIZE)
              /\ SymmetricKey.aeskey (Container.key c) = None
              /\ exists c0, nth_error (Vault.hidden_containers v) k = Some (i, c0)
                            /\ Container.id c = Container.id c0
                            /\ Container.name c = Container.name c0
                            /\ Container.data c = Container.data c0))
    /\ drawn w1
       = (drawn w + (SALT_SIZE + BLOCK_SIZE)
                    * (1 + List.length (Vault.containers v)
                       + List.length (Vault.hidden_containers v)))%nat
    /\ entropy w1 = entropy w /\ next_id w1 = next_id w /\ files w1 = files w
    /\ vault_ok P v1
    /\ Vault.save_to_file P v1 path w1 = (Ok v2, w2)
    /\ Vault.init P (Vault.master_password v) (Some path) w2 = (Ok v3, w3)
    /\ same_contents (Vault.containers v) (Vault.containers v3)
    /\ same_contents (Vault.hidden_containers v) (Vault.hidden_containers v3).
Proof.
  intros HP Hv v1.
  destruct (regenerate_keys_run v w) as (w1 & Hr & Hen & Hd & Hf & Hn).
  pose proof (regenerated_ok P v (entropy w) (drawn w) Hv) as Hv1. fold v1 in Hv1, Hr.
  destruct (save_to_file_run P HP _ path w1 Hv1) as (v2 & w2 & Hsave & Hfile).
  destruct (load_doc_run P HP v1
              (initial_vault (Vault.master_password v) (entropy w2) (drawn w2)) path
              (after_init w2) Hv1 Hfile eq_refl) as (w3 & Hload & _).
  exists w1, v2, w2. do 2 eexists.
  split; [exact Hr|]. split.
  { split; [reflexivity|]. split; [reflexivity|]. split; [reflexivity|].
    split; [reflexivity|]. split; [reflexivity|]. unfold v1, regenerated.
    cbn [Vault.containers Vault.hidden_containers].
    split; [apply rekeyed_length|]. split; [apply rekeyed_length|]. split.
    - intros k i c H. cbv zeta. apply rekeyed_nth in H as (Hk & Hc).
      replace (drawn w + KEY_BYTES + KEY_BYTES * k)%nat
        with (drawn w + (SALT_SIZE + BLOCK_SIZE) * (1 + k))%nat in Hk
        by (unfold KEY_BYTES; lia).
      rewrite Hk. repeat split. exact Hc.
    - intros k i c H. cbv zeta. apply rekeyed_nth in H as (Hk & Hc).
      replace (drawn w + KEY_BYTES + KEY_BYTES * List.length (Vault.containers v)
               + KEY_BYTES * k)%nat
        with (drawn w + (SALT_SIZE + BLOCK_SIZE)
                        * (1 + List.length (Vault.containers v) + k))%nat in Hk
        by (unfold KEY_BYTES; lia).
      rewrite Hk. repeat split. exact Hc. }
  split; [exact Hd|]. split; [exact Hen|]. split; [exact Hn|]. split; [exact Hf|].
  split; [exact Hv1|]. split; [exact Hsave|].
  split; [rewrite Vault_init_load; exact Hload|].
  cbn [reloaded Vault.containers Vault.hidden_containers regenerated Vault.master_password v1].
  destruct Hv as (_ & Hc & Hh & _).
  split; apply rekeyed_same_contents; eapply dict_wf_text; eassumption.
Qed.

(** [regenerate_keys] on the vault of the test suite, in the process that has
    built it: the four new salts are the stretches of the random source from
    byte 192 on, and they differ from one another and from the four salts
    that the vault had. *)
Lemma regenerate_keys_refreshes_witness :
  let v1 := regenerated test_vault (entropy test_world) (drawn test_world) in
  let salts (v : Vault.t) :=
    SymmetricKey.salt (Vault.key v)
    :: map (fun kv => SymmetricKey.salt (Container.key (snd kv)))
           (Vault.containers v ++ Vault.hidden_containers v) in
  exists w1 v2 w2 v3 w3,
    Vault.regenerate_keys test_vault test_world = (Ok v1, w1)
    /\ salts v1
       = [map (entropy world0) (seq 192 32); map (entropy world0) (seq 240 32);
          map (entropy world0) (seq 288 32); map (entropy world0) (seq 336 32)]
    /\ NoDup (salts v1 ++ salts test_vault)
    /\ drawn w1 = 384%nat
    /\ vault_ok RefPrimitives v1
    /\ Vault.save_to_file RefPrimitives v1 "vault.json" w1 = (Ok v2, w2)
    /\ Vault.init RefPrimitives "master_password" (Some "vault.json") w2 = (Ok v3, w3)
    /\ same_contents (Vault.containers test_vault) (Vault.containers v3)
    /\ same_contents (Vault.hidden_containers test_vault) (Vault.hidden_containers v3).
Proof.
  intros v1 salts.
  destruct (regenerate_keys_refreshes RefPrimitives test_vault "vault.json" test_world
              RefPrimitives_ok test_vault_ok)
    as (w1 & v2 & w2 & v3 & w3 & Hr & _ & Hd & _ & _ & _ & Hv1 & Hsave & Hinit & Hc & Hh).
  exists w1, v2, w2, v3, w3. split; [exact Hr|]. split; [vm_compute; reflexivity|].
  split; [|split; [|split; [exact Hv1|split; [exact Hsave|split; [exact Hinit|split]]]]].
  - vm_compute.
    repeat (constructor;
            [simpl; intros H; repeat (destruct H as [H|H]; [discriminate H|]); exact H|]).
    constructor.
  - rewrite Hd. vm_compute. reflexivity.
  - exact Hc.
  - exact Hh.
Defined.
